(** * Billing system: invoice calculator, cart manager, renderer helpers
      and history queries

    A shallow embedding of the invoice engine of the billing application:
    - [InvoiceGenerator] (cart state, [addItem], [updateItemQty],
      [removeItem], [resetForm], [handleSave], the live totals, the preview
      scale, the name of the PDF),
    - [InvoiceTemplate] ([numberToWords], the tax split, the weight summary
      and its table cell, [hexToRgba]),
    - [InvoiceHistory] ([filteredInvoices], [handleExportCSV], the modal
      scale, the print title),
    - [App] ([handleSaveInvoice], the persistence callback, and
      [handleTabChange], the navigation guard),
    - [AnalyticsDashboard] (the figures of [stats], the pie and the bars).

    Conventions of the embedding.
    - A JavaScript [number] that carries money, a quantity or a rate is a
      rational ([Q]); arithmetic is exact, so the rounding error of IEEE
      doubles, [NaN] and the infinities are outside the model.  Values that
      the code has already rounded ([Math.round], [Math.floor]) or that are
      counters are integers ([Z]).
    - A JavaScript string is a [string] of 8-bit characters; case mapping
      and white space are the ASCII ones.
    - React state is an explicit record; an event handler is a function on
      that record; what the rendered controls let through ([disabled=...])
      is a separate dispatch function. *)

From Stdlib Require Import ZArith QArith Qround Qminmax Qabs Qpower.
From Stdlib Require Import List String Ascii Bool Lia Lqa Permutation Sorted Morphisms.
From Stdlib Require PrimFloat FloatOps SpecFloat.
Import ListNotations.

(* ================================================================== *)
(** * Numbers *)

Module JsNumber.

(** [Math.round(x)]: the integer nearest to [x], a tie going up. *)
Definition Math_round_Z (x : Q) : Z := Qfloor (x + (1 # 2)).
Definition Math_round (x : Q) : Q := inject_Z (Math_round_Z x).

(** [Math.floor(x)]. *)
Definition Math_floor_Z (x : Q) : Z := Qfloor x.
Definition Math_floor (x : Q) : Q := inject_Z (Math_floor_Z x).

(** [Math.max(a, b)]. *)
Definition Math_max (a b : Q) : Q := Qmax a b.

(** [x % m] on numbers: the remainder has the sign of the dividend. *)
Definition Qtrunc (x : Q) : Z :=
    if Qle_bool 0 x then Qfloor x else Qceiling x.

(** [x || 0] for an optional number: [undefined] and [0] are falsy. *)
Definition or_zero (x : option Q) : Q :=
    match x with
    | Some r => if Qeq_bool r 0 then 0 else r
    | None => 0
    end.

End JsNumber.
Import JsNumber.

(** IEEE 754 binary64, the arithmetic of a JavaScript [number].  A finite
    double is the rational it denotes; an operation of the code is the exact
    operation followed by [rnd], rounding to the nearest double, a tie going
    to the even significand.  A double is [n * 2^k] with a significand [n]
    of at most 53 bits and [k >= -1074] (the subnormal numbers included).
    The exponent has no upper limit here: overflow to the infinities, [NaN]
    and the sign of zero are left out. *)
Module Binary64.

Definition pow2 (e : Z) : Q := 2 ^ e.

(** The exponent [e] with [2^e <= x < 2^(e+1)], for a positive [x]. *)
Definition ilog2 (x : Q) : Z :=
    let e := (Z.log2 (Qnum x) - Z.log2 (Zpos (Qden x)))%Z in
    if Qle_bool (pow2 e) x then e else (e - 1)%Z.

(** The nearest integer, a tie going to the even one. *)
Definition round_half_even (x : Q) : Z :=
    let f := Qfloor x in
    match Qcompare (x - inject_Z f) (1 # 2) with
    | Lt => f
    | Gt => (f + 1)%Z
    | Eq => if Z.even f then f else (f + 1)%Z
    end.

(** The exponent of the smallest normal number. *)
Definition emin : Z := (-1022)%Z.

(** Rounding a positive number: 53 bits from its leading bit on, or from
    the subnormal floor on. *)
Definition rnd_pos (x : Q) : Q :=
    let e := Z.max (ilog2 x) emin in
    let q := pow2 (e - 52) in
    inject_Z (round_half_even (x / q)) * q.

Definition rnd (x : Q) : Q :=
    match Qnum x with
    | Z0 => 0
    | Zpos _ => Qred (rnd_pos x)
    | Zneg _ => Qred (- rnd_pos (- x))
    end.

(** [x + y], [x - y], [x * y], [x / y] on doubles. *)
Definition add (x y : Q) : Q := rnd (x + y).
Definition sub (x y : Q) : Q := rnd (x - y).
Definition mul (x y : Q) : Q := rnd (x * y).
Definition div (x y : Q) : Q := rnd (x / y).

(** A numeric literal of the source, or a decimal text read by
    [parseFloat]: the double nearest to the decimal. *)
Definition literal (x : Q) : Q := rnd x.

(** [x] is the value of a double. *)
Definition is_double (x : Q) : Prop := rnd x == x.

(** The doubles, as a set of rationals. *)
Definition binary64 (d : Q) : Prop :=
    exists n k : Z,
      (Z.abs n <= 2 ^ 53)%Z /\ (-1074 <= k)%Z /\ d == inject_Z n * pow2 k.

(** The value of a float of the kernel ([None] for [NaN] and the
    infinities), to compare [rnd] with the hardware arithmetic. *)
Definition of_float (f : PrimFloat.float) : option Q :=
    match FloatOps.Prim2SF f with
    | SpecFloat.S754_zero _ => Some 0
    | SpecFloat.S754_finite s m e =>
        Some (Qred ((if s then - (1) else 1) * inject_Z (Zpos m) * pow2 e))
    | _ => None
    end.

End Binary64.

(* ================================================================== *)
(** * Data model (types.ts) *)

Record Product := mkProduct {
  product_id : string;
  product_name : string;
  product_rate : Q;
  product_unit : string;
  product_packing : option string
}.

Record Customer := mkCustomer {
  customer_id : string;
  customer_name : string;
  customer_city : string
}.

Record InvoiceItem := mkItem {
  item_id : string;
  item_productId : string;
  item_name : string;
  item_quantity : Q;
  item_unit : string;
  item_rate : Q;
  item_amount : Q;
  item_packing : option string
}.

(** The fields of [BusinessSettings] that the invoice engine reads. *)
Record BusinessSettings := mkSettings {
  nextInvoiceNumber : Z;
  enableGst : bool;
  defaultGstRate : option Q
}.

Record Invoice := mkInvoice {
  inv_id : string;
  inv_date : string;
  inv_customerName : string;
  inv_customerCity : string;
  inv_items : list InvoiceItem;
  inv_total : Q;
  inv_subtotal : option Q;
  inv_gstAmount : option Q;
  inv_gstRate : option Q;
  inv_sgstAmount : option Q;
  inv_cgstAmount : option Q
}.

(* ================================================================== *)
(** * Invoice calculator *)

(** [items.reduce((sum, i) => sum + i.amount, 0)] *)
Definition sum_amounts (items : list InvoiceItem) : Q :=
  fold_left (fun sum i => sum + item_amount i) items 0.

(** The totals computed in the body of [InvoiceGenerator]. *)
Module Generator.

Definition subtotal (items : list InvoiceItem) : Q := sum_amounts items.

Definition gstRate (settings : BusinessSettings) : Q :=
    if enableGst settings then or_zero (defaultGstRate settings) else 0.

Definition halfRate (settings : BusinessSettings) : Q :=
    gstRate settings / 2.

Definition sgstAmount (settings : BusinessSettings) (items : list InvoiceItem) : Q :=
    if enableGst settings
    then Math_round (subtotal items * (halfRate settings / 100))
    else 0.

Definition cgstAmount (settings : BusinessSettings) (items : list InvoiceItem) : Q :=
    if enableGst settings
    then Math_round (subtotal items * (halfRate settings / 100))
    else 0.

Definition totalTax (settings : BusinessSettings) (items : list InvoiceItem) : Q :=
    sgstAmount settings items + cgstAmount settings items.

Definition grandTotal (settings : BusinessSettings) (items : list InvoiceItem) : Q :=
    subtotal items + totalTax settings items.

End Generator.

(** The totals computed in the body of [InvoiceTemplate]; [propGstRate] is
    the optional [gstRate] prop. *)
Module Template.

Definition calcSubtotal (items : list InvoiceItem) : Q := sum_amounts items.

Definition isGstEnabled (settings : BusinessSettings) : bool := enableGst settings.

Definition rate (settings : BusinessSettings) (propGstRate : option Q) : Q :=
    match propGstRate with
    | Some r => r
    | None => or_zero (defaultGstRate settings)
    end.

Definition halfRate (settings : BusinessSettings) (propGstRate : option Q) : Q :=
    rate settings propGstRate / 2.

Definition calcSgst (settings : BusinessSettings) (propGstRate : option Q)
             (items : list InvoiceItem) : Q :=
    if isGstEnabled settings
    then Math_round (calcSubtotal items * (halfRate settings propGstRate / 100))
    else 0.

Definition calcCgst (settings : BusinessSettings) (propGstRate : option Q)
             (items : list InvoiceItem) : Q :=
    if isGstEnabled settings
    then Math_round (calcSubtotal items * (halfRate settings propGstRate / 100))
    else 0.

Definition totalAmount (settings : BusinessSettings) (propGstRate : option Q)
             (items : list InvoiceItem) : Q :=
    calcSubtotal items + calcSgst settings propGstRate items
    + calcCgst settings propGstRate items.

Definition totalQty (items : list InvoiceItem) : Q :=
    fold_left (fun sum i => sum + item_quantity i) items 0.

End Template.



(** ** The totals in double precision

    The same two calculators with the arithmetic of the code: the fields of
    the lines are doubles, and every [+], [*] and [/] rounds. *)

(** [items.reduce((sum, i) => sum + i.amount, 0)] *)
Definition sum_amounts64 (items : list InvoiceItem) : Q :=
  fold_left (fun sum i => Binary64.add sum (item_amount i)) items 0.

Module Generator64.

Definition subtotal (items : list InvoiceItem) : Q := sum_amounts64 items.

Definition gstRate (settings : BusinessSettings) : Q :=
    if enableGst settings then or_zero (defaultGstRate settings) else 0.

Definition halfRate (settings : BusinessSettings) : Q :=
    Binary64.div (gstRate settings) 2.

Definition sgstAmount (settings : BusinessSettings) (items : list InvoiceItem) : Q :=
    if enableGst settings
    then Math_round (Binary64.mul (subtotal items)
                                  (Binary64.div (halfRate settings) 100))
    else 0.

Definition cgstAmount (settings : BusinessSettings) (items : list InvoiceItem) : Q :=
    if enableGst settings
    then Math_round (Binary64.mul (subtotal items)
                                  (Binary64.div (halfRate settings) 100))
    else 0.

Definition totalTax (settings : BusinessSettings) (items : list InvoiceItem) : Q :=
    Binary64.add (sgstAmount settings items) (cgstAmount settings items).

Definition grandTotal (settings : BusinessSettings) (items : list InvoiceItem) : Q :=
    Binary64.add (subtotal items) (totalTax settings items).

End Generator64.

Module Template64.

Definition calcSubtotal (items : list InvoiceItem) : Q := sum_amounts64 items.

Definition isGstEnabled (settings : BusinessSettings) : bool := enableGst settings.

Definition rate (settings : BusinessSettings) (propGstRate : option Q) : Q :=
    match propGstRate with
    | Some r => r
    | None => or_zero (defaultGstRate settings)
    end.

Definition halfRate (settings : BusinessSettings) (propGstRate : option Q) : Q :=
    Binary64.div (rate settings propGstRate) 2.

Definition calcSgst (settings : BusinessSettings) (propGstRate : option Q)
             (items : list InvoiceItem) : Q :=
    if isGstEnabled settings
    then Math_round (Binary64.mul (calcSubtotal items)
                                  (Binary64.div (halfRate settings propGstRate) 100))
    else 0.

Definition calcCgst (settings : BusinessSettings) (propGstRate : option Q)
             (items : list InvoiceItem) : Q :=
    if isGstEnabled settings
    then Math_round (Binary64.mul (calcSubtotal items)
                                  (Binary64.div (halfRate settings propGstRate) 100))
    else 0.

Definition totalAmount (settings : BusinessSettings) (propGstRate : option Q)
             (items : list InvoiceItem) : Q :=
    Binary64.add
      (Binary64.add (calcSubtotal items) (calcSgst settings propGstRate items))
      (calcCgst settings propGstRate items).

(** [items.reduce((sum, item) => sum + item.quantity, 0)] *)
Definition totalQty (items : list InvoiceItem) : Q :=
    fold_left (fun sum i => Binary64.add sum (item_quantity i)) items 0.

End Template64.

(** A line whose amount is the product the code computes. *)
Definition amount_ok64 (i : InvoiceItem) : Prop :=
  item_amount i == Binary64.mul (item_quantity i) (item_rate i).

(* ================================================================== *)
(** * Strings *)

Module JsString.

Local Open Scope string_scope.

(** White space of [String.prototype.trim] and of the regular expression
    class [\s], restricted to ASCII: tab, line feed, vertical tab, form
    feed, carriage return, space. *)
Definition is_space (c : ascii) : bool :=
  let n := nat_of_ascii c in
  ((9 <=? n) && (n <=? 13))%nat || (n =? 32)%nat.

(** The regular expression class [\d]. *)
Definition is_digit (c : ascii) : bool :=
  let n := nat_of_ascii c in ((48 <=? n) && (n <=? 57))%nat.

Definition lower_char (c : ascii) : ascii :=
  let n := nat_of_ascii c in
  if ((65 <=? n) && (n <=? 90))%nat then ascii_of_nat (n + 32) else c.

(** [s.toLowerCase()] *)
Fixpoint toLowerCase (s : string) : string :=
  match s with
  | EmptyString => EmptyString
  | String c r => String (lower_char c) (toLowerCase r)
  end.

Fixpoint trimStart (s : string) : string :=
  match s with
  | EmptyString => EmptyString
  | String c r => if is_space c then trimStart r else s
  end.

Fixpoint all_space (s : string) : bool :=
  match s with
  | EmptyString => true
  | String c r => is_space c && all_space r
  end.

Fixpoint trimEnd (s : string) : string :=
  match s with
  | EmptyString => EmptyString
  | String c r => if all_space s then EmptyString else String c (trimEnd r)
  end.

(** [s.trim()] *)
Definition trim (s : string) : string := trimEnd (trimStart s).

(** [s.startsWith(t)] *)
Fixpoint startsWith (t s : string) : bool :=
  match t, s with
  | EmptyString, _ => true
  | String a t', String b s' => Ascii.eqb a b && startsWith t' s'
  | String _ _, EmptyString => false
  end.

(** [s.includes(t)] *)
Fixpoint includes (s t : string) : bool :=
  startsWith t s
  || match s with
     | EmptyString => false
     | String _ r => includes r t
     end.

(** [s.split(sep)] for a one-character separator. *)
Fixpoint split_on (sep : ascii) (s : string) : list string :=
  match s with
  | EmptyString => [EmptyString]
  | String c r =>
      if Ascii.eqb c sep then EmptyString :: split_on sep r
      else match split_on sep r with
           | [] => [String c EmptyString]
           | w :: ws => String c w :: ws
           end
  end.

(** [parts.join(sep)] *)
Fixpoint join (sep : string) (parts : list string) : string :=
  match parts with
  | [] => EmptyString
  | [w] => w
  | w :: ws => w ++ sep ++ join sep ws
  end.

(** The double-quote character (code 34). *)
Definition dquote : ascii := "034"%char.

(** [s.replace(...)] with the global pattern of one double-quote character
    and a replacement of two: every double-quote character is doubled. *)
Fixpoint double_quotes (s : string) : string :=
  match s with
  | EmptyString => EmptyString
  | String c r =>
      if Ascii.eqb c dquote
      then String c (String c (double_quotes r))
      else String c (double_quotes r)
  end.

Fixpoint drop (n : nat) (s : string) : string :=
  match n, s with
  | O, _ => s
  | S _, EmptyString => EmptyString
  | S k, String _ r => drop k r
  end.

(** [s.slice(-k)]: the last [k] characters (all of [s] when it is shorter). *)
Definition slice_last (k : nat) (s : string) : string :=
  drop (String.length s - k) s.

Fixpoint all_digits (s : string) : bool :=
  match s with
  | EmptyString => true
  | String c r => is_digit c && all_digits r
  end.

(** [Number(s)] for a string of decimal digits. *)
Fixpoint digits_value_acc (s : string) (acc : Z) : Z :=
  match s with
  | EmptyString => acc
  | String c r =>
      digits_value_acc r (10 * acc + (Z.of_nat (nat_of_ascii c) - 48))%Z
  end.
Definition digits_value (s : string) : Z := digits_value_acc s 0%Z.

(** ** [Number.prototype.toString] on integral values *)

Definition digit_char (d : Z) : ascii := ascii_of_nat (48 + Z.to_nat d).

Fixpoint decimal_fuel (fuel : nat) (n : Z) (acc : string) : string :=
  match fuel with
  | O => acc
  | S f =>
      let acc' := String (digit_char (n mod 10)%Z) acc in
      if (n <? 10)%Z then acc' else decimal_fuel f (n / 10)%Z acc'
  end.

(** The decimal digits of [n >= 0], most significant first. *)
Definition decimal (n : Z) : string :=
  decimal_fuel (S (Z.to_nat (Z.log2 n))) n EmptyString.

Fixpoint strip_trailing_zeros (s : string) : string :=
  match s with
  | EmptyString => EmptyString
  | String c r =>
      match strip_trailing_zeros r with
      | EmptyString => if Ascii.eqb c "0"%char then EmptyString else String c EmptyString
      | r' => String c r'
      end
  end.

(** Exponential notation, used from 10^21 on: the significant digits
    [d.ddd], then [e+] and the decimal exponent.  The digits printed are
    those of the integer itself, which is what ECMAScript prints whenever no
    shorter digit string denotes the same double (10^21 and 15 * 10^20, for
    instance). *)
Definition exponential (n : Z) : string :=
  let ds := decimal n in
  let e := decimal (Z.of_nat (String.length ds) - 1)%Z in
  match strip_trailing_zeros ds with
  | EmptyString => "0"
  | String c EmptyString => String c ("e+" ++ e)
  | String c r => String c ("." ++ r ++ "e+" ++ e)
  end.

Definition Number_toString (v : Z) : string :=
  let unsigned n := if (n <? 10 ^ 21)%Z then decimal n else exponential n in
  if (v <? 0)%Z then "-" ++ unsigned (- v)%Z else unsigned v.

End JsString.
Import JsString.

(* ================================================================== *)
(** * Amount in words (InvoiceTemplate.tsx) *)

Module Words.

Local Open Scope string_scope.

Definition a : list string :=
  [""; "One "; "Two "; "Three "; "Four "; "Five "; "Six "; "Seven ";
   "Eight "; "Nine "; "Ten "; "Eleven "; "Twelve "; "Thirteen ";
   "Fourteen "; "Fifteen "; "Sixteen "; "Seventeen "; "Eighteen ";
   "Nineteen "].

Definition b : list string :=
  [""; ""; "Twenty"; "Thirty"; "Forty"; "Fifty"; "Sixty"; "Seventy";
   "Eighty"; "Ninety"].

(** [tbl[Number(g[i])]] inside a string concatenation: a missing character
    or a missing entry prints as [undefined]. *)
Definition entry_at (tbl : list string) (g : string) (i : nat) : string :=
  match String.get i g with
  | Some c =>
      match nth_error tbl (Z.to_nat (digits_value (String c EmptyString))) with
      | Some w => w
      | None => "undefined"
      end
  | None => "undefined"
  end.

(** [a[Number(g)] || b[Number(g[0])] + ' ' + a[Number(g[1])]] *)
Definition group_words (g : string) : string :=
  match nth_error a (Z.to_nat (digits_value g)) with
  | Some (String c r) => String c r
  | _ => entry_at b g 0 ++ " " ++ entry_at a g 1
  end.

(** The match of [/^(\d{2})(\d{2})(\d{2})(\d{1})(\d{2})$/]: the five groups
    of a string of exactly nine digits. *)
Definition match_groups (s : string)
  : option (string * string * string * string * string) :=
  if ((String.length s =? 9)%nat && all_digits s)%bool
  then Some (substring 0 2 s, substring 2 2 s, substring 4 2 s,
             substring 6 1 s, substring 7 2 s)
  else None.

Definition inWords (inputNum : Z) : string :=
  let n := Number_toString inputNum in
  if (9 <? String.length n)%nat then "overflow" else
  match match_groups (slice_last 9 ("000000000" ++ n)) with
  | None => ""
  | Some (g1, g2, g3, g4, g5) =>
      let str := "" in
      let str := str ++ (if negb (digits_value g1 =? 0)%Z
                         then group_words g1 ++ "Crore " else "") in
      let str := str ++ (if negb (digits_value g2 =? 0)%Z
                         then group_words g2 ++ "Lakh " else "") in
      let str := str ++ (if negb (digits_value g3 =? 0)%Z
                         then group_words g3 ++ "Thousand " else "") in
      let str := str ++ (if negb (digits_value g4 =? 0)%Z
                         then group_words g4 ++ "Hundred " else "") in
      let str := str ++ (if negb (digits_value g5 =? 0)%Z
                         then (if negb (String.eqb str "") then "and " else "")
                              ++ group_words g5
                         else "") in
      str
  end.

Definition numberToWords (num : Z) : string :=
  if (num =? 0)%Z then "Zero" else inWords num ++ "Only".

(** [numberToWords(Math.round(totalAmount))] *)
Definition amountInWords (totalAmount : Q) : string :=
  numberToWords (Math_round_Z totalAmount).

End Words.

(* ================================================================== *)
(** * Cart manager (InvoiceGenerator) *)

Module Cart.

Local Open Scope string_scope.

(** The React state of the component. *)
Record State := mkState {
  billNo : string;
  date : string;
  selectedCustomer : option Customer;
  customerName : string;
  customerCity : string;
  items : list InvoiceItem;
  selectedProductID : string;
  qty : Q;
  isSaved : bool;
  isSaving : bool
}.

Definition setBillNo (v : string) (st : State) : State :=
  mkState v (date st) (selectedCustomer st) (customerName st) (customerCity st)
          (items st) (selectedProductID st) (qty st) (isSaved st) (isSaving st).
Definition setDate (v : string) (st : State) : State :=
  mkState (billNo st) v (selectedCustomer st) (customerName st) (customerCity st)
          (items st) (selectedProductID st) (qty st) (isSaved st) (isSaving st).
Definition setSelectedCustomer (v : option Customer) (st : State) : State :=
  mkState (billNo st) (date st) v (customerName st) (customerCity st)
          (items st) (selectedProductID st) (qty st) (isSaved st) (isSaving st).
Definition setCustomerName (v : string) (st : State) : State :=
  mkState (billNo st) (date st) (selectedCustomer st) v (customerCity st)
          (items st) (selectedProductID st) (qty st) (isSaved st) (isSaving st).
Definition setCustomerCity (v : string) (st : State) : State :=
  mkState (billNo st) (date st) (selectedCustomer st) (customerName st) v
          (items st) (selectedProductID st) (qty st) (isSaved st) (isSaving st).
Definition setItems (v : list InvoiceItem) (st : State) : State :=
  mkState (billNo st) (date st) (selectedCustomer st) (customerName st)
          (customerCity st) v (selectedProductID st) (qty st) (isSaved st)
          (isSaving st).
Definition setSelectedProductID (v : string) (st : State) : State :=
  mkState (billNo st) (date st) (selectedCustomer st) (customerName st)
          (customerCity st) (items st) v (qty st) (isSaved st) (isSaving st).
Definition setQty (v : Q) (st : State) : State :=
  mkState (billNo st) (date st) (selectedCustomer st) (customerName st)
          (customerCity st) (items st) (selectedProductID st) v (isSaved st)
          (isSaving st).
Definition setIsSaved (v : bool) (st : State) : State :=
  mkState (billNo st) (date st) (selectedCustomer st) (customerName st)
          (customerCity st) (items st) (selectedProductID st) (qty st) v
          (isSaving st).
Definition setIsSaving (v : bool) (st : State) : State :=
  mkState (billNo st) (date st) (selectedCustomer st) (customerName st)
          (customerCity st) (items st) (selectedProductID st) (qty st)
          (isSaved st) v.

(** The initial state: [useState(...)] of each field; [today] is
    [new Date().toLocaleDateString('en-GB')]. *)
Definition initial (settings : BusinessSettings) (today : string) : State :=
  mkState (Number_toString (nextInvoiceNumber settings)) today None "" ""
          [] "" 1 false false.

(** [arr.findIndex(f)]: the first index whose element satisfies [f], or -1. *)
Fixpoint findIndex {A : Type} (f : A -> bool) (l : list A) : Z :=
  match l with
  | [] => (-1)%Z
  | x :: r =>
      if f x then 0%Z
      else let k := findIndex f r in
           if (k <? 0)%Z then (-1)%Z else (k + 1)%Z
  end.

(** [arr[n] = v] on a copy, for an index inside the array. *)
Fixpoint set_nth {A : Type} (n : nat) (v : A) (l : list A) : list A :=
  match l, n with
  | [], _ => []
  | _ :: r, O => v :: r
  | x :: r, S k => x :: set_nth k v r
  end.

(** [{...item, quantity: newQty, amount: newQty * item.rate}] *)
Definition with_quantity (item : InvoiceItem) (newQty : Q) : InvoiceItem :=
  mkItem (item_id item) (item_productId item) (item_name item) newQty
         (item_unit item) (item_rate item) (newQty * item_rate item)
         (item_packing item).

(** [addItem]; [now] is [Date.now()]. *)
Definition addItem (products : list Product) (now : Z) (st : State) : State :=
  if String.eqb (selectedProductID st) "" then st else
  match find (fun p => String.eqb (product_id p) (selectedProductID st)) products with
  | None => st
  | Some product =>
      let existingIndex :=
        findIndex (fun item => String.eqb (item_productId item) (product_id product))
                  (items st) in
      let st1 :=
        if (-1 <? existingIndex)%Z then
          match nth_error (items st) (Z.to_nat existingIndex) with
          | Some existingItem =>
              let newQty := item_quantity existingItem + qty st in
              setItems (set_nth (Z.to_nat existingIndex)
                                (with_quantity existingItem newQty) (items st)) st
          | None => st
          end
        else
          let newItem :=
            mkItem (Number_toString now) (product_id product)
                   (product_name product) (qty st) (product_unit product)
                   (product_rate product) (qty st * product_rate product)
                   (product_packing product) in
          setItems (items st ++ [newItem])%list st in
      setIsSaved false (setQty 1 (setSelectedProductID "" st1))
  end.

(** [updateItemQty] *)
Definition updateItemQty (id : string) (delta : Q) (st : State) : State :=
  setItems
    (map (fun item =>
            if String.eqb (item_id item) id
            then with_quantity item (Math_max 1 (item_quantity item + delta))
            else item)
         (items st))
    (setIsSaved false st).

(** [removeItem] *)
Definition removeItem (id : string) (st : State) : State :=
  setItems (filter (fun item => negb (String.eqb (item_id item) id)) (items st))
           (setIsSaved false st).

(** [resetForm]; [today] is [new Date().toLocaleDateString('en-GB')]. *)
Definition resetForm (today : string) (st : State) : State :=
  setDate today
    (setIsSaved false
       (setCustomerCity ""
          (setCustomerName ""
             (setSelectedCustomer None
                (setItems [] st))))).

(** [handleCustomerSelect] *)
Definition handleCustomerSelect (customers : list Customer) (custId : string)
           (st : State) : State :=
  let st := setIsSaved false st in
  if String.eqb custId "new" then
    setCustomerCity "" (setCustomerName "" (setSelectedCustomer None st))
  else
    match find (fun c => String.eqb (customer_id c) custId) customers with
    | Some customer =>
        setCustomerCity (customer_city customer)
          (setCustomerName (customer_name customer)
             (setSelectedCustomer (Some customer) st))
    | None => st
    end.

(** The inline [onChange] handlers of the name and city inputs. *)
Definition changeCustomerName (v : string) (st : State) : State :=
  setIsSaved false (setCustomerName v st).
Definition changeCustomerCity (v : string) (st : State) : State :=
  setIsSaved false (setCustomerCity v st).

(** The invoice object built by [handleSave]. *)
Definition build_invoice (settings : BusinessSettings) (st : State) : Invoice :=
  mkInvoice (billNo st) (date st) (customerName st) (customerCity st) (items st)
            (Generator.grandTotal settings (items st))
            (Some (Generator.subtotal (items st)))
            (Some (Generator.totalTax settings (items st)))
            (Some (Generator.gstRate settings))
            (Some (Generator.sgstAmount settings (items st)))
            (Some (Generator.cgstAmount settings (items st))).

(** What [handleSave] does, statement by statement. *)
Inductive Cmd :=
| SetIsSaving (v : bool)
| SetIsSaved (v : bool)
| CallOnSaveInvoice (invoice : Invoice)
| Alert (msg : string).

(** [handleSave] up to its [await]. *)
Definition handleSave_begin (settings : BusinessSettings) (st : State) : list Cmd :=
  if (List.length (items st) =? 0)%nat
  then [Alert "Please add items to the bill before saving."]
  else [SetIsSaving true; SetIsSaved true;
        CallOnSaveInvoice (build_invoice settings st)].

(** [handleSave] after the awaited promise settles: the rest of the [try]
    block when it resolved, the [catch] block when it rejected, then the
    [finally] block. *)
Definition handleSave_settled (resolved : bool) : list Cmd :=
  if resolved
  then [Alert "Invoice saved to history successfully! You can now download or share it.";
        SetIsSaving false]
  else [SetIsSaved false; SetIsSaving false].

(** Running the statements in order.  The second component collects each
    persistence call that is issued, with the state pending at that
    moment. *)
Definition run_cmd (acc : State * list (Invoice * State)) (c : Cmd)
  : State * list (Invoice * State) :=
  let (st, calls) := acc in
  match c with
  | SetIsSaving v => (setIsSaving v st, calls)
  | SetIsSaved v => (setIsSaved v st, calls)
  | CallOnSaveInvoice invoice => (st, (calls ++ [(invoice, st)])%list)
  | Alert _ => (st, calls)
  end.

Definition run_cmds (cs : list Cmd) (st : State) : State * list (Invoice * State) :=
  fold_left run_cmd cs (st, []).

(** The first effect of the component: while the bill is not saved the bill
    number follows [settings.nextInvoiceNumber]. *)
Definition syncBillNo (settings : BusinessSettings) (st : State) : State :=
  if negb (isSaved st)
  then setBillNo (Number_toString (nextInvoiceNumber settings)) st
  else st.

(** The second effect: the unsaved-changes signal passed to the parent. *)
Definition hasChanges (st : State) : bool :=
  (negb (List.length (items st) =? 0)%nat
   || negb (String.eqb (trim (customerName st)) "")
   || negb (String.eqb (trim (customerCity st)) ""))
  && negb (isSaved st).

End Cart.

(* ================================================================== *)
(** * The mounted component: props, pending save, user events *)

Module Component.

Import Cart.
Local Open Scope string_scope.

(** The props of [InvoiceGenerator], its state, and the save that is
    waiting for the persistence layer: [App.handleSaveInvoice] keeps the
    settings of the render in which it was called. *)
Record World := mkWorld {
  settings : BusinessSettings;
  products : list Product;
  customers : list Customer;
  st : State;
  inflight : option BusinessSettings
}.

Definition with_st (w : World) (s : State) : World :=
  mkWorld (settings w) (products w) (customers w) s (inflight w).

(** [(n || 0) + 1] *)
Definition next_number (n : Z) : Z := ((if n =? 0 then 0 else n) + 1)%Z.

(** [App.handleSaveInvoice] with the outcome of writing the invoice
    document: on success the counter is advanced in the settings (the
    settings write itself never rejects, [handleUpdateSettings] catches);
    on failure the error is rethrown.  The result is the settings to show
    next, if they change, and whether the promise resolved. *)
Definition handleSaveInvoice (captured : BusinessSettings) (doc_ok : bool)
  : option BusinessSettings * bool :=
  if doc_ok
  then (Some (mkSettings (next_number (nextInvoiceNumber captured))
                         (enableGst captured) (defaultGstRate captured)),
        true)
  else (None, false).

(** What can happen to the mounted component. *)
Inductive Event :=
| ClickAddItem (now : Z)
| ClickQty (id : string) (delta : Q)
| ClickRemove (id : string)
| ChangeDate (v : string)
| SelectCustomer (custId : string)
| ChangeCustomerName (v : string)
| ChangeCustomerCity (v : string)
| SelectProduct (v : string)
| ChangeQty (v : Q)
| ClickNewBillTop (confirmed : bool) (today : string)
| ClickNewBill (today : string)
| ClickSave
| PersistSettled (doc_ok : bool)
| SettingsUpdate (s : BusinessSettings).

(** [disabled=...] of the Save button. *)
Definition save_disabled (s : State) : bool :=
  (List.length (items s) =? 0)%nat || isSaved s
  || String.eqb (trim (customerName s)) "" || isSaving s.

(** The handler behind each control.  Every editing control of the form
    carries [disabled={isSaved}], the second New Bill button is rendered
    only when [isSaved], the first one asks for confirmation when the cart
    has items. *)
Definition handle (w : World) (e : Event) : World :=
  let s := st w in
  match e with
  | ClickAddItem now =>
      if isSaved s then w else with_st w (addItem (products w) now s)
  | ClickQty id delta =>
      if isSaved s then w else with_st w (updateItemQty id delta s)
  | ClickRemove id =>
      if isSaved s then w else with_st w (removeItem id s)
  | ChangeDate v =>
      if isSaved s then w else with_st w (setDate v s)
  | SelectCustomer custId =>
      if isSaved s then w else with_st w (handleCustomerSelect (customers w) custId s)
  | ChangeCustomerName v =>
      if isSaved s then w else with_st w (changeCustomerName v s)
  | ChangeCustomerCity v =>
      if isSaved s then w else with_st w (changeCustomerCity v s)
  | SelectProduct v =>
      if isSaved s then w else with_st w (setSelectedProductID v s)
  | ChangeQty v =>
      if isSaved s then w else with_st w (setQty v s)
  | ClickNewBillTop confirmed today =>
      if (0 <? List.length (items s))%nat
      then (if confirmed then with_st w (resetForm today s) else w)
      else with_st w (resetForm today s)
  | ClickNewBill today =>
      if isSaved s then with_st w (resetForm today s) else w
  | ClickSave =>
      if save_disabled s then w else
      let (s', calls) := run_cmds (handleSave_begin (settings w) s) s in
      mkWorld (settings w) (products w) (customers w) s'
              (match calls with
               | [] => inflight w
               | _ :: _ => Some (settings w)
               end)
  | PersistSettled doc_ok =>
      match inflight w with
      | None => w
      | Some captured =>
          let (upd, resolved) := handleSaveInvoice captured doc_ok in
          mkWorld (match upd with Some s' => s' | None => settings w end)
                  (products w) (customers w)
                  (fst (run_cmds (handleSave_settled resolved) s))
                  None
      end
  | SettingsUpdate s' =>
      mkWorld s' (products w) (customers w) s (inflight w)
  end.

(** The bill-number effect runs after a render in which one of its
    dependencies, [settings.nextInvoiceNumber] or [isSaved], changed. *)
Definition deps_changed (w w' : World) : bool :=
  negb (nextInvoiceNumber (settings w) =? nextInvoiceNumber (settings w'))%Z
  || negb (Bool.eqb (isSaved (st w)) (isSaved (st w'))).

Definition run_effects (w w' : World) : World :=
  if deps_changed w w' then with_st w' (syncBillNo (settings w') (st w')) else w'.

(** One event, then the effects of the render it causes. *)
Definition dispatch (w : World) (e : Event) : World :=
  run_effects w (handle w e).

Definition dispatch_all (w : World) (es : list Event) : World :=
  fold_left dispatch es w.

Definition mount (settings : BusinessSettings) (products : list Product)
           (customers : list Customer) (today : string) : World :=
  mkWorld settings products customers (initial settings today) None.

(** The worlds the component can be in. *)
Inductive reachable : World -> Prop :=
| reach_mount settings products customers today :
    reachable (mount settings products customers today)
| reach_step w e : reachable w -> reachable (dispatch w e).

(** The events of the editing controls: add, quantity, remove, and the
    header fields. *)
Definition is_edit (e : Event) : bool :=
  match e with
  | ClickAddItem _ | ClickQty _ _ | ClickRemove _ | ChangeDate _
  | SelectCustomer _ | ChangeCustomerName _ | ChangeCustomerCity _
  | SelectProduct _ | ChangeQty _ => true
  | _ => false
  end.

(** The events that end a lock: a reset, or a save that failed. *)
Definition is_unlock (e : Event) : bool :=
  match e with
  | ClickNewBillTop _ _ | ClickNewBill _ | PersistSettled false => true
  | _ => false
  end.

End Component.

(* ================================================================== *)
(** * Weight summary (InvoiceTemplate.tsx, [totalWeightDisplay]) *)

Module Weight.

Local Open Scope string_scope.









End Weight.

(* ================================================================== *)
(** * Dates *)

Module JsDate.

Definition msPerDay : Z := 86400000.

Definition is_leap (y : Z) : bool :=
  ((y mod 4 =? 0) && negb (y mod 100 =? 0) || (y mod 400 =? 0))%Z.

(** [DayFromYear(y)]: the day number of 1 January of year [y]. *)
Definition DayFromYear (y : Z) : Z :=
  (365 * (y - 1970) + (y - 1969) / 4 - (y - 1901) / 100 + (y - 1601) / 400)%Z.

(** Days of the year before month [mn] (0 = January). *)
Definition days_before_month (leap : bool) (mn : Z) : Z :=
  (nth (Z.to_nat mn) [0; 31; 59; 90; 120; 151; 181; 212; 243; 273; 304; 334] 0
   + (if leap && (2 <=? mn) then 1 else 0))%Z.

(** [MakeDay(year, month, date)] on integers: months outside 0..11 carry
    into the year, days outside the month carry into the neighbouring
    months. *)
Definition MakeDay (year month date : Z) : Z :=
  let ym := (year + month / 12)%Z in
  let mn := (month mod 12)%Z in
  (DayFromYear ym + days_before_month (is_leap ym) mn + date - 1)%Z.

(** [TimeClip] *)
Definition TimeClip (t : Z) : option Z :=
  if (Z.abs t <=? 8640000000000000)%Z then Some t else None.

Section LocalTime.

(** The offset of local time from UTC in milliseconds, taken as constant
    (no daylight saving changes). *)
Variable LocalTZA : Z.

(** [new Date(year, monthIndex, day)] as a time value; [None] is an invalid
    date, which is what a [NaN] argument gives. *)
Definition Date_ymd (year monthIndex day : option Q) : option Z :=
  match year, monthIndex, day with
  | Some y, Some m, Some d =>
      let yi := Qtrunc y in
      let yr := if ((0 <=? yi) && (yi <=? 99))%Z then (1900 + yi)%Z else yi in
      TimeClip (MakeDay yr (Qtrunc m) (Qtrunc d) * msPerDay - LocalTZA)%Z
  | _, _, _ => None
  end.

(** [d.setHours(0, 0, 0, 0)]: midnight, local time, of the day of [d]. *)
Definition setHours0 (d : option Z) : option Z :=
  match d with
  | Some t => TimeClip (((t + LocalTZA) / msPerDay) * msPerDay - LocalTZA)%Z
  | None => None
  end.

End LocalTime.

(** [a < b] on two dates: false when either is invalid. *)
Definition date_lt (a b : option Z) : bool :=
  match a, b with
  | Some x, Some y => (x <? y)%Z
  | _, _ => false
  end.

End JsDate.

(* ================================================================== *)
(** * Invoice history (filter, sort, CSV export) *)

Module History.

Import JsDate.
Local Open Scope string_scope.

Definition is_hex_digit (c : ascii) : bool :=
  let n := nat_of_ascii c in
  (is_digit c || ((65 <=? n) && (n <=? 70)) || ((97 <=? n) && (n <=? 102)))%nat.

Definition hex_value (c : ascii) : Z :=
  let n := Z.of_nat (nat_of_ascii c) in
  if is_digit c then (n - 48)%Z
  else if (n <=? 70)%Z then (n - 55)%Z else (n - 87)%Z.

(** The longest prefix of radix-[radix] digits and its value. *)
Fixpoint radix_prefix (radix : Z) (ok : ascii -> bool) (s : string)
         (seen : bool) (acc : Z) : option Z :=
  match s with
  | String c r =>
      if ok c then radix_prefix radix ok r true (radix * acc + hex_value c)%Z
      else if seen then Some acc else None
  | EmptyString => if seen then Some acc else None
  end.

(** [parseInt(s)]: leading white space and a sign are skipped, [0x] selects
    radix 16, the longest prefix of digits is read; [None] is [NaN]. *)
Definition parseInt (s : string) : option Z :=
  let s := trimStart s in
  let (sign, s) :=
    match s with
    | String "-"%char r => ((-1)%Z, r)
    | String "+"%char r => (1%Z, r)
    | _ => (1%Z, s)
    end in
  let magnitude :=
    match s with
    | String "0"%char (String "x"%char r) => radix_prefix 16 is_hex_digit r false 0
    | String "0"%char (String "X"%char r) => radix_prefix 16 is_hex_digit r false 0
    | _ => radix_prefix 10 is_digit s false 0
    end in
  match magnitude with
  | Some v => Some (sign * v)%Z
  | None => None
  end.

(** The comparator [(a, b) => parseInt(b.id) - parseInt(a.id)]. *)
Definition compare_ids (a b : Invoice) : option Z :=
  match parseInt (inv_id b), parseInt (inv_id a) with
  | Some x, Some y => Some (x - y)%Z
  | _, _ => None
  end.

(** [Array.prototype.sort(comparefn)].  The sort is stable, and a [NaN]
    from the comparator counts as 0; for a comparator that is a consistent
    ordering there is one stable arrangement, which this insertion sort
    returns. *)
Fixpoint insert_by (cmp : Invoice -> Invoice -> option Z) (x : Invoice)
         (sorted : list Invoice) : list Invoice :=
  match sorted with
  | [] => [x]
  | y :: r =>
      let v := match cmp x y with Some v => v | None => 0%Z end in
      if (0 <? v)%Z then y :: insert_by cmp x r else x :: y :: r
  end.

Definition sort_by (cmp : Invoice -> Invoice -> option Z) (l : list Invoice)
  : list Invoice :=
  fold_right (insert_by cmp) [] l.

Section Platform.

(** Local time offset, [Number(string)] ([None] is [NaN]) and
    [new Date(string)] ([None] is an invalid date) of the platform. *)
Variable LocalTZA : Z.
Variable Number_of_string : string -> option Q.
Variable Date_parse : string -> option Z.

Definition matchesSearch (searchTerm : string) (invoice : Invoice) : bool :=
  includes (toLowerCase (inv_customerName invoice)) (toLowerCase searchTerm)
  || includes (toLowerCase (inv_id invoice)) (toLowerCase searchTerm).

(** [Number(month) - 1] *)
Definition minus_one (x : option Q) : option Q :=
  match x with Some q => Some (q - 1) | None => None end.

Definition matchesDate (startDate endDate : string) (invoice : Invoice) : bool :=
  let matchesDate := true in
  if negb (String.eqb startDate "") || negb (String.eqb endDate "") then
    match split_on "/"%char (inv_date invoice) with
    | [day; month; year] =>
        let invDate :=
          setHours0 LocalTZA
            (Date_ymd LocalTZA (Number_of_string year)
                      (minus_one (Number_of_string month))
                      (Number_of_string day)) in
        let matchesDate :=
          if negb (String.eqb startDate "") then
            let start := setHours0 LocalTZA (Date_parse startDate) in
            if date_lt invDate start then false else matchesDate
          else matchesDate in
        let matchesDate :=
          if negb (String.eqb endDate "") then
            let end_ := setHours0 LocalTZA (Date_parse endDate) in
            if date_lt end_ invDate then false else matchesDate
          else matchesDate in
        matchesDate
    | _ => matchesDate
    end
  else matchesDate.

Definition filteredInvoices (invoices : list Invoice)
           (searchTerm startDate endDate : string) : list Invoice :=
  sort_by compare_ids
    (filter (fun invoice =>
               matchesSearch searchTerm invoice
               && matchesDate startDate endDate invoice)
            invoices).

(** [Number.prototype.toString] on a number that is not an integer. *)
Variable fraction_toString : Q -> string.

Definition Number_toString_Q (q : Q) : string :=
  if Qeq_bool q (inject_Z (Qfloor q))
  then Number_toString (Qfloor q)
  else fraction_toString q.

Definition headers : list string :=
  ["Bill No"; "Date"; "Customer Name"; "City"; "Items"; "Total Amount"].

Definition newline : string := String "010"%char EmptyString.

(** A field between quotes, its own quotes doubled. *)
Definition quoted (s : string) : string :=
  String dquote (double_quotes s ++ String dquote EmptyString).

Definition item_text (item : InvoiceItem) : string :=
  item_name item
  ++ (match item_packing item with
      | Some packing => if String.eqb packing "" then "" else " " ++ packing
      | None => ""
      end)
  ++ " (" ++ Number_toString_Q (item_quantity item) ++ " " ++ item_unit item ++ ")".

Definition itemsString (inv : Invoice) : string :=
  join ", " (map item_text (inv_items inv)).

Definition csv_row (inv : Invoice) : string :=
  join "," [inv_id inv; inv_date inv; quoted (inv_customerName inv);
            quoted (inv_customerCity inv); quoted (itemsString inv);
            Number_toString_Q (inv_total inv)].

(** [handleExportCSV]: the text of the exported file, or nothing when the
    filtered list is empty. *)
Definition handleExportCSV (filteredInvoices : list Invoice) : option string :=
  if (List.length filteredInvoices =? 0)%nat then None
  else Some (join newline (join "," headers :: map csv_row filteredInvoices)).

End Platform.

End History.

(* ================================================================== *)
(** * File names, preview scale, theme colour, summary cell *)

Module Files.

Local Open Scope string_scope.

(** A character the class [[a-z0-9]] matches when case is ignored. *)
Definition is_alnum (c : ascii) : bool :=
  let n := nat_of_ascii c in
  (is_digit c || ((65 <=? n) && (n <=? 90)) || ((97 <=? n) && (n <=? 122)))%nat.

(** [s.replace(/[^a-z0-9]/gi, '_')] *)
Fixpoint replace_non_alnum (s : string) : string :=
  match s with
  | EmptyString => EmptyString
  | String c r =>
      String (if is_alnum c then c else "_"%char) (replace_non_alnum r)
  end.

(** [fileName] in [getInvoiceFile] of InvoiceGenerator. *)
Definition fileName (billNo customerName : string) : string :=
  "Invoice_" ++ billNo ++ "_" ++ replace_non_alnum customerName ++ ".pdf".

(** [document.title] as set by [handlePrint] of InvoiceHistory. *)
Definition print_title (viewingInvoice : Invoice) : string :=
  "Invoice_" ++ inv_id viewingInvoice ++ "_"
  ++ replace_non_alnum (inv_customerName viewingInvoice).

End Files.

Module Scale.



End Scale.

Module Theme.

Import History.
Local Open Scope string_scope.

(** [hex[i]] inside a string concatenation. *)
Definition char_at (hex : string) (i : nat) : string :=
  match String.get i hex with
  | Some c => String c EmptyString
  | None => "undefined"
  end.

(** The three numbers [r], [g], [b] of [hexToRgba]; [None] is [NaN]. *)
Definition hexToRgba_channels (hex : string) : option Z * option Z * option Z :=
  if (String.length hex =? 4)%nat then
    (parseInt ("0x" ++ char_at hex 1 ++ char_at hex 1),
     parseInt ("0x" ++ char_at hex 2 ++ char_at hex 2),
     parseInt ("0x" ++ char_at hex 3 ++ char_at hex 3))
  else if (String.length hex =? 7)%nat then
    (parseInt ("0x" ++ char_at hex 1 ++ char_at hex 2),
     parseInt ("0x" ++ char_at hex 3 ++ char_at hex 4),
     parseInt ("0x" ++ char_at hex 5 ++ char_at hex 6))
  else (Some 0%Z, Some 0%Z, Some 0%Z).

Definition show_number (v : option Z) : string :=
  match v with
  | Some z => Number_toString z
  | None => "NaN"
  end.

(** [hexToRgba(hex, alpha)]; [alpha] is the text the number prints as. *)
Definition hexToRgba (hex alpha : string) : string :=
  let '(r, g, b) := hexToRgba_channels hex in
  "rgba(" ++ show_number r ++ "," ++ show_number g ++ "," ++ show_number b
  ++ "," ++ alpha ++ ")".

End Theme.

Module Summary.

Import Weight.
Local Open Scope string_scope.






End Summary.

(* ================================================================== *)
(** * Navigation guard (App.tsx, [handleTabChange]) *)

Module Navigation.

(** [enum AppTab] of types.ts. *)
Inductive AppTab :=
| DASHBOARD
| CREATE_BILL
| PRODUCTS
| CUSTOMERS
| SETTINGS
| INVOICE_HISTORY
| ANALYTICS.

Definition AppTab_eqb (a b : AppTab) : bool :=
  match a, b with
  | DASHBOARD, DASHBOARD | CREATE_BILL, CREATE_BILL | PRODUCTS, PRODUCTS
  | CUSTOMERS, CUSTOMERS | SETTINGS, SETTINGS
  | INVOICE_HISTORY, INVOICE_HISTORY | ANALYTICS, ANALYTICS => true
  | _, _ => false
  end.

(** The two pieces of [App] state the guard reads and writes. *)
Record Nav := mkNav {
  activeTab : AppTab;
  hasUnsavedChanges : bool
}.

(** [handleTabChange(tab)]; [confirmed] is what [window.confirm] returns if
    it is asked.  The second component tells whether it was asked. *)
Definition handleTabChange (tab : AppTab) (confirmed : bool) (nav : Nav)
  : Nav * bool :=
  if AppTab_eqb (activeTab nav) CREATE_BILL && hasUnsavedChanges nav
     && negb (AppTab_eqb tab CREATE_BILL)
  then
    if negb confirmed then (nav, true)
    else (mkNav tab false, true)
  else (mkNav tab (hasUnsavedChanges nav), false).

(** [onUnsavedChanges] as [App] passes it: the flag is what the form
    reported last. *)
Definition onUnsavedChanges (hasChanges : bool) (nav : Nav) : Nav :=
  mkNav (activeTab nav) hasChanges.

End Navigation.

(* ================================================================== *)
(** * Analytics (AnalyticsDashboard.tsx) *)

Module Analytics.

Local Open Scope string_scope.
























(** [SimpleBarChart]: [Math.max(...data.map(d => d.revenue))] for a [data]
    that is not empty, and the height of a bar. *)
Definition maxVal (data : list (string * Q)) : option Q :=
  match data with
  | [] => None
  | d :: r => Some (fold_left Qmax (map snd r) (snd d))
  end.

Definition heightPercent (maxVal revenue : Q) : Q :=
  if Qle_bool maxVal 0 then 0 else revenue / maxVal * 100.

End Analytics.

(* ================================================================== *)
(** * Specification predicates *)

Import Cart.




Import Component.

(** The part of the cart that the user sees as the bill: the lines and the
    header. *)
Definition same_bill (s s' : State) : Prop :=
  items s' = items s /\ billNo s' = billNo s /\ date s' = date s
  /\ customerName s' = customerName s /\ customerCity s' = customerCity s.

(** While the bill is not saved its number is the counter of the settings. *)
Definition synced (w : World) : Prop :=
  isSaved (st w) = false ->
  billNo (st w) = Number_toString (nextInvoiceNumber (settings w)).

Import Weight.






Import JsDate History.

(** The numeric value of a bill id (0 when it has none). *)
Definition id_number (inv : Invoice) : Z :=
  match parseInt (inv_id inv) with
  | Some v => v
  | None => 0%Z
  end.

Definition numeric_id (inv : Invoice) : Prop := parseInt (inv_id inv) <> None.

(** Descending order of bill numbers. *)
Definition id_desc (a b : Invoice) : Prop := (id_number b <= id_number a)%Z.



(** Calendar dates. *)
Definition days_in_month (y m : Z) : Z :=
  if (m =? 2)%Z then (if is_leap y then 29 else 28)%Z
  else if ((m =? 4) || (m =? 6) || (m =? 9) || (m =? 11))%Z then 30%Z
  else 31%Z.

Definition valid_civil (y m d : Z) : Prop :=
  (100 <= y <= 9999 /\ 1 <= m <= 12 /\ 1 <= d <= days_in_month y m)%Z.

(** [a] is the same day as [b] or an earlier one. *)
Definition civil_le (a b : Z * Z * Z) : Prop :=
  let '(y, m, d) := a in
  let '(y', m', d') := b in
  (y < y' \/ (y = y' /\ (m < m' \/ (m = m' /\ d <= d'))))%Z.

(** The platform's [Number] reads the string [s] as the integer [z]. *)
Definition reads_as (Number_of_string : string -> option Q) (s : string) (z : Z)
  : Prop :=
  exists q : Q, Number_of_string s = Some q /\ q == inject_Z z.

(** A bound of the date filter: the empty string is no bound; otherwise the
    platform's [new Date(s)] is midnight UTC of the calendar day the bound
    names, as it is for the [YYYY-MM-DD] strings of a date input. *)
Definition bound_denotes (Date_parse : string -> option Z) (s : string)
           (b : option (Z * Z * Z)) : Prop :=
  match b with
  | None => s = ""%string
  | Some (y, m, d) =>
      s <> ""%string /\ valid_civil y m d
      /\ Date_parse s = Some (MakeDay y (m - 1) d * msPerDay)%Z
  end.

Definition on_or_after (b : option (Z * Z * Z)) (day : Z * Z * Z) : Prop :=
  match b with Some a => civil_le a day | None => True end.

Definition on_or_before (b : option (Z * Z * Z)) (day : Z * Z * Z) : Prop :=
  match b with Some a => civil_le day a | None => True end.

(** A string that does not start with a character of the given kind. *)
Definition starts_without (kind : ascii -> bool) (s : string) : Prop :=
  match s with
  | EmptyString => True
  | String c _ => kind c = false
  end.

(** [c] occurs in [s]. *)
Fixpoint has_char (c : ascii) (s : string) : bool :=
  match s with
  | EmptyString => false
  | String x r => Ascii.eqb x c || has_char c r
  end.

(** Reading a quoted CSV field back: a doubled quote stands for one quote. *)
Fixpoint undouble (s : string) : string :=
  match s with
  | EmptyString => EmptyString
  | String c r =>
      match r with
      | String c' r' =>
          if Ascii.eqb c dquote && Ascii.eqb c' dquote
          then String dquote (undouble r')
          else String c (undouble r)
      | EmptyString => String c EmptyString
      end
  end.

(** The lines of a text. *)
Definition lines (text : string) : list string := split_on "010"%char text.

Definition header_line : string :=
  "Bill No,Date,Customer Name,City,Items,Total Amount"%string.




(** ** Reading comma-separated text back

    A reader in the manner of RFC 4180: a field that opens with a quote
    runs to its closing quote, a doubled quote inside it standing for one
    quote; any other field runs to the next comma or line feed; a line feed
    outside quotes ends the record.  What has been read is kept as the
    field being read, the later fields of its record, and the later
    records. *)
Definition CsvText : Type := (string * list string * list (list string))%type.

Definition csv_push (c : ascii) (t : CsvText) : CsvText :=
  let '(f, fs, rs) := t in (String c f, fs, rs).

Definition csv_pushes (p : string) (t : CsvText) : CsvText :=
  let '(f, fs, rs) := t in ((p ++ f)%string, fs, rs).

Definition csv_new_field (t : CsvText) : CsvText :=
  let '(f, fs, rs) := t in (EmptyString, f :: fs, rs).

Definition csv_new_record (t : CsvText) : CsvText :=
  let '(f, fs, rs) := t in (EmptyString, [], (f :: fs) :: rs).

Fixpoint csv_read (in_quotes : bool) (s : string) : CsvText :=
  match s with
  | EmptyString => (EmptyString, [], [])
  | String c r =>
      if in_quotes then
        if Ascii.eqb c dquote then
          match r with
          | String c' r' =>
              if Ascii.eqb c' dquote then csv_push dquote (csv_read true r')
              else csv_read false r
          | EmptyString => csv_read false r
          end
        else csv_push c (csv_read true r)
      else
        if Ascii.eqb c dquote then csv_read true r
        else if Ascii.eqb c ","%char then csv_new_field (csv_read false r)
        else if Ascii.eqb c "010"%char then csv_new_record (csv_read false r)
        else csv_push c (csv_read false r)
  end.

(** The records of a text, each a list of fields. *)
Definition csv_records (text : string) : list (list string) :=
  let '(f, fs, rs) := csv_read false text in (f :: fs) :: rs.

(** A field that can stand without quotes: no comma, no quote, no line
    feed. *)
Definition csv_plain (s : string) : bool :=
  negb (has_char ","%char s) && negb (has_char dquote s)
  && negb (has_char "010"%char s).

(** [enc] is a way to write the field [raw]: as it is when it is plain, or
    between quotes. *)
Definition csv_field_ok (raw enc : string) : Prop :=
  (enc = raw /\ csv_plain raw = true) \/ enc = quoted raw.

(** What follows a record: nothing, or a line feed and more records. *)
Definition csv_rest_ok (rest : string) : Prop :=
  rest = EmptyString \/ exists more : string, rest = String "010"%char more.

Definition csv_following (rest : string) : list (list string) :=
  match rest with
  | EmptyString => []
  | String _ more => csv_records more
  end.

(** The six fields of an invoice's row. *)
Definition row_fields (fraction_toString : Q -> string) (inv : Invoice)
  : list string :=
  [inv_id inv; inv_date inv; inv_customerName inv; inv_customerCity inv;
   itemsString fraction_toString inv;
   Number_toString_Q fraction_toString (inv_total inv)].

(** Every character of [s] satisfies [p]. *)
Fixpoint all_chars (p : ascii -> bool) (s : string) : bool :=
  match s with
  | EmptyString => true
  | String c r => p c && all_chars p r
  end.

(** The characters of a safe file name: letters, digits, underscore, and
    the point of the extension. *)
Definition name_char (c : ascii) : bool :=
  Files.is_alnum c || Ascii.eqb c "_"%char || Ascii.eqb c "."%char.

(** ** Amounts in words, by arithmetic

    The words of a number below 100, as the two tables give them. *)
Definition words_below_100 (k : Z) : string :=
  match nth_error Words.a (Z.to_nat k) with
  | Some (String c r) => String c r
  | _ =>
      (nth (Z.to_nat (k / 10)) Words.b "" ++ " "
       ++ nth (Z.to_nat (k mod 10)) Words.a "")%string
  end.

(** A group of the Indian numbering system with its name, nothing when the
    group is zero. *)
Definition group_text (k : Z) (name : string) : string :=
  if (k =? 0)%Z then ""%string else (words_below_100 k ++ name)%string.

(** The words of a number below 10^9: crores (10^7), lakhs (10^5),
    thousands, hundreds, and the last two digits after [and]. *)
Definition indian_words (n : Z) : string :=
  let high :=
    (((group_text (n / 10000000) "Crore "
       ++ group_text (n / 100000 mod 100) "Lakh ")
      ++ group_text (n / 1000 mod 100) "Thousand ")
     ++ group_text (n / 100 mod 10) "Hundred ")%string in
  (high ++ (if (n mod 100 =? 0)%Z then ""
            else (if String.eqb high "" then "" else "and ")
                 ++ words_below_100 (n mod 100)))%string.

(** The value of a decimal digit character. *)
Definition digit_of (c : ascii) : Z := (Z.of_nat (nat_of_ascii c) - 48)%Z.

(** The times at which the Add button was pressed. *)
Definition add_times (es : list Event) : list Z :=
  flat_map (fun e => match e with ClickAddItem now => [now] | _ => [] end) es.

(** ** Analytics *)





Fixpoint sum_values (m : list (string * Q)) : Q :=
  match m with
  | [] => 0
  | e :: r => snd e + sum_values r
  end.




(* ================================================================== *)
(** * Sample data *)

Module Sample.

Local Open Scope string_scope.

Definition rice : Product := mkProduct "p1" "Rice" 50 "Kg" (Some "1 kg").
Definition dal : Product := mkProduct "p2" "Dal" 120 "Kg" (Some "500 gm").
Definition catalog : list Product := [rice; dal].

Definition shop : BusinessSettings := mkSettings 7 true (Some 5).

Definition line_rice : InvoiceItem :=
  mkItem "1" "p1" "Rice" 2 "Kg" 50 100 (Some "1 kg").
Definition line_dal : InvoiceItem :=
  mkItem "2" "p2" "Dal" 1 "Kg" 120 120 (Some "500 gm").
Definition cart_items : list InvoiceItem := [line_rice; line_dal].

(** A bill being composed: mount, pick rice twice over, pick dal, name the
    customer. *)
Definition composing : list Event :=
  [SelectProduct "p1"; ChangeQty 2; ClickAddItem 1;
   SelectProduct "p2"; ClickAddItem 2; ChangeCustomerName "Asha"].

Definition ready : World :=
  dispatch_all (mount shop catalog [] "03/11/2026") composing.

(** A cart with rice selected and 3 more to add. *)
Definition adding_rice : State :=
  mkState "7" "03/11/2026" None "Asha" "" cart_items "p1" 3 false false.

(** Stand-ins for the platform on the strings used below: [Number] on digit
    strings, [new Date] on [YYYY-MM-DD], Indian Standard Time. *)
Definition number_digits (s : string) : option Q :=
  if all_digits s && negb (String.eqb s "")
  then Some (inject_Z (digits_value s)) else None.

Definition parse_iso (s : string) : option Z :=
  match split_on "-"%char s with
  | [y; m; d] =>
      if all_digits y && all_digits m && all_digits d
      then Some (MakeDay (digits_value y) (digits_value m - 1) (digits_value d)
                 * msPerDay)%Z
      else None
  | _ => None
  end.

Definition IST : Z := 19800000.

Definition no_fraction (q : Q) : string := "".

Definition inv9 : Invoice :=
  mkInvoice "9" "05/03/2024" "Asha" "Pune" [line_rice] 100 None None None None None.
Definition inv10 : Invoice :=
  mkInvoice "10" "16/03/2024" "Ravi" "Surat" [line_dal] 120 None None None None None.
Definition inv11 : Invoice :=
  mkInvoice "11" "yesterday" "Asha Traders" "Pune" cart_items 220
            None None None None None.
Definition history : list Invoice := [inv9; inv10; inv11].

(** One line of 10^21 units at 1 a piece, in a shop without tax. *)
Definition line_bulk : InvoiceItem :=
  mkItem "3" "p3" "Sand" (inject_Z (10 ^ 21)) "Gm" 1 (inject_Z (10 ^ 21)) None.
Definition shop_no_gst : BusinessSettings := mkSettings 7 false None.

(** A customer name with a line feed in it. *)
Definition inv_two_lines : Invoice :=
  mkInvoice "12" "17/03/2024" (String "A" (String "010" "B")) "Pune" [] 0
            None None None None None.

End Sample.

(* ================================================================== *)
(** * Properties *)

(* ------------------------------------------------------------------ *)
(** ** Rounding to binary64 *)

Module Binary64Facts.

Import Binary64.

Lemma pow2_pos (e : Z) : 0 < pow2 e.
Proof. apply Qpower_0_lt. reflexivity. Qed.

Lemma pow2_add (a b : Z) : pow2 (a + b) == pow2 a * pow2 b.
Proof. apply Qpower_plus. discriminate. Qed.

Lemma pow2_Z (n : Z) : (0 <= n)%Z -> pow2 n == inject_Z (2 ^ n).
Proof. intros H. unfold pow2. rewrite Zpower_Qpower by exact H. reflexivity. Qed.

Lemma pow2_lt (a b : Z) : (a < b)%Z -> pow2 a < pow2 b.
Proof. intros H. apply Qpower_lt_compat_l; [exact H|reflexivity]. Qed.

Lemma pow2_le (a b : Z) : (a <= b)%Z -> pow2 a <= pow2 b.
Proof. intros H. apply Qpower_le_compat_l; [exact H|discriminate]. Qed.

Lemma pow2_lt_inv (a b : Z) : pow2 a < pow2 b -> (a < b)%Z.
Proof. intros H. apply (Qpower_lt_compat_l_inv 2); [exact H|reflexivity]. Qed.

Lemma Q_as_div (x : Q) : x == inject_Z (Qnum x) / inject_Z (Zpos (Qden x)).
Proof. destruct x as [a b]. cbn [Qnum Qden]. apply Qmake_Qdiv. Qed.

Lemma ilog2_spec (x : Q) :
  0 < x -> pow2 (ilog2 x) <= x /\ x < pow2 (ilog2 x + 1).
Proof.
  intros Hx.
  assert (Ha : (0 < Qnum x)%Z).
  { destruct x as [a b]. unfold Qlt in Hx. cbn in *. lia. }
  pose proof (Z.log2_spec _ Ha) as [Ha1 Ha2].
  pose proof (Z.log2_spec (Zpos (Qden x)) (Pos2Z.is_pos _)) as [Hb1 Hb2].
  pose proof (Z.log2_nonneg (Qnum x)) as Hla.
  pose proof (Z.log2_nonneg (Zpos (Qden x))) as Hlb.
  set (la := Z.log2 (Qnum x)) in *. set (lb := Z.log2 (Zpos (Qden x))) in *.
  assert (Hb : 0 < inject_Z (Zpos (Qden x))) by reflexivity.
  assert (Ha1q : pow2 la <= inject_Z (Qnum x)).
  { rewrite pow2_Z by exact Hla. rewrite <- Zle_Qle. exact Ha1. }
  assert (Ha2q : inject_Z (Qnum x) < pow2 (la + 1)).
  { rewrite pow2_Z by lia. rewrite <- Zlt_Qlt. exact Ha2. }
  assert (Hb1q : pow2 lb <= inject_Z (Zpos (Qden x))).
  { rewrite pow2_Z by exact Hlb. rewrite <- Zle_Qle. exact Hb1. }
  assert (Hb2q : inject_Z (Zpos (Qden x)) < pow2 (lb + 1)).
  { rewrite pow2_Z by lia. rewrite <- Zlt_Qlt. exact Hb2. }
  unfold ilog2. fold la lb.
  destruct (Qle_bool (pow2 (la - lb)) x) eqn:E.
  - split; [apply Qle_bool_iff; exact E|].
    rewrite (Q_as_div x) at 1.
    apply Qlt_shift_div_r; [exact Hb|].
    apply Qlt_le_trans with (pow2 (la + 1)); [exact Ha2q|].
    replace (la + 1)%Z with ((la - lb + 1) + lb)%Z by ring.
    rewrite pow2_add.
    apply Qmult_le_l; [apply pow2_pos|exact Hb1q].
  - split.
    + rewrite (Q_as_div x).
      apply Qle_shift_div_l; [exact Hb|].
      apply Qle_trans with (pow2 la); [|exact Ha1q].
      replace la with ((la - lb - 1) + (lb + 1))%Z at 2 by ring.
      rewrite pow2_add.
      apply Qmult_le_l; [apply pow2_pos|apply Qlt_le_weak; exact Hb2q].
    + replace (la - lb - 1 + 1)%Z with (la - lb)%Z by ring.
      apply Qnot_le_lt. intros H. apply Qle_bool_iff in H. congruence.
Qed.

Lemma ilog2_unique (x : Q) (e : Z) :
  pow2 e <= x -> x < pow2 (e + 1) -> ilog2 x = e.
Proof.
  intros Hlo Hhi.
  assert (Hx : 0 < x) by (apply Qlt_le_trans with (pow2 e); [apply pow2_pos|exact Hlo]).
  destruct (ilog2_spec x Hx) as [Hl Hh].
  assert (H1 : (e < ilog2 x + 1)%Z).
  { apply pow2_lt_inv. apply Qle_lt_trans with x; assumption. }
  assert (H2 : (ilog2 x < e + 1)%Z).
  { apply pow2_lt_inv. apply Qle_lt_trans with x; assumption. }
  lia.
Qed.

Lemma ilog2_Qeq (x y : Q) : 0 < x -> x == y -> ilog2 x = ilog2 y.
Proof.
  intros Hx H. destruct (ilog2_spec x Hx) as [Hl Hh].
  symmetry. apply ilog2_unique; rewrite <- H; assumption.
Qed.

Lemma round_half_even_Qeq (x y : Q) :
  x == y -> round_half_even x = round_half_even y.
Proof.
  intros H. unfold round_half_even.
  assert (Hf : Qfloor x = Qfloor y).
  { apply Z.le_antisymm; apply Qfloor_resp_le; rewrite H; apply Qle_refl. }
  rewrite Hf.
  assert (Hc : Qcompare (x - inject_Z (Qfloor y)) (1 # 2)
               = Qcompare (y - inject_Z (Qfloor y)) (1 # 2)).
  { rewrite H. reflexivity. }
  rewrite Hc. reflexivity.
Qed.

Lemma round_half_even_Z (k : Z) : round_half_even (inject_Z k) = k.
Proof.
  unfold round_half_even. rewrite Qfloor_Z.
  assert (H : inject_Z k - inject_Z k < 1 # 2).
  { setoid_replace (inject_Z k - inject_Z k) with 0 by ring. reflexivity. }
  apply Qlt_alt in H.
  change (Qcompare (inject_Z k - inject_Z k) (1 # 2) = Lt) in H.
  rewrite H. reflexivity.
Qed.

Lemma round_half_even_bounds (x : Q) (N : Z) :
  0 <= x -> x <= inject_Z N ->
  (0 <= round_half_even x <= N)%Z.
Proof.
  intros H0 HN.
  assert (Hf0 : (0 <= Qfloor x)%Z).
  { change 0%Z with (Qfloor 0). apply Qfloor_resp_le. exact H0. }
  assert (HfN : (Qfloor x <= N)%Z).
  { rewrite <- (Qfloor_Z N). apply Qfloor_resp_le. exact HN. }
  unfold round_half_even.
  destruct (Z.eq_dec (Qfloor x) N) as [E|E].
  - assert (Hlt : x - inject_Z (Qfloor x) < 1 # 2).
    { rewrite E. apply Qle_lt_trans with 0; [|reflexivity].
      lra. }
    apply Qlt_alt in Hlt.
    change (Qcompare (x - inject_Z (Qfloor x)) (1 # 2) = Lt) in Hlt.
    rewrite Hlt. lia.
  - destruct (Qcompare (x - inject_Z (Qfloor x)) (1 # 2)); [destruct (Z.even _)| |]; lia.
Qed.

(** A positive number [n * 2^k] with at most 53 significant bits, above the
    subnormal floor, is a double: rounding leaves it alone. *)
Lemma rnd_pos_exact (x : Q) (n k : Z) :
  (0 < n <= 2 ^ 53)%Z -> (-1074 <= k)%Z -> x == inject_Z n * pow2 k ->
  rnd_pos x == x.
Proof.
  intros Hn Hk Hx.
  assert (Hnq : 0 < inject_Z n).
  { change 0 with (inject_Z 0). rewrite <- Zlt_Qlt. lia. }
  assert (Hpos : 0 < x).
  { rewrite Hx. apply Qmult_lt_0_compat; [exact Hnq|apply pow2_pos]. }
  unfold rnd_pos.
  set (e := Z.max (ilog2 x) emin).
  assert (Hd : (-1 <= k - e + 52)%Z /\ ((k - e + 52 = -1)%Z -> n = (2 ^ 53)%Z)).
  { destruct (ilog2_spec x Hpos) as [Hl Hh].
    assert (Hle : x <= pow2 (53 + k)).
    { rewrite Hx, pow2_add. apply Qmult_le_compat_r; [|apply Qlt_le_weak, pow2_pos].
      rewrite pow2_Z by lia. rewrite <- Zle_Qle. lia. }
    assert (H1 : (ilog2 x < 53 + k + 1)%Z).
    { apply pow2_lt_inv. apply Qle_lt_trans with x; [exact Hl|].
      apply Qle_lt_trans with (pow2 (53 + k)); [exact Hle|apply pow2_lt; lia]. }
    unfold emin in e. split; [lia|].
    intros Heq.
    assert (He : ilog2 x = (53 + k)%Z) by lia.
    rewrite He in Hl. rewrite Hx, pow2_add in Hl.
    apply Qmult_le_r in Hl; [|apply pow2_pos].
    rewrite pow2_Z in Hl by lia. rewrite <- Zle_Qle in Hl. lia. }
  destruct Hd as [Hd1 Hd2].
  assert (Hm : exists m : Z, x / pow2 (e - 52) == inject_Z m).
  { destruct (Z_le_gt_dec 0 (k - e + 52)) as [Hge|Hlt].
    - exists (n * 2 ^ (k - e + 52))%Z.
      rewrite inject_Z_mult, <- pow2_Z by exact Hge.
      rewrite Hx. replace k with ((k - e + 52) + (e - 52))%Z at 1 by ring.
      rewrite pow2_add. field.
      apply Qnot_eq_sym, Qlt_not_eq, pow2_pos.
    - assert (Heq : (k - e + 52 = -1)%Z) by lia.
      specialize (Hd2 Heq). subst n.
      exists (2 ^ 52)%Z.
      rewrite Hx. replace k with ((-1) + (e - 52))%Z at 1 by lia.
      rewrite pow2_add.
      setoid_replace (inject_Z (2 ^ 53) * (pow2 (-1) * pow2 (e - 52)) / pow2 (e - 52))
        with (inject_Z (2 ^ 53) * pow2 (-1)).
      + reflexivity.
      + field. apply Qnot_eq_sym, Qlt_not_eq, pow2_pos. }
  destruct Hm as [m Hm].
  rewrite (round_half_even_Qeq _ _ Hm), round_half_even_Z, <- Hm.
  field. apply Qnot_eq_sym, Qlt_not_eq, pow2_pos.
Qed.

(** What rounding returns is such a number (or 0). *)
Lemma rnd_pos_range (x : Q) :
  0 < x ->
  exists n k : Z, (0 <= n <= 2 ^ 53)%Z /\ (-1074 <= k)%Z
                  /\ rnd_pos x == inject_Z n * pow2 k.
Proof.
  intros Hx. unfold rnd_pos.
  set (e := Z.max (ilog2 x) emin).
  exists (round_half_even (x / pow2 (e - 52))), (e - 52)%Z.
  split; [|split; [unfold emin in e; lia|reflexivity]].
  apply round_half_even_bounds.
  - apply Qle_shift_div_l; [apply pow2_pos|]. rewrite Qmult_0_l. apply Qlt_le_weak, Hx.
  - apply Qle_shift_div_r; [apply pow2_pos|].
    destruct (ilog2_spec x Hx) as [_ Hh].
    apply Qlt_le_weak. apply Qlt_le_trans with (pow2 (ilog2 x + 1)); [exact Hh|].
    rewrite <- pow2_Z by lia. rewrite <- pow2_add.
    apply pow2_le. lia.
Qed.

Lemma rnd_pos_Qeq (x y : Q) : 0 < x -> x == y -> rnd_pos x == rnd_pos y.
Proof.
  intros Hx H. unfold rnd_pos.
  rewrite <- (ilog2_Qeq x y Hx H).
  rewrite (round_half_even_Qeq (x / _) (y / pow2 (Z.max (ilog2 x) emin - 52))).
  - reflexivity.
  - unfold Qdiv. apply Qmult_comp; [exact H|reflexivity].
Qed.

Lemma rnd_pos_nonneg (x : Q) : 0 < x -> 0 <= rnd_pos x.
Proof.
  intros Hx. destruct (rnd_pos_range x Hx) as (n & k & Hn & _ & E).
  rewrite E. apply Qmult_le_0_compat; [|apply Qlt_le_weak, pow2_pos].
  change 0 with (inject_Z 0). rewrite <- Zle_Qle. lia.
Qed.

Lemma rnd_positive (x : Q) : 0 < x -> rnd x == rnd_pos x.
Proof.
  intros Hx. unfold rnd. destruct x as [[|p|p] d]; try discriminate Hx.
  apply Qred_correct.
Qed.

Lemma rnd_negative (x : Q) : x < 0 -> rnd x == - rnd_pos (- x).
Proof.
  intros Hx. unfold rnd. destruct x as [[|p|p] d]; try discriminate Hx.
  apply Qred_correct.
Qed.

Lemma rnd_zero (x : Q) : x == 0 -> rnd x = 0.
Proof.
  intros Hx. unfold rnd. destruct x as [[|p|p] d]; try discriminate Hx.
  reflexivity.
Qed.

Lemma rnd_opp (x : Q) : rnd (- x) == - rnd x.
Proof.
  destruct (Q_dec x 0) as [[H|H]|H].
  - rewrite (rnd_negative x H). rewrite rnd_positive by lra.
    ring.
  - rewrite (rnd_positive x H). rewrite rnd_negative by lra.
    rewrite (rnd_pos_Qeq (- - x) x); [reflexivity|lra|ring].
  - rewrite (rnd_zero x H). rewrite rnd_zero by lra. reflexivity.
Qed.

Lemma rnd_Qeq (x y : Q) : x == y -> rnd x == rnd y.
Proof.
  intros H. destruct (Q_dec x 0) as [[Hx|Hx]|Hx].
  - rewrite (rnd_negative x Hx), (rnd_negative y) by lra.
    rewrite (rnd_pos_Qeq (- x) (- y)); [reflexivity|lra|rewrite H; reflexivity].
  - rewrite (rnd_positive x Hx), (rnd_positive y) by lra.
    apply rnd_pos_Qeq; assumption.
  - rewrite (rnd_zero x Hx), (rnd_zero y) by lra. reflexivity.
Qed.

Lemma rnd_exact (x : Q) (n k : Z) :
  (Z.abs n <= 2 ^ 53)%Z -> (-1074 <= k)%Z -> x == inject_Z n * pow2 k ->
  is_double x.
Proof.
  intros Hn Hk Hx. unfold is_double.
  destruct (Z.lt_trichotomy n 0) as [H|[H|H]].
  - assert (Hneg : x < 0).
    { rewrite Hx. setoid_replace 0 with (0 * pow2 k) by ring.
      apply Qmult_lt_compat_r; [apply pow2_pos|].
      change 0 with (inject_Z 0). rewrite <- Zlt_Qlt. exact H. }
    rewrite (rnd_negative x Hneg).
    rewrite (rnd_pos_exact (- x) (- n) k); [ring|lia|exact Hk|].
    rewrite Hx, inject_Z_opp. ring.
  - subst n. rewrite rnd_zero; [|rewrite Hx; ring]. rewrite Hx. ring.
  - assert (Hpos : 0 < x).
    { rewrite Hx. apply Qmult_lt_0_compat; [|apply pow2_pos].
      change 0 with (inject_Z 0). rewrite <- Zlt_Qlt. exact H. }
    rewrite (rnd_positive x Hpos). apply (rnd_pos_exact x n k); [lia|exact Hk|exact Hx].
Qed.

Lemma rnd_is_double (x : Q) : is_double (rnd x).
Proof.
  destruct (Q_dec x 0) as [[Hx|Hx]|Hx].
  - destruct (rnd_pos_range (- x)) as (n & k & Hn & Hk & E); [lra|].
    apply (rnd_exact _ (- n) k); [lia|exact Hk|].
    rewrite (rnd_negative x Hx), E, inject_Z_opp. ring.
  - destruct (rnd_pos_range x Hx) as (n & k & Hn & Hk & E).
    apply (rnd_exact _ n k); [lia|exact Hk|].
    rewrite (rnd_positive x Hx). exact E.
  - rewrite (rnd_zero x Hx). unfold is_double. reflexivity.
Qed.

Lemma integer_is_double (n : Z) : (Z.abs n <= 2 ^ 53)%Z -> is_double (inject_Z n).
Proof.
  intros H. apply (rnd_exact _ n 0); [exact H|lia|]. unfold pow2. simpl. ring.
Qed.

Lemma round_half_even_near (x : Q) :
  inject_Z (round_half_even x) - (1 # 2) <= x
  /\ x <= inject_Z (round_half_even x) + (1 # 2).
Proof.
  unfold round_half_even.
  pose proof (Qfloor_le x) as Hlo.
  pose proof (Qlt_floor x) as Hhi. rewrite inject_Z_plus in Hhi.
  change (inject_Z 1) with 1 in Hhi.
  destruct (Qcompare_spec (x - inject_Z (Qfloor x)) (1 # 2)) as [E|E|E].
  - destruct (Z.even (Qfloor x)).
    + split; lra.
    + rewrite inject_Z_plus. change (inject_Z 1) with 1. split; lra.
  - split; lra.
  - rewrite inject_Z_plus. change (inject_Z 1) with 1. split; lra.
Qed.

Lemma round_half_even_mono (x y : Q) :
  x <= y -> (round_half_even x <= round_half_even y)%Z.
Proof.
  intros H.
  destruct (Z_le_gt_dec (round_half_even x) (round_half_even y)) as [Hle|Hgt];
    [exact Hle|exfalso].
  destruct (round_half_even_near x) as [Hx _].
  destruct (round_half_even_near y) as [_ Hy].
  assert (Hz : inject_Z (round_half_even y) + 1 <= inject_Z (round_half_even x)).
  { change 1 with (inject_Z 1). rewrite <- inject_Z_plus, <- Zle_Qle. lia. }
  assert (E : x == y) by (apply Qle_antisym; lra).
  rewrite (round_half_even_Qeq x y E) in Hgt. lia.
Qed.

Lemma ilog2_mono (x y : Q) : 0 < x -> x <= y -> (ilog2 x <= ilog2 y)%Z.
Proof.
  intros Hx H.
  destruct (ilog2_spec x Hx) as [Hl _].
  destruct (ilog2_spec y) as [_ Hh]; [lra|].
  assert (Hlt : (ilog2 x < ilog2 y + 1)%Z).
  { apply pow2_lt_inv. lra. }
  lia.
Qed.

Lemma pow2_shift (e : Z) : inject_Z (2 ^ 53) * pow2 (e - 52) == pow2 (e + 1).
Proof.
  rewrite <- pow2_Z by lia. rewrite <- pow2_add. 
  replace (53 + (e - 52))%Z with (e + 1)%Z by ring. reflexivity.
Qed.

Lemma pow2_shift52 (e : Z) : inject_Z (2 ^ 52) * pow2 (e - 52) == pow2 e.
Proof.
  rewrite <- pow2_Z by lia. rewrite <- pow2_add. 
  replace (52 + (e - 52))%Z with e by ring. reflexivity.
Qed.

(** The significand has at most 53 bits. *)
Lemma significand_upper (x : Q) :
  0 < x ->
  (round_half_even (x / pow2 (Z.max (ilog2 x) emin - 52)) <= 2 ^ 53)%Z.
Proof.
  intros Hx. set (e := Z.max (ilog2 x) emin).
  rewrite <- (round_half_even_Z (2 ^ 53)). apply round_half_even_mono.
  apply Qle_shift_div_r; [apply pow2_pos|].
  rewrite pow2_shift.
  destruct (ilog2_spec x Hx) as [_ Hh].
  apply Qlt_le_weak. apply Qlt_le_trans with (pow2 (ilog2 x + 1)); [exact Hh|].
  apply pow2_le. lia.
Qed.

(** A normal number has a significand of exactly 53 bits. *)
Lemma significand_lower (x : Q) :
  0 < x -> (emin <= ilog2 x)%Z ->
  (2 ^ 52 <= round_half_even (x / pow2 (ilog2 x - 52)))%Z.
Proof.
  intros Hx He.
  rewrite <- (round_half_even_Z (2 ^ 52)) at 1. apply round_half_even_mono.
  apply Qle_shift_div_l; [apply pow2_pos|].
  rewrite pow2_shift52.
  destruct (ilog2_spec x Hx) as [Hl _]. exact Hl.
Qed.

Lemma rnd_pos_mono (x y : Q) : 0 < x -> x <= y -> rnd_pos x <= rnd_pos y.
Proof.
  intros Hx H.
  assert (Hy : 0 < y) by lra.
  pose proof (ilog2_mono x y Hx H) as Hl.
  unfold rnd_pos.
  set (ex := Z.max (ilog2 x) emin). set (ey := Z.max (ilog2 y) emin).
  destruct (Z.eq_dec ex ey) as [E|E].
  - rewrite <- E. apply Qmult_le_compat_r; [|apply Qlt_le_weak, pow2_pos].
    rewrite <- Zle_Qle. apply round_half_even_mono.
    apply Qmult_le_compat_r; [exact H|].
    apply Qlt_le_weak, Qinv_lt_0_compat, pow2_pos.
  - assert (Hlt : (ex < ey)%Z) by lia.
    assert (Hey : ey = ilog2 y) by lia.
    apply Qle_trans with (pow2 (ex + 1)).
    + rewrite <- pow2_shift.
      apply Qmult_le_compat_r; [|apply Qlt_le_weak, pow2_pos].
      rewrite <- Zle_Qle. apply significand_upper. exact Hx.
    + apply Qle_trans with (pow2 ey); [apply pow2_le; lia|].
      rewrite <- (pow2_shift52 ey) at 1.
      apply Qmult_le_compat_r; [|apply Qlt_le_weak, pow2_pos].
      rewrite <- Zle_Qle. rewrite Hey. apply significand_lower; [exact Hy|lia].
Qed.

(** Rounding keeps the order. *)
Lemma rnd_mono (x y : Q) : x <= y -> rnd x <= rnd y.
Proof.
  intros H.
  destruct (Q_dec x 0) as [[Hx|Hx]|Hx]; destruct (Q_dec y 0) as [[Hy|Hy]|Hy];
    try (exfalso; lra).
  - rewrite (rnd_negative x Hx), (rnd_negative y Hy).
    apply Qopp_le_compat. apply rnd_pos_mono; lra.
  - rewrite (rnd_negative x Hx), (rnd_positive y Hy).
    pose proof (rnd_pos_nonneg (- x)). pose proof (rnd_pos_nonneg y). lra.
  - rewrite (rnd_negative x Hx), (rnd_zero y Hy).
    pose proof (rnd_pos_nonneg (- x)). lra.
  - rewrite (rnd_positive x Hx), (rnd_positive y Hy). apply rnd_pos_mono; assumption.
  - rewrite (rnd_zero x Hx), (rnd_positive y Hy). apply rnd_pos_nonneg. exact Hy.
  - rewrite (rnd_zero x Hx), (rnd_zero y Hy). apply Qle_refl.
Qed.

(** Rounding moves a positive number by at most half a unit of its last
    place. *)
Lemma rnd_pos_error (x : Q) :
  0 < x ->
  Qabs (rnd_pos x - x) <= (1 # 2) * pow2 (Z.max (ilog2 x) emin - 52).
Proof.
  intros Hx. unfold rnd_pos.
  set (q := pow2 (Z.max (ilog2 x) emin - 52)).
  assert (Hq : 0 < q) by apply pow2_pos.
  destruct (round_half_even_near (x / q)) as [H1 H2].
  set (n := inject_Z (round_half_even (x / q))) in *.
  assert (E : x == (x / q) * q) by (field; lra).
  apply Qabs_Qle_condition. split.
  - assert (H : (x / q - (1 # 2)) * q <= n * q)
      by (apply Qmult_le_compat_r; lra).
    setoid_replace ((x / q - (1 # 2)) * q) with (x - (1 # 2) * q) in H by (field; lra).
    lra.
  - assert (H : n * q <= (x / q + (1 # 2)) * q)
      by (apply Qmult_le_compat_r; lra).
    setoid_replace ((x / q + (1 # 2)) * q) with (x + (1 # 2) * q) in H by (field; lra).
    lra.
Qed.

Lemma binary64_is_double (d : Q) : binary64 d -> is_double d.
Proof. intros (n & k & Hn & Hk & E). exact (rnd_exact d n k Hn Hk E). Qed.

(** Between [2^e] and [2^(e+1)], and everywhere when [e] is the lowest
    exponent, the doubles are multiples of [2^(e-52)]. *)
Lemma on_grid (d : Q) (e : Z) :
  binary64 d -> 0 < d -> (emin <= e)%Z -> (pow2 e <= d \/ e = emin) ->
  exists j : Z, d == inject_Z j * pow2 (e - 52).
Proof.
  intros (m & k & Hm & Hk & E) Hd He Hlow.
  assert (Hmpos : (0 < m)%Z).
  { destruct (Z_lt_le_dec 0 m) as [H|H]; [exact H|exfalso].
    assert (Hle : inject_Z m * pow2 k <= 0).
    { setoid_replace 0 with (0 * pow2 k) by ring.
      apply Qmult_le_compat_r; [|apply Qlt_le_weak, pow2_pos].
      change 0 with (inject_Z 0). rewrite <- Zle_Qle. exact H. }
    lra. }
  unfold emin in *.
  destruct (Z_le_gt_dec (e - 52) k) as [Hge|Hlt].
  - exists (m * 2 ^ (k - (e - 52)))%Z.
    rewrite inject_Z_mult, <- pow2_Z by lia.
    rewrite <- Qmult_assoc, <- pow2_add.
    replace (k - (e - 52) + (e - 52))%Z with k by ring. exact E.
  - destruct Hlow as [Hlow|Hlow]; [|lia].
    assert (Hle : d <= pow2 (53 + k)).
    { rewrite E, pow2_add. apply Qmult_le_compat_r; [|apply Qlt_le_weak, pow2_pos].
      rewrite pow2_Z by lia. rewrite <- Zle_Qle. lia. }
    assert (H1 : (e < 53 + k + 1)%Z).
    { apply pow2_lt_inv. apply Qle_lt_trans with d; [exact Hlow|].
      apply Qle_lt_trans with (pow2 (53 + k)); [exact Hle|apply pow2_lt; lia]. }
    assert (Hk' : k = (e - 53)%Z) by lia.
    assert (Hm' : m = (2 ^ 53)%Z).
    { rewrite E in Hlow. replace e with (53 + k)%Z in Hlow by lia.
      rewrite pow2_add in Hlow.
      apply Qmult_le_r in Hlow; [|apply pow2_pos].
      rewrite pow2_Z in Hlow by lia. rewrite <- Zle_Qle in Hlow. lia. }
    exists (2 ^ 52)%Z. rewrite pow2_shift52, E, Hm', Hk'.
    replace (e - 53)%Z with ((e - 1) - 52)%Z by ring.
    rewrite pow2_shift. replace (e - 1 + 1)%Z with e by ring. reflexivity.
Qed.

Lemma rnd_pos_nearest (x d : Q) :
  0 < x -> binary64 d -> Qabs (rnd_pos x - x) <= Qabs (d - x).
Proof.
  intros Hx Hd.
  pose proof (rnd_pos_error x Hx) as Herr.
  pose proof (binary64_is_double d Hd) as Hdd. unfold is_double in Hdd.
  set (e := Z.max (ilog2 x) emin) in *.
  set (q := pow2 (e - 52)) in *.
  assert (Hq : 0 < q) by apply pow2_pos.
  assert (He : (emin <= e)%Z) by (unfold e; lia).
  assert (Hr : rnd_pos x == inject_Z (round_half_even (x / q)) * q) by reflexivity.
  set (n := round_half_even (x / q)) in *.
  set (r := rnd_pos x) in *.
  destruct (round_half_even_near (x / q)) as [Hn1 Hn2]. fold n in Hn1, Hn2.
  assert (Hxq : x == (x / q) * q) by (field; lra).
  assert (Hlow : pow2 e <= x \/ e = emin).
  { destruct (Z.eq_dec e emin) as [E|E]; [right; exact E|left].
    assert (E' : e = ilog2 x) by (unfold e in *; lia).
    rewrite E'. apply ilog2_spec. exact Hx. }
  (* a double strictly between two neighbours of the grid does not exist *)
  assert (Hgap : forall j : Z, 0 < d -> (pow2 e <= d \/ e = emin) ->
                 inject_Z j * q < d -> d < inject_Z (j + 1) * q -> False).
  { intros j Hdpos Hdlow H1 H2.
    destruct (on_grid d e Hd Hdpos He Hdlow) as [i Hi]. fold q in Hi.
    rewrite Hi in H1, H2.
    apply Qmult_lt_r in H1; [|exact Hq]. apply Qmult_lt_r in H2; [|exact Hq].
    rewrite <- Zlt_Qlt in H1, H2. lia. }
  apply Qabs_Qle_condition in Herr. destruct Herr as [Herr1 Herr2].
  destruct (Qlt_le_dec x d) as [Hxd|Hdx].
  - (* d above x *)
    rewrite (Qabs_pos (d - x)) by lra.
    apply Qabs_Qle_condition. split; [|].
    + destruct (Qlt_le_dec r x) as [Hrx|Hxr]; [|lra].
      (* r < x < d: d is at least the next point of the grid *)
      destruct (Qlt_le_dec d (inject_Z (n + 1) * q)) as [Hlt|Hge].
      * exfalso. apply (Hgap n); [lra| |lra|exact Hlt].
        destruct Hlow as [Hl|Hl]; [left; lra|right; exact Hl].
      * rewrite inject_Z_plus in Hge. change (inject_Z 1) with 1 in Hge. lra.
    + assert (Hmono : rnd x <= rnd d) by (apply rnd_mono; lra).
      rewrite (rnd_positive x Hx) in Hmono. fold r in Hmono. lra.
  - (* d at or below x *)
    rewrite (Qabs_neg (d - x)) by lra.
    apply Qabs_Qle_condition. split; [|].
    + assert (Hmono : rnd d <= rnd x) by (apply rnd_mono; lra).
      rewrite (rnd_positive x Hx) in Hmono. fold r in Hmono. lra.
    + destruct (Qlt_le_dec x r) as [Hxr|Hrx]; [|lra].
      (* d <= x < r: d is at most the previous point of the grid *)
      destruct (Qlt_le_dec (inject_Z (n - 1) * q) d) as [Hlt|Hge].
      * exfalso.
        assert (Hn : (2 ^ 52 < n)%Z \/ e = emin).
        { destruct Hlow as [Hl|Hl]; [left|right; exact Hl].
          assert (H52 : inject_Z (2 ^ 52) * q <= x) by (unfold q; rewrite pow2_shift52; exact Hl).
          assert (H : inject_Z (2 ^ 52) * q < inject_Z n * q) by lra.
          apply Qmult_lt_r in H; [|exact Hq]. rewrite <- Zlt_Qlt in H. exact H. }
        assert (Hdx' : d < inject_Z (n - 1 + 1) * q).
        { replace (n - 1 + 1)%Z with n by ring. lra. }
        assert (Hn0 : (0 <= n - 1)%Z).
        { destruct (Z_le_gt_dec 1 n) as [H|H]; [lia|exfalso].
          assert (Hle : inject_Z n * q <= 0).
          { setoid_replace 0 with (0 * q) by ring.
            apply Qmult_le_compat_r; [|lra].
            change 0 with (inject_Z 0). rewrite <- Zle_Qle. lia. }
          lra. }
        assert (Hdpos : 0 < d).
        { apply Qle_lt_trans with (inject_Z (n - 1) * q); [|exact Hlt].
          apply Qmult_le_0_compat; [|lra].
          change 0 with (inject_Z 0). rewrite <- Zle_Qle. exact Hn0. }
        apply (Hgap (n - 1)%Z); [exact Hdpos| |exact Hlt|exact Hdx'].
        destruct Hn as [Hn|Hn]; [left|right; exact Hn].
        apply Qle_trans with (inject_Z (n - 1) * q); [|lra].
        unfold q. rewrite <- (pow2_shift52 e) at 1.
        apply Qmult_le_compat_r; [|apply Qlt_le_weak, pow2_pos].
        rewrite <- Zle_Qle. lia.
      * unfold Zminus in Hge. rewrite inject_Z_plus in Hge.
        rewrite inject_Z_opp in Hge. change (inject_Z 1) with 1 in Hge. lra.
Qed.

Lemma binary64_opp (d : Q) : binary64 d -> binary64 (- d).
Proof.
  intros (n & k & Hn & Hk & E). exists (- n)%Z, k.
  split; [lia|]. split; [exact Hk|]. rewrite E, inject_Z_opp. ring.
Qed.

(** [rnd x] is a double, and no double is nearer to [x]. *)
Theorem rnd_nearest (x d : Q) :
  binary64 d -> Qabs (rnd x - x) <= Qabs (d - x).
Proof.
  intros Hd. destruct (Q_dec x 0) as [[Hx|Hx]|Hx].
  - rewrite (rnd_negative x Hx).
    setoid_replace (- rnd_pos (- x) - x) with (- (rnd_pos (- x) - - x)) by ring.
    setoid_replace (d - x) with (- (- d - - x)) by ring.
    rewrite !Qabs_opp. apply rnd_pos_nearest; [lra|apply binary64_opp, Hd].
  - rewrite (rnd_positive x Hx). apply rnd_pos_nearest; assumption.
  - rewrite (rnd_zero x Hx).
    setoid_replace (0 - x) with 0 by lra. apply Qabs_nonneg.
Qed.

Lemma rnd_binary64 (x : Q) : binary64 (rnd x).
Proof.
  destruct (Q_dec x 0) as [[Hx|Hx]|Hx].
  - destruct (rnd_pos_range (- x)) as (n & k & Hn & Hk & E); [lra|].
    exists (- n)%Z, k. split; [lia|]. split; [exact Hk|].
    rewrite (rnd_negative x Hx), E, inject_Z_opp. ring.
  - destruct (rnd_pos_range x Hx) as (n & k & Hn & Hk & E).
    exists n, k. split; [lia|]. split; [exact Hk|].
    rewrite (rnd_positive x Hx). exact E.
  - exists 0%Z, 0%Z. split; [simpl; lia|]. split; [lia|].
    rewrite (rnd_zero x Hx). ring.
Qed.

Lemma rnd_idempotent (x : Q) : rnd (rnd x) == rnd x.
Proof. exact (rnd_is_double x). Qed.

#[global] Instance rnd_Proper : Proper (Qeq ==> Qeq) rnd.
Proof. intros x y H. apply rnd_Qeq, H. Qed.

#[global] Instance add_Proper : Proper (Qeq ==> Qeq ==> Qeq) add.
Proof. intros x y H x' y' H'. unfold add. rewrite H, H'. reflexivity. Qed.

#[global] Instance sub_Proper : Proper (Qeq ==> Qeq ==> Qeq) sub.
Proof. intros x y H x' y' H'. unfold sub. rewrite H, H'. reflexivity. Qed.

#[global] Instance mul_Proper : Proper (Qeq ==> Qeq ==> Qeq) mul.
Proof. intros x y H x' y' H'. unfold mul. rewrite H, H'. reflexivity. Qed.

#[global] Instance div_Proper : Proper (Qeq ==> Qeq ==> Qeq) div.
Proof. intros x y H x' y' H'. unfold div. rewrite H, H'. reflexivity. Qed.

(** Adding zero to a double, and multiplying it by one, changes nothing. *)
Lemma add_0_r (x : Q) : is_double x -> add x 0 == x.
Proof. intros H. unfold add. rewrite Qplus_0_r. exact H. Qed.

Lemma add_0_l (x : Q) : is_double x -> add 0 x == x.
Proof. intros H. unfold add. rewrite Qplus_0_l. exact H. Qed.

Lemma mul_1_l (x : Q) : is_double x -> mul 1 x == x.
Proof. intros H. unfold mul. rewrite Qmult_1_l. exact H. Qed.

Lemma add_is_double (x y : Q) : is_double (add x y).
Proof. apply rnd_is_double. Qed.

Lemma mul_is_double (x y : Q) : is_double (mul x y).
Proof. apply rnd_is_double. Qed.

Lemma div_is_double (x y : Q) : is_double (div x y).
Proof. apply rnd_is_double. Qed.

Lemma zero_is_double : is_double 0.
Proof. unfold is_double. reflexivity. Qed.

(** Integers up to [2^53] add exactly. *)
Lemma add_integers (a b : Z) :
  (Z.abs (a + b) <= 2 ^ 53)%Z -> add (inject_Z a) (inject_Z b) == inject_Z (a + b).
Proof.
  intros H. unfold add. rewrite <- inject_Z_plus. apply integer_is_double, H.
Qed.

End Binary64Facts.
Import Binary64Facts.

(* ------------------------------------------------------------------ *)
(** ** Facts about rounding *)

Lemma Math_round_nearest (x : Q) :
  Qabs (Math_round x - x) <= 1 # 2.
Proof.
  unfold Math_round, Math_round_Z.
  pose proof (Qfloor_le (x + (1 # 2))) as Hlo.
  pose proof (Qlt_floor (x + (1 # 2))) as Hhi.
  rewrite inject_Z_plus in Hhi.
  apply Qabs_Qle_condition. split.
  - apply Qlt_le_weak.
    apply Qplus_lt_l with (z := x + (1 # 2)).
    setoid_replace (- (1 # 2) + (x + (1 # 2))) with x by ring.
    setoid_replace (inject_Z (Qfloor (x + (1 # 2))) - x + (x + (1 # 2)))
      with (inject_Z (Qfloor (x + (1 # 2))) + inject_Z 1 - (1 # 2)) by ring.
    apply Qplus_lt_l with (z := 1 # 2).
    setoid_replace (inject_Z (Qfloor (x + (1 # 2))) + inject_Z 1 - (1 # 2) + (1 # 2))
      with (inject_Z (Qfloor (x + (1 # 2))) + inject_Z 1) by ring.
    exact Hhi.
  - apply Qplus_le_l with (z := x).
    setoid_replace (inject_Z (Qfloor (x + (1 # 2))) - x + x)
      with (inject_Z (Qfloor (x + (1 # 2)))) by ring.
    setoid_replace ((1 # 2) + x) with (x + (1 # 2)) by ring.
    exact Hlo.
Qed.

Lemma Qfloor_Qeq (x y : Q) : x == y -> Qfloor x = Qfloor y.
Proof.
  intros H. apply Z.le_antisymm; apply Qfloor_resp_le; rewrite H; apply Qle_refl.
Qed.

Lemma Math_round_Qeq (x y : Q) : x == y -> Math_round x == Math_round y.
Proof.
  intros H. unfold Math_round, Math_round_Z.
  rewrite (Qfloor_Qeq (x + (1 # 2)) (y + (1 # 2))); [reflexivity|].
  rewrite H. reflexivity.
Qed.


(* ------------------------------------------------------------------ *)
(** ** The subtotal is the sum of [quantity * rate] *)




(* ------------------------------------------------------------------ *)
(** ** The financial breakdown *)

Lemma Math_round_integer (x : Q) :
  exists n : Z, Math_round x = inject_Z n /\ Qabs (inject_Z n - x) <= 1 # 2.
Proof.
  exists (Math_round_Z x). split; [reflexivity|]. apply Math_round_nearest.
Qed.


(** C10.  The two tax components are the same number for every cart and
    every rate, whether or not the rate splits into an integer half. *)
Theorem sgst_equals_cgst
    (settings : BusinessSettings) (propGstRate : option Q)
    (items : list InvoiceItem) :
  Generator.sgstAmount settings items = Generator.cgstAmount settings items
  /\ Template.calcSgst settings propGstRate items
     = Template.calcCgst settings propGstRate items.
Proof. split; reflexivity. Qed.

(* ------------------------------------------------------------------ *)
(** ** Quantity adjustment *)

Lemma updateItemQty_items (id : string) (delta : Q) (st : State) :
  items (updateItemQty id delta st)
  = map (fun item =>
           if String.eqb (item_id item) id
           then with_quantity item (Math_max 1 (item_quantity item + delta))
           else item) (items st).
Proof. reflexivity. Qed.









(* ------------------------------------------------------------------ *)
(** ** Adding a product *)

Lemma findIndex_lower {A : Type} (f : A -> bool) (l : list A) :
  (-1 <= findIndex f l)%Z.
Proof.
  induction l as [|x r IH]; simpl; [lia|].
  destruct (f x); [lia|]. destruct (findIndex f r <? 0)%Z eqn:E; lia.
Qed.

Lemma findIndex_none {A : Type} (f : A -> bool) (l : list A) :
  Forall (fun y => f y = false) l -> findIndex f l = (-1)%Z.
Proof.
  induction 1 as [|x r Hx _ IH]; simpl; [reflexivity|].
  rewrite Hx, IH. reflexivity.
Qed.

Lemma findIndex_first {A : Type} (f : A -> bool) (pre : list A) (x : A)
      (post : list A) :
  Forall (fun y => f y = false) pre -> f x = true ->
  findIndex f (pre ++ x :: post) = Z.of_nat (List.length pre).
Proof.
  intros Hpre Hx. induction Hpre as [|y r Hy _ IH].
  - simpl. rewrite Hx. reflexivity.
  - cbn [app findIndex List.length]. rewrite Hy, IH.
    destruct (Z.of_nat (List.length r) <? 0)%Z eqn:E; lia.
Qed.

(** [findIndex] either finds nothing, or splits the list at the first hit. *)
Lemma findIndex_cases {A : Type} (f : A -> bool) (l : list A) :
  Forall (fun y => f y = false) l
  \/ exists pre x post,
       l = pre ++ x :: post /\ Forall (fun y => f y = false) pre /\ f x = true.
Proof.
  induction l as [|x r IH].
  - left. constructor.
  - destruct (f x) eqn:Hx.
    + right. exists [], x, r. repeat split; [constructor | exact Hx].
    + destruct IH as [Hnone | (pre & y & post & Hl & Hpre & Hy)].
      * left. constructor; assumption.
      * right. exists (x :: pre), y, post. subst r.
        repeat split; [constructor; assumption | exact Hy].
Qed.

Lemma nth_error_middle {A : Type} (pre : list A) (x : A) (post : list A) :
  nth_error (pre ++ x :: post) (List.length pre) = Some x.
Proof. induction pre; simpl; auto. Qed.

Lemma set_nth_middle {A : Type} (pre : list A) (x v : A) (post : list A) :
  set_nth (List.length pre) v (pre ++ x :: post) = pre ++ v :: post.
Proof. induction pre as [|y r IH]; simpl; [reflexivity|]. rewrite IH. reflexivity. Qed.

Lemma productId_differs (pid : string) (l : list InvoiceItem) :
  Forall (fun i => item_productId i <> pid) l ->
  Forall (fun i => String.eqb (item_productId i) pid = false) l.
Proof.
  apply Forall_impl. intros i Hi. apply String.eqb_neq. exact Hi.
Qed.

Lemma addItem_found (products : list Product) (now : Z) (st : State) (p : Product) :
  selectedProductID st <> ""%string ->
  find (fun p => String.eqb (product_id p) (selectedProductID st)) products = Some p ->
  addItem products now st
  = let existingIndex :=
        findIndex (fun item => String.eqb (item_productId item) (product_id p))
                  (items st) in
    setIsSaved false
      (setQty 1
         (setSelectedProductID ""
            (if (-1 <? existingIndex)%Z
             then match nth_error (items st) (Z.to_nat existingIndex) with
                  | Some existingItem =>
                      setItems
                        (set_nth (Z.to_nat existingIndex)
                           (with_quantity existingItem
                              (item_quantity existingItem + qty st))
                           (items st)) st
                  | None => st
                  end
             else
               setItems
                 (items st ++
                  [mkItem (Number_toString now) (product_id p) (product_name p)
                     (qty st) (product_unit p) (product_rate p)
                     (qty st * product_rate p) (product_packing p)]) st))).
Proof.
  intros Hsel Hfind. unfold addItem.
  apply String.eqb_neq in Hsel. rewrite Hsel, Hfind. reflexivity.
Qed.

Lemma addItem_merge (products : list Product) (now : Z) (st : State) (p : Product)
      (pre : list InvoiceItem) (existing : InvoiceItem) (post : list InvoiceItem) :
  selectedProductID st <> ""%string ->
  find (fun p => String.eqb (product_id p) (selectedProductID st)) products = Some p ->
  items st = pre ++ existing :: post ->
  Forall (fun i => item_productId i <> product_id p) pre ->
  item_productId existing = product_id p ->
  items (addItem products now st)
  = pre ++ with_quantity existing (item_quantity existing + qty st) :: post.
Proof.
  intros Hsel Hfind Hitems Hpre Hex.
  rewrite (addItem_found products now st p Hsel Hfind). cbv zeta.
  rewrite Hitems.
  rewrite (findIndex_first _ pre existing post (productId_differs _ _ Hpre)).
  2:{ apply String.eqb_eq. exact Hex. }
  replace (-1 <? Z.of_nat (List.length pre))%Z with true
    by (symmetry; apply Z.ltb_lt; lia).
  rewrite Nat2Z.id, nth_error_middle, set_nth_middle. reflexivity.
Qed.

Lemma addItem_append (products : list Product) (now : Z) (st : State) (p : Product) :
  selectedProductID st <> ""%string ->
  find (fun p => String.eqb (product_id p) (selectedProductID st)) products = Some p ->
  Forall (fun i => item_productId i <> product_id p) (items st) ->
  items (addItem products now st)
  = items st ++
    [mkItem (Number_toString now) (product_id p) (product_name p) (qty st)
       (product_unit p) (product_rate p) (qty st * product_rate p)
       (product_packing p)].
Proof.
  intros Hsel Hfind Hnone.
  rewrite (addItem_found products now st p Hsel Hfind). cbv zeta.
  rewrite (findIndex_none _ _ (productId_differs _ _ Hnone)). reflexivity.
Qed.

Lemma addItem_no_duplicate (products : list Product) (now : Z) (st : State) :
  NoDup (map item_productId (items st)) ->
  NoDup (map item_productId (items (addItem products now st))).
Proof.
  intros Hnd.
  destruct (String.eqb (selectedProductID st) "") eqn:Hsel;
    [unfold addItem; rewrite Hsel; exact Hnd|].
  apply String.eqb_neq in Hsel.
  destruct (find (fun p => String.eqb (product_id p) (selectedProductID st)) products)
    as [p|] eqn:Hfind.
  2:{ unfold addItem. apply String.eqb_neq in Hsel. rewrite Hsel, Hfind. exact Hnd. }
  destruct (findIndex_cases
              (fun item => String.eqb (item_productId item) (product_id p))
              (items st)) as [Hnone | (pre & x & post & Hl & Hpre & Hx)].
  - assert (Hno : Forall (fun i => item_productId i <> product_id p) (items st)).
    { eapply Forall_impl; [|exact Hnone]. intros i Hi. apply String.eqb_neq, Hi. }
    rewrite (addItem_append products now st p Hsel Hfind Hno).
    rewrite map_app. cbn [map item_productId].
    apply (Permutation_NoDup (Permutation_cons_append _ _)).
    constructor; [|exact Hnd].
    intros Hin. apply in_map_iff in Hin. destruct Hin as [i [Hi Hin]].
    rewrite Forall_forall in Hno. exact (Hno i Hin Hi).
  - assert (Hno : Forall (fun i => item_productId i <> product_id p) pre).
    { eapply Forall_impl; [|exact Hpre]. intros i Hi. apply String.eqb_neq, Hi. }
    apply String.eqb_eq in Hx.
    rewrite (addItem_merge products now st p pre x post Hsel Hfind Hl Hno Hx).
    rewrite Hl in Hnd. rewrite map_app in *. exact Hnd.
Qed.

Lemma addItem_twice (products : list Product) (p : Product) (pid : string)
      (q1 q2 : Q) (now1 now2 : Z) (st : State) :
  pid <> ""%string ->
  find (fun x => String.eqb (product_id x) pid) products = Some p ->
  items st = [] ->
  items (addItem products now2
           (setQty q2 (setSelectedProductID pid
              (addItem products now1
                 (setQty q1 (setSelectedProductID pid st))))))
  = [mkItem (Number_toString now1) (product_id p) (product_name p) (q1 + q2)
       (product_unit p) (product_rate p) ((q1 + q2) * product_rate p)
       (product_packing p)].
Proof.
  intros Hpid Hfind Hempty.
  set (st0 := setQty q1 (setSelectedProductID pid st)).
  assert (H1 : items (addItem products now1 st0)
               = [mkItem (Number_toString now1) (product_id p) (product_name p)
                    q1 (product_unit p) (product_rate p) (q1 * product_rate p)
                    (product_packing p)]).
  { rewrite (addItem_append products now1 st0 p Hpid Hfind).
    - unfold st0. simpl. rewrite Hempty. reflexivity.
    - unfold st0. simpl. rewrite Hempty. constructor. }
  set (st1 := setQty q2 (setSelectedProductID pid (addItem products now1 st0))).
  rewrite (addItem_merge products now2 st1 p [] _ [] Hpid Hfind H1);
    [reflexivity | constructor | reflexivity].
Qed.

(** C5.  With a catalog product selected, [addItem] merges into the first
    line that references the product: that line's quantity becomes the old
    quantity plus the added one, its amount the new quantity times its own
    (snapshotted) rate, every other line and the number of lines stay as
    they are; when no line references the product a new line is appended
    with the product's name, rate, unit and packing.  No product id ever
    occurs on two lines, and adding the same product twice to an empty cart
    gives one line with the summed quantity. *)
Theorem addItem_merge_or_append
    (products : list Product) (now : Z) (st : State) (p : Product) :
  selectedProductID st <> ""%string ->
  find (fun p => String.eqb (product_id p) (selectedProductID st)) products = Some p ->
  (forall pre existing post,
      items st = pre ++ existing :: post ->
      Forall (fun i => item_productId i <> product_id p) pre ->
      item_productId existing = product_id p ->
      exists merged,
        items (addItem products now st) = pre ++ merged :: post
        /\ item_quantity merged = item_quantity existing + qty st
        /\ item_amount merged = item_quantity merged * item_rate merged
        /\ item_rate merged = item_rate existing
        /\ item_productId merged = item_productId existing
        /\ item_id merged = item_id existing
        /\ List.length (items (addItem products now st)) = List.length (items st))
  /\ (Forall (fun i => item_productId i <> product_id p) (items st) ->
      items (addItem products now st)
      = items st ++
        [mkItem (Number_toString now) (product_id p) (product_name p) (qty st)
           (product_unit p) (product_rate p) (qty st * product_rate p)
           (product_packing p)])
  /\ (NoDup (map item_productId (items st)) ->
      NoDup (map item_productId (items (addItem products now st))))
  /\ (forall (q1 q2 : Q) (now1 now2 : Z) (st0 : State),
         items st0 = [] ->
         items (addItem products now2
                  (setQty q2 (setSelectedProductID (selectedProductID st)
                     (addItem products now1
                        (setQty q1 (setSelectedProductID (selectedProductID st) st0))))))
         = [mkItem (Number_toString now1) (product_id p) (product_name p) (q1 + q2)
              (product_unit p) (product_rate p) ((q1 + q2) * product_rate p)
              (product_packing p)]).
Proof.
  intros Hsel Hfind. split; [|split; [|split]].
  - intros pre existing post Hitems Hpre Hex.
    exists (with_quantity existing (item_quantity existing + qty st)).
    rewrite (addItem_merge products now st p pre existing post Hsel Hfind Hitems Hpre Hex).
    repeat (split; [reflexivity|]).
    rewrite Hitems, !length_app. reflexivity.
  - intros Hnone. exact (addItem_append products now st p Hsel Hfind Hnone).
  - apply addItem_no_duplicate.
  - intros q1 q2 now1 now2 st0 Hempty.
    exact (addItem_twice products p _ q1 q2 now1 now2 st0 Hsel Hfind Hempty).
Qed.

(* ------------------------------------------------------------------ *)
(** ** Saving locks the cart *)

Ltac break_match :=
  repeat match goal with
         | |- context [if ?c then _ else _] => destruct c eqn:?
         | |- context [match ?x with _ => _ end] => destruct x eqn:?
         end.

Lemma deps_changed_same (w : World) : deps_changed w w = false.
Proof.
  unfold deps_changed. rewrite Z.eqb_refl, Bool.eqb_reflx. reflexivity.
Qed.

Lemma run_effects_same (w : World) : run_effects w w = w.
Proof. unfold run_effects. rewrite deps_changed_same. reflexivity. Qed.

Lemma handleSave_begin_run (settings : BusinessSettings) (s : State) :
  (List.length (items s) =? 0)%nat = false ->
  run_cmds (handleSave_begin settings s) s
  = (setIsSaved true (setIsSaving true s),
     [(build_invoice settings s, setIsSaved true (setIsSaving true s))]).
Proof.
  intros Hne. unfold handleSave_begin, run_cmds. rewrite Hne. reflexivity.
Qed.

Lemma save_enabled_fields (s : State) :
  save_disabled s = false ->
  (List.length (items s) =? 0)%nat = false /\ isSaved s = false
  /\ String.eqb (trim (customerName s)) "" = false /\ isSaving s = false.
Proof.
  unfold save_disabled. intros H.
  repeat (apply orb_false_iff in H; destruct H as [H ?]). auto.
Qed.

Lemma dispatch_ClickSave (w : World) :
  save_disabled (st w) = false ->
  dispatch w ClickSave
  = mkWorld (settings w) (products w) (customers w)
            (setIsSaved true (setIsSaving true (st w))) (Some (settings w)).
Proof.
  intros Hen. destruct (save_enabled_fields _ Hen) as (Hne & Hsaved & _ & _).
  unfold dispatch, handle. rewrite Hen, (handleSave_begin_run _ _ Hne).
  unfold run_effects, deps_changed. cbn [settings st isSaved setIsSaved].
  rewrite Z.eqb_refl, Hsaved. cbn. reflexivity.
Qed.

Lemma locked_edit_noop (w : World) (e : Event) :
  isSaved (st w) = true -> is_edit e = true -> dispatch w e = w.
Proof.
  intros Hlock He. unfold dispatch.
  assert (Hh : handle w e = w).
  { destruct e; try discriminate He; cbn [handle]; rewrite Hlock; reflexivity. }
  rewrite Hh. apply run_effects_same.
Qed.


Lemma syncBillNo_locked (settings : BusinessSettings) (s : State) :
  isSaved s = true -> syncBillNo settings s = s.
Proof. intros H. unfold syncBillNo. rewrite H. reflexivity. Qed.

Lemma dispatch_products (w : World) (e : Event) :
  products (dispatch w e) = products w /\ customers (dispatch w e) = customers w.
Proof.
  unfold dispatch, run_effects.
  assert (Hh : products (handle w e) = products w
               /\ customers (handle w e) = customers w).
  { destruct e; cbn [handle]; break_match; split; reflexivity. }
  destruct (deps_changed w (handle w e)); cbn; exact Hh.
Qed.

Lemma dispatch_all_products (w : World) (es : list Event) :
  products (dispatch_all w es) = products w.
Proof.
  revert w. induction es as [|e es IH]; intros w; [reflexivity|].
  unfold dispatch_all in *. cbn [fold_left]. rewrite IH.
  apply dispatch_products.
Qed.

(** A step that is neither a reset nor a failed save keeps a locked cart
    locked and leaves the bill as it is. *)
Lemma locked_step (w : World) (e : Event) :
  isSaved (st w) = true -> is_unlock e = false ->
  isSaved (st (dispatch w e)) = true /\ same_bill (st w) (st (dispatch w e)).
Proof.
  intros Hlock He.
  assert (Hh : isSaved (st (handle w e)) = true
               /\ same_bill (st w) (st (handle w e))).
  { unfold same_bill.
    destruct e; try discriminate He; cbn [handle];
      try (rewrite Hlock; repeat split; reflexivity || exact Hlock).
    - unfold save_disabled. rewrite Hlock, orb_true_r. cbn.
      repeat split; reflexivity || exact Hlock.
    - destruct doc_ok; [|discriminate He].
      destruct (inflight w); cbn; repeat split; reflexivity || exact Hlock.
    - cbn. repeat split; reflexivity || exact Hlock. }
  unfold dispatch, run_effects.
  destruct (deps_changed w (handle w e)); [|exact Hh].
  cbn [st with_st]. rewrite (syncBillNo_locked _ _ (proj1 Hh)). exact Hh.
Qed.

Lemma same_bill_trans (s1 s2 s3 : State) :
  same_bill s1 s2 -> same_bill s2 s3 -> same_bill s1 s3.
Proof.
  unfold same_bill. intros (A1 & A2 & A3 & A4 & A5) (B1 & B2 & B3 & B4 & B5).
  repeat split; congruence.
Qed.

Lemma locked_steps (w : World) (es : list Event) :
  isSaved (st w) = true -> Forall (fun e => is_unlock e = false) es ->
  isSaved (st (dispatch_all w es)) = true
  /\ same_bill (st w) (st (dispatch_all w es)).
Proof.
  intros Hlock Hes. revert w Hlock.
  induction Hes as [|e es He _ IH]; intros w Hlock.
  - split; [exact Hlock|]. unfold same_bill. repeat split; reflexivity.
  - unfold dispatch_all in *. cbn [fold_left].
    destruct (locked_step w e Hlock He) as [Hl1 Hb1].
    destruct (IH _ Hl1) as [Hl2 Hb2].
    split; [exact Hl2|]. exact (same_bill_trans _ _ _ Hb1 Hb2).
Qed.

Lemma dispatch_ClickNewBill (w : World) (today : string) :
  isSaved (st w) = true ->
  dispatch w (ClickNewBill today)
  = with_st w (setBillNo (Number_toString (nextInvoiceNumber (settings w)))
                 (resetForm today (st w))).
Proof.
  intros Hlock. unfold dispatch. cbn [handle]. rewrite Hlock.
  unfold run_effects, deps_changed. cbn. rewrite Z.eqb_refl, Hlock. reflexivity.
Qed.

Lemma addItem_isSaved (products : list Product) (now : Z) (s : State) :
  isSaved s = false -> isSaved (addItem products now s) = false.
Proof. intros H. unfold addItem. break_match; cbn; auto. Qed.

Lemma dispatch_ClickAddItem (w : World) (now : Z) :
  isSaved (st w) = false ->
  dispatch w (ClickAddItem now) = with_st w (addItem (products w) now (st w)).
Proof.
  intros Hun. unfold dispatch. cbn [handle]. rewrite Hun.
  unfold run_effects, deps_changed. cbn [settings st with_st].
  rewrite Z.eqb_refl, Hun, (addItem_isSaved _ _ _ Hun). reflexivity.
Qed.

Lemma dispatch_SelectProduct (w : World) (v : string) :
  isSaved (st w) = false ->
  dispatch w (SelectProduct v) = with_st w (setSelectedProductID v (st w)).
Proof.
  intros Hun. unfold dispatch. cbn [handle]. rewrite Hun.
  unfold run_effects, deps_changed. cbn. rewrite Z.eqb_refl, Hun. reflexivity.
Qed.

Lemma add_after_reset (w : World) (today pid : string) (now : Z) (p : Product) :
  isSaved (st w) = true ->
  pid <> ""%string ->
  find (fun x => String.eqb (product_id x) pid) (products w) = Some p ->
  let w1 := dispatch w (ClickNewBill today) in
  let w2 := dispatch (dispatch w1 (SelectProduct pid)) (ClickAddItem now) in
  isSaved (st w1) = false /\ items (st w1) = []
  /\ items (st w2)
     = [mkItem (Number_toString now) (product_id p) (product_name p) (qty (st w))
          (product_unit p) (product_rate p) (qty (st w) * product_rate p)
          (product_packing p)].
Proof.
  intros Hlock Hpid Hfind w1 w2. subst w2 w1.
  rewrite (dispatch_ClickNewBill w today Hlock).
  split; [reflexivity|]. split; [reflexivity|].
  rewrite dispatch_SelectProduct by reflexivity.
  rewrite dispatch_ClickAddItem by reflexivity.
  cbn [st with_st products].
  rewrite (addItem_append (products w) now _ p); [reflexivity | exact Hpid | exact Hfind |].
  constructor.
Qed.

(** The handlers themselves do not look at [isSaved], and clear it: the lock
    is the [disabled] of the controls, which [handle] renders. *)
Lemma handlers_carry_no_guard :
  (forall id delta s, isSaved (updateItemQty id delta s) = false)
  /\ (forall id s, isSaved (removeItem id s) = false)
  /\ (forall v s, isSaved (changeCustomerName v s) = false)
  /\ (forall v s, isSaved (changeCustomerCity v s) = false)
  /\ items (addItem Sample.catalog 9 (setIsSaved true Sample.adding_rice))
     = [with_quantity Sample.line_rice (2 + 3); Sample.line_dal]
  /\ isSaved (addItem Sample.catalog 9 (setIsSaved true Sample.adding_rice)) = false.
Proof. repeat split. Qed.

(** C2.  When Save is pressed on a cart that can be saved, [isSaved] is set
    before the persistence callback is called; from then on, as long as no
    reset happens and no save fails, the cart stays locked and its lines,
    bill number and header fields do not change, whatever the user does and
    whatever settings arrive; on a locked cart every add, quantity, remove
    and header event leaves the component exactly as it is; after New Bill
    the cart is unlocked and adding a product works again. *)
Theorem save_locks_cart (w : World) :
  save_disabled (st w) = false ->
  (exists pending,
      run_cmds (handleSave_begin (settings w) (st w)) (st w)
      = (pending, [(build_invoice (settings w) (st w), pending)])
      /\ isSaved pending = true)
  /\ isSaved (st (dispatch w ClickSave)) = true
  /\ (forall es : list Event,
         Forall (fun e => is_unlock e = false) es ->
         isSaved (st (dispatch_all (dispatch w ClickSave) es)) = true
         /\ same_bill (st w) (st (dispatch_all (dispatch w ClickSave) es)))
  /\ (forall (w' : World) (e : Event),
         isSaved (st w') = true -> is_edit e = true -> dispatch w' e = w')
  /\ (forall (es : list Event) (today pid : string) (now : Z) (p : Product),
         Forall (fun e => is_unlock e = false) es ->
         pid <> ""%string ->
         find (fun x => String.eqb (product_id x) pid) (products w) = Some p ->
         let locked := dispatch_all (dispatch w ClickSave) es in
         let fresh := dispatch locked (ClickNewBill today) in
         let added := dispatch (dispatch fresh (SelectProduct pid)) (ClickAddItem now) in
         isSaved (st fresh) = false /\ items (st fresh) = []
         /\ items (st added)
            = [mkItem (Number_toString now) (product_id p) (product_name p)
                 (qty (st locked)) (product_unit p) (product_rate p)
                 (qty (st locked) * product_rate p) (product_packing p)]).
Proof.
  intros Hen.
  destruct (save_enabled_fields _ Hen) as (Hne & Hsaved & Hname & Hsaving).
  assert (Hlock1 : isSaved (st (dispatch w ClickSave)) = true)
    by (rewrite (dispatch_ClickSave w Hen); reflexivity).
  assert (Hbill1 : same_bill (st w) (st (dispatch w ClickSave)))
    by (rewrite (dispatch_ClickSave w Hen); unfold same_bill; repeat split; reflexivity).
  split; [|split; [|split; [|split]]].
  - eexists. split; [apply handleSave_begin_run; exact Hne | reflexivity].
  - exact Hlock1.
  - intros es Hes.
    destruct (locked_steps _ es Hlock1 Hes) as [Hl Hb].
    split; [exact Hl | exact (same_bill_trans _ _ _ Hbill1 Hb)].
  - intros w' e. apply locked_edit_noop.
  - intros es today pid now p Hes Hpid Hfind locked fresh added.
    destruct (locked_steps _ es Hlock1 Hes) as [Hl _].
    apply add_after_reset; [exact Hl | exact Hpid |].
    subst locked. rewrite dispatch_all_products.
    rewrite (proj1 (dispatch_products w ClickSave)). exact Hfind.
Qed.

(* ------------------------------------------------------------------ *)
(** ** A failed save gives the cart back *)

Lemma handle_billNo (w : World) (e : Event) :
  billNo (st (handle w e)) = billNo (st w).
Proof.
  destruct e; cbn [handle].
  12:{ destruct (save_disabled (st w)); [reflexivity|].
       unfold handleSave_begin, run_cmds.
       destruct (List.length (items (st w)) =? 0)%nat; reflexivity. }
  12:{ destruct (inflight w); [|reflexivity]. destruct doc_ok; reflexivity. }
  all: unfold addItem, handleCustomerSelect; break_match; reflexivity.
Qed.

Lemma synced_dispatch (w : World) (e : Event) :
  synced w -> synced (dispatch w e).
Proof.
  intros Hs. unfold dispatch, run_effects.
  destruct (deps_changed w (handle w e)) eqn:Hd.
  - unfold synced, syncBillNo. cbn [st with_st settings].
    destruct (isSaved (st (handle w e))) eqn:Hsv; cbn; [rewrite Hsv|]; intros H.
    + discriminate H.
    + reflexivity.
  - unfold deps_changed in Hd. apply orb_false_iff in Hd. destruct Hd as [Hn Hi].
    apply negb_false_iff in Hn, Hi.
    apply Z.eqb_eq in Hn. apply Bool.eqb_prop in Hi.
    unfold synced in *. intros Hun.
    rewrite handle_billNo, <- Hn. apply Hs. rewrite Hi. exact Hun.
Qed.

Lemma reachable_synced (w : World) : reachable w -> synced w.
Proof.
  induction 1 as [settings products customers today | w e _ IH].
  - intros _. reflexivity.
  - apply synced_dispatch, IH.
Qed.



(* ------------------------------------------------------------------ *)
(** ** Amount in words *)

Import Words.

Lemma decimal_fuel_grows (fuel : nat) (n : Z) (acc : string) :
  (String.length acc <= String.length (decimal_fuel fuel n acc))%nat.
Proof.
  revert n acc. induction fuel as [|f IH]; intros n acc; cbn [decimal_fuel].
  - lia.
  - destruct (n <? 10)%Z.
    + cbn [String.length]. lia.
    + specialize (IH (n / 10)%Z (String (digit_char (n mod 10)) acc)).
      cbn [String.length] in IH. lia.
Qed.

Lemma decimal_fuel_long (k : nat) :
  forall (fuel : nat) (n : Z) (acc : string),
    (10 ^ Z.of_nat k <= n)%Z -> (k < fuel)%nat ->
    (k + 1 + String.length acc <= String.length (decimal_fuel fuel n acc))%nat.
Proof.
  induction k as [|k IH]; intros fuel n acc Hn Hfuel.
  - destruct fuel as [|f]; [lia|]. cbn [decimal_fuel].
    destruct (n <? 10)%Z.
    + cbn [String.length]. lia.
    + pose proof (decimal_fuel_grows f (n / 10)
                    (String (digit_char (n mod 10)) acc)) as H.
      cbn [String.length] in H. lia.
  - destruct fuel as [|f]; [lia|]. cbn [decimal_fuel].
    rewrite Nat2Z.inj_succ, Z.pow_succ_r in Hn by lia.
    assert (Hpos : (0 < 10 ^ Z.of_nat k)%Z) by (apply Z.pow_pos_nonneg; lia).
    replace (n <? 10)%Z with false by (symmetry; apply Z.ltb_ge; lia).
    assert (Hdiv : (10 ^ Z.of_nat k <= n / 10)%Z)
      by (apply Z.div_le_lower_bound; lia).
    specialize (IH f (n / 10)%Z (String (digit_char (n mod 10)) acc) Hdiv).
    cbn [String.length] in IH. lia.
Qed.

Lemma decimal_long (k : nat) (n : Z) :
  (10 ^ Z.of_nat k <= n)%Z -> (k + 1 <= String.length (decimal n))%nat.
Proof.
  intros Hn. unfold decimal.
  assert (Hpos : (0 < 10 ^ Z.of_nat k)%Z) by (apply Z.pow_pos_nonneg; lia).
  assert (Hlog : (Z.of_nat k <= Z.log2 n)%Z).
  { apply Z.log2_le_pow2; [lia|].
    transitivity (10 ^ Z.of_nat k)%Z; [|exact Hn].
    apply Z.pow_le_mono_l. lia. }
  pose proof (decimal_fuel_long k (S (Z.to_nat (Z.log2 n))) n EmptyString Hn) as H.
  cbn [String.length] in H. lia.
Qed.

Lemma Number_toString_decimal (n : Z) :
  (0 <= n < 10 ^ 21)%Z -> Number_toString n = decimal n.
Proof.
  intros [H0 H1]. unfold Number_toString.
  replace (n <? 0)%Z with false by (symmetry; apply Z.ltb_ge; lia).
  replace (n <? 10 ^ 21)%Z with true by (symmetry; apply Z.ltb_lt; lia).
  reflexivity.
Qed.

(** *** The digits printed for a number denote it *)

Lemma append_assoc (a b c : string) :
  ((a ++ b) ++ c)%string = (a ++ (b ++ c))%string.
Proof. induction a as [|x a IH]; cbn; [reflexivity|]. f_equal. exact IH. Qed.


Lemma decimal_fuel_acc (fuel : nat) (n : Z) (acc : string) :
  decimal_fuel fuel n acc = (decimal_fuel fuel n EmptyString ++ acc)%string.
Proof.
  revert n acc. induction fuel as [|f IH]; intros n acc; cbn [decimal_fuel].
  - reflexivity.
  - destruct (n <? 10)%Z; [reflexivity|].
    rewrite (IH _ (String _ acc)), (IH _ (String _ EmptyString)).
    rewrite append_assoc. reflexivity.
Qed.

Lemma digit_char_value (d : Z) :
  (0 <= d < 10)%Z -> (Z.of_nat (nat_of_ascii (digit_char d)) - 48)%Z = d.
Proof.
  intros Hd. unfold digit_char.
  rewrite nat_ascii_embedding by lia. lia.
Qed.

Lemma digit_char_is_digit (d : Z) :
  (0 <= d < 10)%Z -> is_digit (digit_char d) = true.
Proof.
  intros Hd. unfold is_digit, digit_char.
  rewrite nat_ascii_embedding by lia.
  apply andb_true_iff. split; apply Nat.leb_le; lia.
Qed.

Lemma digits_value_acc_app (s t : string) (a : Z) :
  digits_value_acc (s ++ t) a = digits_value_acc t (digits_value_acc s a).
Proof.
  revert a. induction s as [|c r IH]; intros a; cbn; [reflexivity|]. apply IH.
Qed.

Lemma all_digits_app (s t : string) :
  all_digits (s ++ t) = all_digits s && all_digits t.
Proof.
  induction s as [|c r IH]; cbn; [reflexivity|].
  rewrite IH, andb_assoc. reflexivity.
Qed.

Lemma length_app_string (s t : string) :
  String.length (s ++ t) = (String.length s + String.length t)%nat.
Proof. induction s as [|c r IH]; cbn; [reflexivity|]. rewrite IH. reflexivity. Qed.

(** With enough fuel the digits are decimal digits, they denote the number,
    and there are at most [fuel] of them. *)
Lemma decimal_fuel_S (f : nat) (n : Z) (acc : string) :
  decimal_fuel (S f) n acc
  = if (n <? 10)%Z then String (digit_char (n mod 10)) acc
    else decimal_fuel f (n / 10) (String (digit_char (n mod 10)) acc).
Proof. reflexivity. Qed.

Lemma decimal_fuel_spec (f : nat) :
  forall n : Z,
    (0 <= n < 10 ^ Z.of_nat (S f))%Z ->
    digits_value (decimal_fuel (S f) n EmptyString) = n
    /\ all_digits (decimal_fuel (S f) n EmptyString) = true
    /\ (1 <= String.length (decimal_fuel (S f) n EmptyString) <= S f)%nat.
Proof.
  induction f as [|f IH]; intros n Hn;
    assert (Hmod : (0 <= n mod 10 < 10)%Z) by (apply Z.mod_pos_bound; lia);
    rewrite decimal_fuel_S; destruct (n <? 10)%Z eqn:E.
  - apply Z.ltb_lt in E. rewrite Z.mod_small by lia.
    unfold digits_value. cbn [digits_value_acc all_digits String.length].
    rewrite digit_char_value, digit_char_is_digit by lia.
    repeat split; lia.
  - apply Z.ltb_ge in E. change (10 ^ Z.of_nat 1)%Z with 10%Z in Hn. lia.
  - apply Z.ltb_lt in E. rewrite Z.mod_small by lia.
    unfold digits_value. cbn [digits_value_acc all_digits String.length].
    rewrite digit_char_value, digit_char_is_digit by lia.
    repeat split; lia.
  - apply Z.ltb_ge in E.
    rewrite Nat2Z.inj_succ, Z.pow_succ_r in Hn by lia.
    assert (Hdiv : (0 <= n / 10 < 10 ^ Z.of_nat (S f))%Z).
    { split; [apply Z.div_pos; lia|]. apply Z.div_lt_upper_bound; lia. }
    destruct (IH _ Hdiv) as (Hv & Hd & Hl).
    rewrite decimal_fuel_acc. unfold digits_value in *.
    rewrite digits_value_acc_app, all_digits_app, length_app_string, Hv, Hd.
    cbn [digits_value_acc all_digits String.length andb].
    rewrite digit_char_value, digit_char_is_digit by lia.
    pose proof (Z.div_mod n 10 ltac:(lia)).
    repeat split; lia.
Qed.

Lemma decimal_fuel_enough (f fuel' : nat) (n : Z) :
  (0 <= n < 10 ^ Z.of_nat (S f))%Z -> (S f <= fuel')%nat ->
  decimal_fuel fuel' n EmptyString = decimal_fuel (S f) n EmptyString.
Proof.
  revert fuel' n. induction f as [|f IH]; intros fuel' n Hn Hle;
    (destruct fuel' as [|f']; [lia|]);
    rewrite (decimal_fuel_S f'), (decimal_fuel_S _ n EmptyString);
    destruct (n <? 10)%Z eqn:E; try reflexivity; apply Z.ltb_ge in E.
  - change (10 ^ Z.of_nat 1)%Z with 10%Z in Hn. lia.
  - rewrite Nat2Z.inj_succ, Z.pow_succ_r in Hn by lia.
    assert (Hdiv : (0 <= n / 10 < 10 ^ Z.of_nat (S f))%Z).
    { split; [apply Z.div_pos; lia|]. apply Z.div_lt_upper_bound; lia. }
    rewrite (decimal_fuel_acc f'), (decimal_fuel_acc (S f)).
    rewrite (IH f' _ Hdiv) by lia. reflexivity.
Qed.

Lemma decimal_fuel_sufficient (n : Z) :
  (0 <= n)%Z -> (n < 10 ^ Z.of_nat (S (Z.to_nat (Z.log2 n))))%Z.
Proof.
  intros Hn. destruct (Z.eq_dec n 0) as [->|Hnz]; [reflexivity|].
  assert (Hlog : (0 <= Z.log2 n)%Z) by apply Z.log2_nonneg.
  rewrite Nat2Z.inj_succ, Z2Nat.id by lia.
  apply Z.lt_le_trans with (2 ^ Z.succ (Z.log2 n))%Z.
  - apply Z.log2_spec. lia.
  - apply Z.pow_le_mono_l. lia.
Qed.

(** [decimal] prints digits that denote the number; below [10^k] there are
    at most [k] of them. *)
Lemma decimal_spec (n : Z) :
  (0 <= n)%Z ->
  digits_value (decimal n) = n /\ all_digits (decimal n) = true.
Proof.
  intros Hn. unfold decimal.
  destruct (decimal_fuel_spec _ n (conj Hn (decimal_fuel_sufficient n Hn)))
    as (Hv & Hd & _).
  split; assumption.
Qed.

Lemma decimal_short (k : nat) (n : Z) :
  (1 <= k)%nat ->
  (0 <= n < 10 ^ Z.of_nat k)%Z -> (String.length (decimal n) <= k)%nat.
Proof.
  intros Hk Hn. unfold decimal.
  destruct k as [|k]; [lia|].
  destruct (Nat.le_gt_cases (S k) (S (Z.to_nat (Z.log2 n)))) as [Hle|Hgt].
  - rewrite (decimal_fuel_enough k _ n Hn Hle).
    apply (decimal_fuel_spec k n Hn).
  - pose proof (decimal_fuel_spec _ n
                  (conj (proj1 Hn) (decimal_fuel_sufficient n (proj1 Hn)))) as H.
    lia.
Qed.

Lemma length_drop (k : nat) (s : string) :
  String.length (drop k s) = (String.length s - k)%nat.
Proof.
  revert s. induction k as [|k IH]; intros s; cbn [drop].
  - lia.
  - destruct s as [|c r]; cbn [String.length]; [reflexivity|]. apply IH.
Qed.

Lemma all_digits_drop (k : nat) (s : string) :
  all_digits s = true -> all_digits (drop k s) = true.
Proof.
  revert s. induction k as [|k IH]; intros s H; cbn [drop]; [exact H|].
  destruct s as [|c r]; [reflexivity|].
  cbn in H. apply andb_true_iff in H. apply IH, H.
Qed.

(** Below 10^9 the length test does not fire and the nine-digit pattern
    matches: the result is spelled from the five digit groups. *)
Lemma inWords_in_range (n : Z) :
  (0 <= n < 10 ^ 9)%Z ->
  (String.length (Number_toString n) <= 9)%nat
  /\ exists g1 g2 g3 g4 g5,
       match_groups (slice_last 9 ("000000000" ++ Number_toString n))
       = Some (g1, g2, g3, g4, g5).
Proof.
  intros Hn. rewrite Number_toString_decimal by lia.
  pose proof (decimal_short 9 n ltac:(lia) Hn) as Hlen.
  destruct (decimal_spec n (proj1 Hn)) as [_ Hdig].
  split; [exact Hlen|].
  unfold match_groups.
  assert (Hl : String.length (slice_last 9 ("000000000" ++ decimal n)) = 9%nat).
  { unfold slice_last. rewrite length_drop, length_app_string.
    cbn [String.length]. lia. }
  assert (Hd : all_digits (slice_last 9 ("000000000" ++ decimal n)) = true).
  { unfold slice_last. apply all_digits_drop.
    rewrite all_digits_app, Hdig. reflexivity. }
  rewrite Hl, Hd. cbn [Nat.eqb andb]. eauto 10.
Qed.

Lemma numberToWords_zero : numberToWords 0 = "Zero"%string.
Proof. reflexivity. Qed.

Lemma numberToWords_hundred : numberToWords 100 = "One Hundred Only"%string.
Proof. reflexivity. Qed.

Lemma numberToWords_suffix (n : Z) :
  n <> 0%Z -> exists w, numberToWords n = (w ++ "Only")%string.
Proof.
  intros Hn. exists (inWords n). unfold numberToWords.
  apply Z.eqb_neq in Hn. rewrite Hn. reflexivity.
Qed.

(** Between 10^9 and 10^21 the digit string is longer than nine characters
    and the marker is returned. *)
Lemma numberToWords_overflow (n : Z) :
  (10 ^ 9 <= n < 10 ^ 21)%Z -> numberToWords n = "overflowOnly"%string.
Proof.
  intros [Hlo Hhi]. unfold numberToWords, inWords.
  replace (n =? 0)%Z with false by (symmetry; apply Z.eqb_neq; lia).
  rewrite Number_toString_decimal by lia.
  pose proof (decimal_long 9 n Hlo) as Hlen.
  replace (9 <? String.length (decimal n))%nat with true
    by (symmetry; apply Nat.ltb_lt; lia).
  reflexivity.
Qed.

(** C6, the input on which the code misses its own overflow test: 10^21 is
    printed as [1e+21], five characters, so the length test lets it through,
    the nine-digit pattern does not match, and the result is the bare suffix
    with no marker in it.  A bill of one line of 10^21 units at 1 a piece
    gets these words. *)
Theorem numberToWords_misses_overflow :
  Number_toString (10 ^ 21) = "1e+21"%string
  /\ inWords (10 ^ 21) = ""%string
  /\ numberToWords (10 ^ 21) = "Only"%string
  /\ includes (numberToWords (10 ^ 21)) "overflow" = false
  /\ amountInWords
       (Template.totalAmount Sample.shop_no_gst None [Sample.line_bulk])
     = "Only"%string.
Proof. vm_compute. repeat split. Qed.

(* ------------------------------------------------------------------ *)
(** ** Weight summary *)



























(* ------------------------------------------------------------------ *)
(** ** History: search *)


(* ------------------------------------------------------------------ *)
(** ** History: sort *)

Lemma insert_by_perm (cmp : Invoice -> Invoice -> option Z) (x : Invoice)
      (l : list Invoice) :
  Permutation (insert_by cmp x l) (x :: l).
Proof.
  induction l as [|y r IH]; cbn [insert_by]; [apply Permutation_refl|].
  destruct (0 <? match cmp x y with Some v => v | None => 0 end)%Z.
  - apply Permutation_trans with (y :: x :: r).
    + apply perm_skip, IH.
    + apply perm_swap.
  - apply Permutation_refl.
Qed.

Lemma sort_by_perm (cmp : Invoice -> Invoice -> option Z) (l : list Invoice) :
  Permutation (sort_by cmp l) l.
Proof.
  induction l as [|x r IH]; cbn; [constructor|].
  apply Permutation_trans with (x :: sort_by cmp r).
  - apply insert_by_perm.
  - apply perm_skip, IH.
Qed.

Lemma compare_ids_numeric (a b : Invoice) :
  numeric_id a -> numeric_id b ->
  compare_ids a b = Some (id_number b - id_number a)%Z.
Proof.
  unfold numeric_id, compare_ids, id_number. intros Ha Hb.
  destruct (parseInt (inv_id a)); [|contradiction].
  destruct (parseInt (inv_id b)); [|contradiction]. reflexivity.
Qed.

Lemma insert_by_sorted (x : Invoice) (l : list Invoice) :
  numeric_id x -> Forall numeric_id l ->
  StronglySorted id_desc l ->
  StronglySorted id_desc (insert_by compare_ids x l).
Proof.
  intros Hx Hl Hs. induction Hs as [|y r Hr IH Hy]; cbn [insert_by].
  - constructor; constructor.
  - inversion Hl as [|? ? Hny Hnr]; subst.
    rewrite (compare_ids_numeric x y Hx Hny).
    destruct (0 <? id_number y - id_number x)%Z eqn:E.
    + apply Z.ltb_lt in E. constructor; [apply IH; exact Hnr|].
      apply (Permutation_Forall (Permutation_sym (insert_by_perm compare_ids x r))).
      constructor; [unfold id_desc; lia | exact Hy].
    + apply Z.ltb_ge in E. constructor; [constructor; assumption|].
      constructor; [unfold id_desc; lia|].
      eapply Forall_impl; [|exact Hy]. unfold id_desc. intros z Hz. lia.
Qed.

Lemma sort_by_sorted (l : list Invoice) :
  Forall numeric_id l -> StronglySorted id_desc (sort_by compare_ids l).
Proof.
  induction 1 as [|x r Hx Hr IH]; cbn; [constructor|].
  apply insert_by_sorted; [exact Hx | | exact IH].
  apply (Permutation_Forall (Permutation_sym (sort_by_perm compare_ids r))).
  exact Hr.
Qed.

(* ------------------------------------------------------------------ *)
(** ** History: the calendar *)

Lemma is_leap_cases (y : Z) :
  (is_leap y = true /\ (y mod 4 = 0 /\ y mod 100 <> 0 \/ y mod 400 = 0)%Z)
  \/ (is_leap y = false /\ ~ (y mod 4 = 0 /\ y mod 100 <> 0 \/ y mod 400 = 0)%Z).
Proof.
  unfold is_leap.
  destruct (y mod 4 =? 0)%Z eqn:E4, (y mod 100 =? 0)%Z eqn:E100,
    (y mod 400 =? 0)%Z eqn:E400; cbn;
    rewrite ?Z.eqb_eq, ?Z.eqb_neq in *; [left|right|left|left|left|right|left|right];
    split; try reflexivity; lia.
Qed.

Lemma DayFromYear_succ (y : Z) :
  DayFromYear (y + 1) = (DayFromYear y + 365 + (if is_leap y then 1 else 0))%Z.
Proof.
  unfold DayFromYear.
  destruct (is_leap_cases y) as [[Hl Hc] | [Hl Hc]]; rewrite Hl;
    Z.to_euclidean_division_equations; lia.
Qed.

Lemma DayFromYear_mono (y y' : Z) :
  (y <= y')%Z -> (DayFromYear y <= DayFromYear y')%Z.
Proof.
  intros H. unfold DayFromYear. Z.to_euclidean_division_equations. lia.
Qed.

(** The calendar table: for each month, the days before it and its length. *)
Lemma month_table (y m : Z) :
  (1 <= m <= 12)%Z ->
  forall l : Z, l = (if is_leap y then 1 else 0)%Z ->
  let before := days_before_month (is_leap y) (m - 1) in
  let len := days_in_month y m in
  (m = 1 /\ before = 0 /\ len = 31
   \/ m = 2 /\ before = 31 /\ len = 28 + l
   \/ m = 3 /\ before = 59 + l /\ len = 31
   \/ m = 4 /\ before = 90 + l /\ len = 30
   \/ m = 5 /\ before = 120 + l /\ len = 31
   \/ m = 6 /\ before = 151 + l /\ len = 30
   \/ m = 7 /\ before = 181 + l /\ len = 31
   \/ m = 8 /\ before = 212 + l /\ len = 31
   \/ m = 9 /\ before = 243 + l /\ len = 30
   \/ m = 10 /\ before = 273 + l /\ len = 31
   \/ m = 11 /\ before = 304 + l /\ len = 30
   \/ m = 12 /\ before = 334 + l /\ len = 31)%Z.
Proof.
  intros Hm l Hl. unfold days_in_month. subst l.
  assert (Hc : (m = 1 \/ m = 2 \/ m = 3 \/ m = 4 \/ m = 5 \/ m = 6 \/ m = 7
                \/ m = 8 \/ m = 9 \/ m = 10 \/ m = 11 \/ m = 12)%Z) by lia.
  destruct (is_leap y);
    repeat (destruct Hc as [Hc | Hc];
            [subst m; repeat first [left; solve [repeat split; reflexivity] | right];
             repeat split; reflexivity|]);
    subst m; repeat right; repeat split; reflexivity.
Qed.

(** The day of the year of a valid date lies inside the year. *)
Lemma day_of_year_bounds (y m d : Z) :
  valid_civil y m d ->
  (0 <= days_before_month (is_leap y) (m - 1) + d - 1
   < 365 + (if is_leap y then 1 else 0))%Z.
Proof.
  intros (_ & Hm & Hd).
  pose proof (month_table y m Hm _ eq_refl) as Ht. cbv zeta in Ht.
  destruct (is_leap y); lia.
Qed.

Lemma days_before_month_step (y m d m' : Z) :
  (1 <= m < m' /\ m' <= 12)%Z ->
  (1 <= d <= days_in_month y m)%Z ->
  (days_before_month (is_leap y) (m - 1) + d - 1
   < days_before_month (is_leap y) (m' - 1))%Z.
Proof.
  intros Hm Hd.
  pose proof (month_table y m ltac:(lia) _ eq_refl) as Ht.
  pose proof (month_table y m' ltac:(lia) _ eq_refl) as Ht'.
  cbv zeta in Ht, Ht'.
  destruct (is_leap y); lia.
Qed.

Lemma MakeDay_valid (y m d : Z) :
  (1 <= m <= 12)%Z ->
  MakeDay y (m - 1) d
  = (DayFromYear y + days_before_month (is_leap y) (m - 1) + d - 1)%Z.
Proof.
  intros Hm. unfold MakeDay.
  replace ((m - 1) / 12)%Z with 0%Z by (symmetry; apply Z.div_small; lia).
  rewrite Z.mod_small by lia. rewrite Z.add_0_r. reflexivity.
Qed.

(** Strictly earlier dates have strictly smaller day numbers. *)
Lemma MakeDay_lt (y m d y' m' d' : Z) :
  valid_civil y m d -> valid_civil y' m' d' ->
  (y < y' \/ (y = y' /\ (m < m' \/ (m = m' /\ d < d'))))%Z ->
  (MakeDay y (m - 1) d < MakeDay y' (m' - 1) d')%Z.
Proof.
  intros Hv Hv' Hlt.
  pose proof (day_of_year_bounds y m d Hv) as Hb.
  pose proof (day_of_year_bounds y' m' d' Hv') as Hb'.
  destruct Hv as (Hy & Hm & Hd). destruct Hv' as (Hy' & Hm' & Hd').
  rewrite !MakeDay_valid by assumption.
  destruct Hlt as [Hlt | [Heq [Hlt | [Heq' Hlt]]]].
  - pose proof (DayFromYear_succ y) as Hs.
    pose proof (DayFromYear_mono (y + 1) y' ltac:(lia)) as Hmono. lia.
  - subst y'.
    pose proof (days_before_month_step y m d m' ltac:(lia) Hd) as Hstep. lia.
  - subst y' m'. lia.
Qed.

Lemma MakeDay_le_iff (y m d y' m' d' : Z) :
  valid_civil y m d -> valid_civil y' m' d' ->
  (MakeDay y (m - 1) d <= MakeDay y' (m' - 1) d')%Z
  <-> civil_le (y, m, d) (y', m', d').
Proof.
  intros Hv Hv'. unfold civil_le. split.
  - intros Hle.
    destruct (Z_lt_le_dec y y') as [|Hy]; [left; assumption|].
    destruct (Z_lt_le_dec y' y) as [Hy'|Hy'].
    { pose proof (MakeDay_lt y' m' d' y m d Hv' Hv ltac:(lia)). lia. }
    assert (y = y') by lia. subst y'. right. split; [reflexivity|].
    destruct (Z_lt_le_dec m m') as [|Hm]; [left; assumption|].
    destruct (Z_lt_le_dec m' m) as [Hm'|Hm'].
    { pose proof (MakeDay_lt y m' d' y m d Hv' Hv ltac:(lia)). lia. }
    assert (m = m') by lia. subst m'. right. split; [reflexivity|].
    destruct (Z_lt_le_dec d' d) as [Hd|Hd]; [|exact Hd].
    pose proof (MakeDay_lt y m d' y m d Hv' Hv ltac:(lia)). lia.
  - intros Hle.
    destruct (Z.eq_dec d d') as [Hd|Hd].
    + destruct Hle as [Hlt | [Heq [Hlt | [Heq' _]]]].
      * apply Z.lt_le_incl, MakeDay_lt; auto.
      * apply Z.lt_le_incl, MakeDay_lt; auto.
      * subst. lia.
    + apply Z.lt_le_incl, MakeDay_lt; auto.
      destruct Hle as [Hlt | [Heq [Hlt | [Heq' Hle]]]]; auto.
      right. split; [assumption|]. right. split; [assumption|lia].
Qed.

Lemma MakeDay_range (y m d : Z) :
  valid_civil y m d ->
  (-700000 <= MakeDay y (m - 1) d <= 3000000)%Z.
Proof.
  intros Hv. pose proof (day_of_year_bounds y m d Hv) as Hb.
  destruct Hv as (Hy & Hm & Hd). rewrite MakeDay_valid by assumption.
  pose proof (DayFromYear_mono 100 y ltac:(lia)) as Hlo.
  pose proof (DayFromYear_mono y 9999 ltac:(lia)) as Hhi.
  change (DayFromYear 100) with (-683003)%Z in Hlo.
  change (DayFromYear 9999) with 2932532%Z in Hhi.
  destruct (is_leap y); lia.
Qed.

(* ------------------------------------------------------------------ *)
(** ** History: the date filter *)

Lemma Qtrunc_integer (q : Q) (z : Z) : q == inject_Z z -> Qtrunc q = z.
Proof.
  intros H. unfold Qtrunc. destruct (Qle_bool 0 q).
  - rewrite (Qfloor_Qeq q (inject_Z z) H). apply Qfloor_Z.
  - unfold Qceiling.
    rewrite (Qfloor_Qeq (- q) (inject_Z (- z))).
    + rewrite Qfloor_Z. lia.
    + rewrite H. unfold Qeq, Qopp, inject_Z. cbn. lia.
Qed.

Lemma TimeClip_small (t : Z) :
  (Z.abs t <= 8640000000000000)%Z -> TimeClip t = Some t.
Proof.
  intros H. unfold TimeClip.
  replace (Z.abs t <=? 8640000000000000)%Z with true
    by (symmetry; apply Z.leb_le; exact H).
  reflexivity.
Qed.

Lemma local_midnight_clip (tz D : Z) :
  (0 <= tz < msPerDay)%Z -> (-700000 <= D <= 3000000)%Z ->
  (Z.abs (D * msPerDay - tz) <= 8640000000000000)%Z.
Proof. unfold msPerDay. intros Htz HD. lia. Qed.

(** Local midnight of a day stays what it is under [setHours(0,0,0,0)]. *)
Lemma setHours0_local_midnight (tz D : Z) :
  (0 <= tz < msPerDay)%Z -> (-700000 <= D <= 3000000)%Z ->
  setHours0 tz (Some (D * msPerDay - tz)%Z) = Some (D * msPerDay - tz)%Z.
Proof.
  intros Htz HD. unfold setHours0.
  replace (D * msPerDay - tz + tz)%Z with (D * msPerDay)%Z by lia.
  rewrite Z.div_mul by (unfold msPerDay; lia).
  apply TimeClip_small, local_midnight_clip; assumption.
Qed.

(** East of Greenwich, midnight UTC of a day falls on the same local day. *)
Lemma setHours0_utc_midnight (tz D : Z) :
  (0 <= tz < msPerDay)%Z -> (-700000 <= D <= 3000000)%Z ->
  setHours0 tz (Some (D * msPerDay)%Z) = Some (D * msPerDay - tz)%Z.
Proof.
  intros Htz HD. unfold setHours0.
  rewrite Z.div_add_l by (unfold msPerDay; lia).
  rewrite (Z.div_small tz msPerDay) by lia. rewrite Z.add_0_r.
  apply TimeClip_small, local_midnight_clip; assumption.
Qed.

(** West of Greenwich it falls on the evening before, and
    [setHours(0,0,0,0)] then gives the midnight of the previous day. *)
Lemma setHours0_utc_midnight_west (tz D : Z) :
  (- msPerDay <= tz < 0)%Z -> (-700000 <= D <= 3000000)%Z ->
  setHours0 tz (Some (D * msPerDay)%Z) = Some ((D - 1) * msPerDay - tz)%Z.
Proof.
  intros Htz HD. unfold setHours0.
  replace (D * msPerDay + tz)%Z with ((D - 1) * msPerDay + (msPerDay + tz))%Z by lia.
  rewrite Z.div_add_l by (unfold msPerDay; lia).
  rewrite (Z.div_small (msPerDay + tz) msPerDay) by lia. rewrite Z.add_0_r.
  apply TimeClip_small. unfold msPerDay in *. lia.
Qed.

Lemma Date_ymd_civil (tz : Z) (qy qm qd : Q) (y m d : Z) :
  (0 <= tz < msPerDay)%Z ->
  qy == inject_Z y -> qm == inject_Z m -> qd == inject_Z d ->
  valid_civil y m d ->
  Date_ymd tz (Some qy) (minus_one (Some qm)) (Some qd)
  = Some (MakeDay y (m - 1) d * msPerDay - tz)%Z.
Proof.
  intros Htz Hy Hm Hd Hv. unfold Date_ymd, minus_one.
  rewrite (Qtrunc_integer qy y Hy), (Qtrunc_integer qd d Hd).
  rewrite (Qtrunc_integer (qm - 1) (m - 1)).
  2:{ rewrite Hm. unfold Qeq, Qminus, Qplus, Qopp, inject_Z. cbn. lia. }
  pose proof (MakeDay_range y m d Hv) as Hr.
  destruct Hv as (Hyr & _ & _).
  replace ((0 <=? y) && (y <=? 99))%Z with false.
  2:{ symmetry. apply andb_false_iff. right. apply Z.leb_gt. lia. }
  apply TimeClip_small, local_midnight_clip; assumption.
Qed.

Section DateFilter.

Variable LocalTZA : Z.
Variable Number_of_string : string -> option Q.
Variable Date_parse : string -> option Z.

Lemma matchesDate_no_bounds (inv : Invoice) :
  matchesDate LocalTZA Number_of_string Date_parse "" "" inv = true.
Proof. reflexivity. Qed.



(** A calendar date passes exactly when it lies between the bounds, both
    included. *)
Lemma matchesDate_civil (startDate endDate : string) (inv : Invoice)
      (day month year : string) (d m y : Z) (lo hi : option (Z * Z * Z)) :
  (0 <= LocalTZA < msPerDay)%Z ->
  split_on "/"%char (inv_date inv) = [day; month; year] ->
  reads_as Number_of_string day d ->
  reads_as Number_of_string month m ->
  reads_as Number_of_string year y ->
  valid_civil y m d ->
  bound_denotes Date_parse startDate lo ->
  bound_denotes Date_parse endDate hi ->
  matchesDate LocalTZA Number_of_string Date_parse startDate endDate inv = true
  <-> on_or_after lo (y, m, d) /\ on_or_before hi (y, m, d).
Proof.
  intros Htz Hsplit (qd & Hqd & Hd) (qm & Hqm & Hm) (qy & Hqy & Hy) Hv Hlo Hhi.
  unfold matchesDate. rewrite Hsplit, Hqd, Hqm, Hqy.
  rewrite (Date_ymd_civil LocalTZA qy qm qd y m d Htz Hy Hm Hd Hv).
  rewrite (setHours0_local_midnight _ _ Htz (MakeDay_range y m d Hv)).
  assert (Hbound :
    forall s b, bound_denotes Date_parse s b ->
      match b with
      | None => String.eqb s "" = true
      | Some (y', m', d') =>
          String.eqb s "" = false /\ valid_civil y' m' d'
          /\ setHours0 LocalTZA (Date_parse s)
             = Some (MakeDay y' (m' - 1) d' * msPerDay - LocalTZA)%Z
      end).
  { intros s [[[y' m'] d']|] Hb; cbn in Hb.
    - destruct Hb as (Hs & Hv' & Hp). split; [apply String.eqb_neq; exact Hs|].
      split; [exact Hv'|]. rewrite Hp.
      apply setHours0_utc_midnight; [exact Htz | apply MakeDay_range; exact Hv'].
    - subst s. reflexivity. }
  pose proof (Hbound _ _ Hlo) as Blo. pose proof (Hbound _ _ Hhi) as Bhi.
  clear Hbound.
  destruct lo as [[[ys ms] ds]|], hi as [[[ye me] de]|];
    cbn [on_or_after on_or_before];
    repeat match goal with
           | H : _ /\ _ |- _ => destruct H
           end;
    repeat match goal with
           | H : String.eqb _ "" = _ |- _ => rewrite H
           | H : setHours0 _ _ = _ |- _ => rewrite H
           end;
    cbn [negb orb date_lt];
    rewrite <- ?(MakeDay_le_iff ys ms ds y m d) by assumption;
    rewrite <- ?(MakeDay_le_iff y m d ye me de) by assumption;
    unfold msPerDay;
    repeat match goal with
           | |- context [(?a <? ?b)%Z] => destruct (Z.ltb_spec a b)
           end;
    split; intros; try discriminate; try reflexivity; try split; try tauto; lia.
Qed.

End DateFilter.

(* ------------------------------------------------------------------ *)
(** ** History: filter and sort together *)


Lemma matchesSearch_empty (inv : Invoice) : matchesSearch "" inv = true.
Proof.
  unfold matchesSearch. cbn [toLowerCase].
  destruct (toLowerCase (inv_customerName inv)); reflexivity.
Qed.

Lemma filter_all {A : Type} (f : A -> bool) (l : list A) :
  (forall x, f x = true) -> filter f l = l.
Proof.
  intros H. induction l as [|x r IH]; cbn; [reflexivity|].
  rewrite H, IH. reflexivity.
Qed.


(* ------------------------------------------------------------------ *)
(** ** History: CSV export *)

Lemma split_on_no_sep (sep : ascii) (s : string) :
  has_char sep s = false -> split_on sep s = [s].
Proof.
  induction s as [|c r IH]; cbn [has_char split_on]; [reflexivity|].
  intros H. apply orb_false_iff in H. destruct H as [Hc Hr].
  rewrite Hc, (IH Hr). reflexivity.
Qed.

Lemma split_on_app (sep : ascii) (w rest : string) :
  has_char sep w = false ->
  split_on sep (w ++ String sep rest) = w :: split_on sep rest.
Proof.
  induction w as [|c r IH]; cbn [has_char split_on append].
  - intros _. rewrite Ascii.eqb_refl. reflexivity.
  - intros H. apply orb_false_iff in H. destruct H as [Hc Hr].
    rewrite Hc, (IH Hr). reflexivity.
Qed.

Lemma split_join (sep : ascii) (parts : list string) :
  parts <> [] ->
  Forall (fun w => has_char sep w = false) parts ->
  split_on sep (join (String sep EmptyString) parts) = parts.
Proof.
  intros Hne Hall. induction Hall as [|w ws Hw Hws IH]; [contradiction|].
  destruct ws as [|w' ws'].
  - cbn [join]. apply split_on_no_sep, Hw.
  - change (join (String sep EmptyString) (w :: w' :: ws'))
      with (w ++ String sep (join (String sep EmptyString) (w' :: ws')))%string.
    rewrite (split_on_app sep w _ Hw). f_equal. apply IH. discriminate.
Qed.

Lemma undouble_double_quotes (s : string) : undouble (double_quotes s) = s.
Proof.
  induction s as [|c r IH]; [reflexivity|].
  cbn [double_quotes]. destruct (Ascii.eqb c dquote) eqn:Hc.
  - apply Ascii.eqb_eq in Hc. subst c.
    cbn [undouble]. rewrite Ascii.eqb_refl. cbn [andb]. rewrite IH. reflexivity.
  - cbn [undouble]. rewrite Hc. cbn [andb].
    destruct (double_quotes r) as [|c' r'] eqn:Hd.
    + destruct r as [|x r0]; [reflexivity|].
      cbn [double_quotes] in Hd. destruct (Ascii.eqb x dquote); discriminate Hd.
    + rewrite IH. reflexivity.
Qed.

Lemma csv_row_fields (fraction_toString : Q -> string) (inv : Invoice) :
  csv_row fraction_toString inv
  = (inv_id inv ++ "," ++ inv_date inv ++ ","
     ++ quoted (inv_customerName inv) ++ ","
     ++ quoted (inv_customerCity inv) ++ ","
     ++ quoted (itemsString fraction_toString inv) ++ ","
     ++ Number_toString_Q fraction_toString (inv_total inv))%string.
Proof. reflexivity. Qed.

Lemma Number_toString_Q_integer (fraction_toString : Q -> string) (z : Z) :
  Number_toString_Q fraction_toString (inject_Z z) = Number_toString z.
Proof.
  unfold Number_toString_Q. rewrite Qfloor_Z.
  replace (Qeq_bool (inject_Z z) (inject_Z z)) with true
    by (symmetry; apply Qeq_bool_iff; reflexivity).
  reflexivity.
Qed.

(** C9, as the code has it.  For a list that is not empty the export is the
    header line and one row per invoice, in order, joined by line feeds
    (exactly n + 1 lines when no row contains a line feed); a row is the id,
    the date, the quoted name, the quoted city, the quoted item text and the
    total, joined by commas; a quoted field is the text between two quotes
    with each of its quotes doubled, from which the text is read back; an
    integer total is printed in decimal digits.  For the empty list nothing
    is exported. *)
Theorem handleExportCSV_spec
    (fraction_toString : Q -> string) (invoices : list Invoice) :
  invoices <> [] ->
  (exists csv : string,
      handleExportCSV fraction_toString invoices = Some csv
      /\ csv = join newline (header_line :: map (csv_row fraction_toString) invoices)
      /\ (Forall (fun inv => has_char "010"%char (csv_row fraction_toString inv) = false)
                 invoices ->
          lines csv = header_line :: map (csv_row fraction_toString) invoices
          /\ List.length (lines csv) = (List.length invoices + 1)%nat))
  /\ (forall inv,
         csv_row fraction_toString inv
         = (inv_id inv ++ "," ++ inv_date inv ++ ","
            ++ quoted (inv_customerName inv) ++ ","
            ++ quoted (inv_customerCity inv) ++ ","
            ++ quoted (itemsString fraction_toString inv) ++ ","
            ++ Number_toString_Q fraction_toString (inv_total inv))%string)
  /\ (forall s,
         quoted s = String dquote (double_quotes s ++ String dquote EmptyString)
         /\ undouble (double_quotes s) = s)
  /\ (forall z, Number_toString_Q fraction_toString (inject_Z z) = Number_toString z)
  /\ handleExportCSV fraction_toString [] = None.
Proof.
  intros Hne. split; [|split; [|split; [|split]]].
  - exists (join newline (header_line :: map (csv_row fraction_toString) invoices)).
    split.
    { unfold handleExportCSV. destruct invoices; [contradiction|]. reflexivity. }
    split; [reflexivity|].
    intros Hrows.
    assert (Hlines : lines (join newline
                              (header_line :: map (csv_row fraction_toString) invoices))
                     = header_line :: map (csv_row fraction_toString) invoices).
    { unfold lines, newline. apply split_join; [discriminate|].
      constructor; [reflexivity|].
      apply Forall_map. exact Hrows. }
    split; [exact Hlines|].
    rewrite Hlines. cbn [List.length]. rewrite length_map. lia.
  - intros inv. apply csv_row_fields.
  - intros s. split; [reflexivity | apply undouble_double_quotes].
  - intros z. apply Number_toString_Q_integer.
  - reflexivity.
Qed.

(* ------------------------------------------------------------------ *)
(** ** The theorems at sample data *)


Lemma sample_totals :
  Generator.subtotal Sample.cart_items == 220
  /\ Generator.sgstAmount Sample.shop Sample.cart_items == 6
  /\ Generator.cgstAmount Sample.shop Sample.cart_items == 6
  /\ Generator.grandTotal Sample.shop Sample.cart_items == 232.
Proof. repeat split; vm_compute; reflexivity. Qed.


Lemma addItem_merge_or_append_witness :
  (selectedProductID Sample.adding_rice <> ""%string
   /\ find (fun p => String.eqb (product_id p) (selectedProductID Sample.adding_rice))
           Sample.catalog = Some Sample.rice)
  /\ exists merged,
       items (addItem Sample.catalog 9 Sample.adding_rice)
       = [] ++ merged :: [Sample.line_dal]
       /\ item_quantity merged
          = item_quantity Sample.line_rice + qty Sample.adding_rice
       /\ item_amount merged = item_quantity merged * item_rate merged
       /\ item_rate merged = item_rate Sample.line_rice
       /\ item_productId merged = item_productId Sample.line_rice
       /\ item_id merged = item_id Sample.line_rice
       /\ List.length (items (addItem Sample.catalog 9 Sample.adding_rice))
          = List.length (items Sample.adding_rice).
Proof.
  assert (H1 : selectedProductID Sample.adding_rice <> ""%string) by discriminate.
  assert (H2 : find (fun p => String.eqb (product_id p)
                                (selectedProductID Sample.adding_rice))
                 Sample.catalog = Some Sample.rice) by reflexivity.
  split; [split; [exact H1 | exact H2]|].
  exact (proj1 (addItem_merge_or_append Sample.catalog 9 Sample.adding_rice
                  Sample.rice H1 H2)
           [] Sample.line_rice [Sample.line_dal] eq_refl (Forall_nil _) eq_refl).
Defined.

Lemma sample_ready_reachable : reachable Sample.ready.
Proof.
  unfold Sample.ready, Sample.composing, dispatch_all. cbn [fold_left].
  repeat apply reach_step. apply reach_mount.
Qed.

Lemma save_locks_cart_witness :
  save_disabled (st Sample.ready) = false
  /\ isSaved (st (dispatch Sample.ready ClickSave)) = true.
Proof.
  assert (H : save_disabled (st Sample.ready) = false) by (vm_compute; reflexivity).
  split; [exact H|].
  exact (proj1 (proj2 (save_locks_cart Sample.ready H))).
Defined.


Lemma sample_history_filtered :
  filteredInvoices Sample.IST Sample.number_digits Sample.parse_iso
    Sample.history "" "" ""
  = [Sample.inv11; Sample.inv10; Sample.inv9]
  /\ filteredInvoices Sample.IST Sample.number_digits Sample.parse_iso
       Sample.history "" "2024-03-05" "2024-03-15"
     = [Sample.inv11; Sample.inv9]
  /\ filteredInvoices Sample.IST Sample.number_digits Sample.parse_iso
       Sample.history "ASHA" "2024-03-06" ""
     = [Sample.inv11]
  /\ filteredInvoices Sample.IST Sample.number_digits Sample.parse_iso
       Sample.history "1" "" "2024-03-16"
     = [Sample.inv11; Sample.inv10].
Proof. repeat split; vm_compute; reflexivity. Qed.


Lemma sample_date_in_range :
  matchesDate Sample.IST Sample.number_digits Sample.parse_iso
    "2024-03-05" "2024-03-15" Sample.inv9 = true
  <-> on_or_after (Some (2024, 3, 5)%Z) (2024, 3, 5)%Z
      /\ on_or_before (Some (2024, 3, 15)%Z) (2024, 3, 5)%Z.
Proof.
  apply (matchesDate_civil Sample.IST Sample.number_digits Sample.parse_iso
           "2024-03-05" "2024-03-15" Sample.inv9 "05" "03" "2024").
  - vm_compute. split; [discriminate | reflexivity].
  - reflexivity.
  - exists (inject_Z 5). split; reflexivity.
  - exists (inject_Z 3). split; reflexivity.
  - exists (inject_Z 2024). split; reflexivity.
  - unfold valid_civil. vm_compute. repeat split; discriminate.
  - cbn. split; [discriminate|]. split; [|reflexivity].
    unfold valid_civil. vm_compute. repeat split; discriminate.
  - cbn. split; [discriminate|]. split; [|reflexivity].
    unfold valid_civil. vm_compute. repeat split; discriminate.
Qed.

Lemma handleExportCSV_spec_witness :
  Sample.history <> []
  /\ handleExportCSV Sample.no_fraction [] = None.
Proof.
  assert (H : Sample.history <> []) by discriminate.
  split; [exact H|].
  exact (proj2 (proj2 (proj2 (proj2
           (handleExportCSV_spec Sample.no_fraction Sample.history H))))).
Defined.

Lemma sample_csv :
  handleExportCSV Sample.no_fraction [Sample.inv10; Sample.inv9]
  = Some (header_line ++ newline
          ++ "10,16/03/2024," ++ quoted "Ravi" ++ "," ++ quoted "Surat" ++ ","
          ++ quoted "Dal 500 gm (1 Kg)" ++ ",120" ++ newline
          ++ "9,05/03/2024," ++ quoted "Asha" ++ "," ++ quoted "Pune" ++ ","
          ++ quoted "Rice 1 kg (2 Kg)" ++ ",100")%string.
Proof. vm_compute. reflexivity. Qed.

(** C9 as stated fails on the empty list: nothing is exported, so there is
    no text of 0 + 1 lines. *)
Lemma handleExportCSV_empty_list :
  handleExportCSV Sample.no_fraction [] = None
  /\ ~ (exists csv : string,
           handleExportCSV Sample.no_fraction [] = Some csv
           /\ List.length (lines csv) = (List.length (@nil Invoice) + 1)%nat).
Proof.
  split; [reflexivity|]. intros [csv [H _]]. discriminate H.
Qed.

(** A line feed inside a field stays inside the quotes, so the text of one
    invoice then has three lines. *)
Lemma handleExportCSV_embedded_line_feed :
  exists csv : string,
    handleExportCSV Sample.no_fraction [Sample.inv_two_lines] = Some csv
    /\ List.length (lines csv) = 3%nat.
Proof. eexists. split; [reflexivity | vm_compute; reflexivity]. Qed.

(* ------------------------------------------------------------------ *)
(** ** The cart across events *)










Lemma dispatch_items (w : World) (e : Event) :
  items (st (dispatch w e)) = items (st (handle w e)).
Proof.
  unfold dispatch, run_effects, syncBillNo.
  destruct (deps_changed w (handle w e)); [|reflexivity].
  cbn [st with_st]. destruct (negb (isSaved (st (handle w e)))); reflexivity.
Qed.





(* ------------------------------------------------------------------ *)
(** ** The invoice that is saved, and the numbering of bills *)












(* ------------------------------------------------------------------ *)
(** ** Bill ids read back as numbers *)

Lemma digit_cases (c : ascii) :
  is_digit c = true ->
  c = "0"%char \/ c = "1"%char \/ c = "2"%char \/ c = "3"%char \/ c = "4"%char
  \/ c = "5"%char \/ c = "6"%char \/ c = "7"%char \/ c = "8"%char \/ c = "9"%char.
Proof.
  destruct c as [[] [] [] [] [] [] [] []]; intros H;
    try discriminate H; auto 10.
Qed.

Lemma radix_prefix_digits (s : string) :
  forall (seen : bool) (acc : Z),
    all_digits s = true -> seen = true \/ s <> ""%string ->
    radix_prefix 10 is_digit s seen acc = Some (digits_value_acc s acc).
Proof.
  induction s as [|c r IH]; intros seen acc Hd Hs; cbn [radix_prefix digits_value_acc].
  - destruct Hs as [-> | Hs]; [reflexivity | contradiction].
  - cbn [all_digits] in Hd. apply andb_true_iff in Hd. destruct Hd as [Hc Hr].
    rewrite Hc. rewrite (IH true _ Hr (or_introl eq_refl)).
    unfold hex_value. rewrite Hc. reflexivity.
Qed.

(** A string of decimal digits is read as the number it denotes, with or
    without a minus sign in front. *)
Lemma parseInt_digits (s : string) :
  all_digits s = true -> s <> ""%string ->
  parseInt s = Some (digits_value s)
  /\ parseInt (String "-" s) = Some (- digits_value s)%Z.
Proof.
  intros Hd Hs.
  pose proof (radix_prefix_digits s false 0 Hd (or_intror Hs)) as Hrp.
  destruct s as [|c r]; [contradiction|].
  pose proof Hd as Hd'. cbn [all_digits] in Hd'.
  apply andb_true_iff in Hd'. destruct Hd' as [Hc Hr].
  assert (Hmag :
            match String c r with
            | String "0"%char (String "x"%char t) => radix_prefix 16 is_hex_digit t false 0
            | String "0"%char (String "X"%char t) => radix_prefix 16 is_hex_digit t false 0
            | _ => radix_prefix 10 is_digit (String c r) false 0
            end = Some (digits_value (String c r))).
  { destruct r as [|d r'].
    - destruct (digit_cases c Hc) as [E|[E|[E|[E|[E|[E|[E|[E|[E|E]]]]]]]]];
        subst c; exact Hrp.
    - cbn [all_digits] in Hr. apply andb_true_iff in Hr. destruct Hr as [Hdd _].
      destruct (digit_cases c Hc) as [E|[E|[E|[E|[E|[E|[E|[E|[E|E]]]]]]]]];
        subst c; try exact Hrp.
      destruct (digit_cases d Hdd) as [E|[E|[E|[E|[E|[E|[E|[E|[E|E]]]]]]]]];
        subst d; exact Hrp. }
  assert (Htrim : trimStart (String c r) = String c r).
  { destruct (digit_cases c Hc) as [E|[E|[E|[E|[E|[E|[E|[E|[E|E]]]]]]]]];
      subst c; reflexivity. }
  split.
  - unfold parseInt. rewrite Htrim.
    destruct (digit_cases c Hc) as [E|[E|[E|[E|[E|[E|[E|[E|[E|E]]]]]]]]];
      subst c; cbv beta iota zeta in Hmag |- *; rewrite Hmag;
      apply f_equal; lia.
  - unfold parseInt.
    change (trimStart (String "-" (String c r))) with (String "-" (String c r)).
    cbv beta iota zeta in Hmag |- *. rewrite Hmag. apply f_equal. lia.
Qed.

Lemma decimal_nonempty (n : Z) : (0 <= n)%Z -> decimal n <> ""%string.
Proof.
  intros Hn He. unfold decimal in He.
  pose proof (decimal_fuel_spec _ n (conj Hn (decimal_fuel_sufficient n Hn))) as H.
  rewrite He in H. cbn [String.length] in H. lia.
Qed.

Lemma parseInt_Number_toString (n : Z) :
  (- 10 ^ 21 < n < 10 ^ 21)%Z -> parseInt (Number_toString n) = Some n.
Proof.
  intros Hn. unfold Number_toString.
  destruct (n <? 0)%Z eqn:E.
  - apply Z.ltb_lt in E.
    replace (- n <? 10 ^ 21)%Z with true by (symmetry; apply Z.ltb_lt; lia).
    destruct (decimal_spec (- n) ltac:(lia)) as [Hv Hd].
    change ("-" ++ decimal (- n))%string with (String "-" (decimal (- n))).
    assert (Hpos : (0 <= - n)%Z) by lia.
    rewrite (proj2 (parseInt_digits _ Hd (decimal_nonempty _ Hpos))).
    rewrite Hv. apply f_equal. lia.
  - apply Z.ltb_ge in E.
    replace (n <? 10 ^ 21)%Z with true by (symmetry; apply Z.ltb_lt; lia).
    destruct (decimal_spec n E) as [Hv Hd].
    rewrite (proj1 (parseInt_digits _ Hd (decimal_nonempty _ E))).
    rewrite Hv. reflexivity.
Qed.

(** X4.  The id of every invoice the form saves is a number text that the
    history reads back exactly: for a counter n of magnitude below 10^21
    (where the text is plain decimal digits), [parseInt] of the id is n, so
    the id is numeric and the history's ordering key of the invoice is its
    bill number.  More generally [parseInt] undoes [toString] on that
    range. *)
Theorem saved_ids_numeric (w : World) :
  reachable w ->
  save_disabled (st w) = false ->
  (- 10 ^ 21 < nextInvoiceNumber (settings w) < 10 ^ 21)%Z ->
  parseInt (inv_id (build_invoice (settings w) (st w)))
  = Some (nextInvoiceNumber (settings w))
  /\ numeric_id (build_invoice (settings w) (st w))
  /\ id_number (build_invoice (settings w) (st w)) = nextInvoiceNumber (settings w)
  /\ (forall n : Z,
         (- 10 ^ 21 < n < 10 ^ 21)%Z -> parseInt (Number_toString n) = Some n).
Proof.
  intros Hr Hen Hn.
  destruct (save_enabled_fields _ Hen) as (_ & Hsaved & _ & _).
  pose proof (reachable_synced w Hr Hsaved) as Hsync.
  assert (Hp : parseInt (inv_id (build_invoice (settings w) (st w)))
               = Some (nextInvoiceNumber (settings w))).
  { cbn [build_invoice inv_id]. rewrite Hsync.
    apply parseInt_Number_toString, Hn. }
  split; [exact Hp|]. split; [|split].
  - unfold numeric_id. rewrite Hp. discriminate.
  - unfold id_number. rewrite Hp. reflexivity.
  - exact parseInt_Number_toString.
Qed.

Lemma saved_ids_numeric_witness :
  (reachable Sample.ready
   /\ save_disabled (st Sample.ready) = false
   /\ (- 10 ^ 21 < nextInvoiceNumber (settings Sample.ready) < 10 ^ 21)%Z)
  /\ id_number (build_invoice (settings Sample.ready) (st Sample.ready)) = 7%Z.
Proof.
  assert (H1 : reachable Sample.ready) by exact sample_ready_reachable.
  assert (H2 : save_disabled (st Sample.ready) = false) by (vm_compute; reflexivity).
  assert (H3 : (- 10 ^ 21 < nextInvoiceNumber (settings Sample.ready) < 10 ^ 21)%Z)
    by (vm_compute; split; reflexivity).
  split; [split; [exact H1 | split; [exact H2 | exact H3]]|].
  exact (proj1 (proj2 (proj2 (saved_ids_numeric Sample.ready H1 H2 H3)))).
Defined.

(* ------------------------------------------------------------------ *)
(** ** Removing a line, and how the subtotal follows the cart *)



Lemma filter_keep {A : Type} (p : A -> bool) (l : list A) :
  Forall (fun x => p x = true) l -> filter p l = l.
Proof.
  induction 1 as [|x r Hx _ IH]; cbn [filter]; [reflexivity|].
  rewrite Hx, IH. reflexivity.
Qed.









(* ------------------------------------------------------------------ *)
(** ** The printed bill shows the total that was saved *)

(** X8.  The live preview of the form, which renders the template without
    a rate of its own, prints exactly the total (and tax halves) that Save
    stores in the invoice.  When the invoice is opened from the history, the
    template gets the stored rate: it prints the stored total again as long
    as the tax switch of the settings is as it was at save time, whatever
    has become of the default rate; a bill saved with tax off prints its
    stored total under any settings; a bill saved with tax on, viewed with
    tax switched off, prints the bare subtotal. *)
Theorem printed_total_matches_saved
    (settings later : BusinessSettings) (s : State) :
  Template.totalAmount settings None (items s)
  == inv_total (build_invoice settings s)
  /\ Template.calcSgst settings None (items s)
     == Generator.sgstAmount settings (items s)
  /\ (enableGst later = enableGst settings ->
      Template.totalAmount later (inv_gstRate (build_invoice settings s))
        (inv_items (build_invoice settings s))
      == inv_total (build_invoice settings s))
  /\ (enableGst settings = false ->
      Template.totalAmount later (inv_gstRate (build_invoice settings s))
        (inv_items (build_invoice settings s))
      == inv_total (build_invoice settings s))
  /\ (enableGst later = false ->
      Template.totalAmount later (inv_gstRate (build_invoice settings s))
        (inv_items (build_invoice settings s))
      == Generator.subtotal (items s)).
Proof.
  cbn [build_invoice inv_total inv_gstRate inv_items].
  unfold Template.totalAmount, Template.calcSgst, Template.calcCgst,
    Template.halfRate, Template.rate, Template.isGstEnabled, Template.calcSubtotal,
    Generator.grandTotal, Generator.totalTax, Generator.sgstAmount,
    Generator.cgstAmount, Generator.halfRate, Generator.gstRate, Generator.subtotal.
  split; [|split; [|split; [|split]]].
  - destruct (enableGst settings); ring.
  - destruct (enableGst settings); reflexivity.
  - intros ->. destruct (enableGst settings); ring.
  - intros ->. destruct (enableGst later); [|ring].
    assert (H0 : Math_round (sum_amounts (items s) * (0 / 2 / 100)) == 0).
    { rewrite (Math_round_Qeq _ 0); [reflexivity|]. field. }
    rewrite H0. ring.
  - intros ->. ring.
Qed.

Lemma printed_total_matches_saved_witness :
  Template.totalAmount (mkSettings 9 true (Some 18))
    (inv_gstRate (build_invoice Sample.shop Sample.adding_rice))
    (inv_items (build_invoice Sample.shop Sample.adding_rice))
  == inv_total (build_invoice Sample.shop Sample.adding_rice).
Proof.
  exact (proj1 (proj2 (proj2
           (printed_total_matches_saved Sample.shop (mkSettings 9 true (Some 18))
              Sample.adding_rice)))
           eq_refl).
Defined.

(* ------------------------------------------------------------------ *)
(** ** History: the sort is stable, the query idempotent *)

Lemma insert_by_same_number (k : Z) (x : Invoice) (l : list Invoice) :
  numeric_id x -> Forall numeric_id l ->
  filter (fun inv => (id_number inv =? k)%Z) (insert_by compare_ids x l)
  = filter (fun inv => (id_number inv =? k)%Z) (x :: l).
Proof.
  intros Hx Hl. induction Hl as [|y r Hy Hr IH]; cbn [insert_by]; [reflexivity|].
  rewrite (compare_ids_numeric x y Hx Hy).
  destruct (0 <? id_number y - id_number x)%Z eqn:E; [|reflexivity].
  apply Z.ltb_lt in E. cbn [filter] in *. rewrite IH.
  destruct (id_number x =? k)%Z eqn:Ex; [|reflexivity].
  apply Z.eqb_eq in Ex.
  replace (id_number y =? k)%Z with false by (symmetry; apply Z.eqb_neq; lia).
  reflexivity.
Qed.

Lemma sort_by_same_number (k : Z) (l : list Invoice) :
  Forall numeric_id l ->
  filter (fun inv => (id_number inv =? k)%Z) (sort_by compare_ids l)
  = filter (fun inv => (id_number inv =? k)%Z) l.
Proof.
  induction 1 as [|x r Hx Hr IH]; [reflexivity|].
  cbn [sort_by fold_right]. fold (sort_by compare_ids r).
  rewrite insert_by_same_number; [| exact Hx |].
  - cbn [filter]. rewrite IH. reflexivity.
  - apply (Permutation_Forall (Permutation_sym (sort_by_perm compare_ids r))).
    exact Hr.
Qed.

Lemma sort_by_sorted_fixed (l : list Invoice) :
  Forall numeric_id l -> StronglySorted id_desc l -> sort_by compare_ids l = l.
Proof.
  intros Hn Hs. induction Hs as [|x r Hr IH Hx]; [reflexivity|].
  inversion Hn as [|? ? Hnx Hnr]; subst.
  cbn [sort_by fold_right]. fold (sort_by compare_ids r). rewrite (IH Hnr).
  destruct r as [|y r']; [reflexivity|]. cbn [insert_by].
  inversion Hnr as [|? ? Hny _]; subst. inversion Hx as [|? ? Hxy _]; subst.
  rewrite (compare_ids_numeric x y Hnx Hny). unfold id_desc in Hxy.
  replace (0 <? id_number y - id_number x)%Z with false
    by (symmetry; apply Z.ltb_ge; lia).
  reflexivity.
Qed.

(** X9.  The history's sort is stable and its query idempotent.  For
    invoices with numeric ids: the invoices of the result that share a bill
    number stand in the order in which they stood in the input; a list
    already in descending order of bill number is returned as it is; and
    running the same query on its own result gives that result again. *)
Theorem filteredInvoices_stable
    (LocalTZA : Z) (Number_of_string : string -> option Q)
    (Date_parse : string -> option Z)
    (invoices : list Invoice) (searchTerm startDate endDate : string) :
  Forall numeric_id invoices ->
  (forall k : Z,
      filter (fun inv => (id_number inv =? k)%Z)
        (filteredInvoices LocalTZA Number_of_string Date_parse
           invoices searchTerm startDate endDate)
      = filter (fun inv => (id_number inv =? k)%Z)
          (filter (fun inv =>
                     matchesSearch searchTerm inv
                     && matchesDate LocalTZA Number_of_string Date_parse
                          startDate endDate inv)
                  invoices))
  /\ (StronglySorted id_desc invoices ->
      filteredInvoices LocalTZA Number_of_string Date_parse invoices "" "" ""
      = invoices)
  /\ filteredInvoices LocalTZA Number_of_string Date_parse
       (filteredInvoices LocalTZA Number_of_string Date_parse
          invoices searchTerm startDate endDate)
       searchTerm startDate endDate
     = filteredInvoices LocalTZA Number_of_string Date_parse
         invoices searchTerm startDate endDate.
Proof.
  intros Hnum.
  set (f := fun inv =>
              matchesSearch searchTerm inv
              && matchesDate LocalTZA Number_of_string Date_parse
                   startDate endDate inv).
  assert (Hnf : Forall numeric_id (filter f invoices)).
  { rewrite Forall_forall in *. intros inv Hin. apply Hnum.
    apply filter_In in Hin. tauto. }
  split; [|split].
  - intros k. unfold filteredInvoices. apply sort_by_same_number. exact Hnf.
  - intros Hs. unfold filteredInvoices.
    rewrite filter_all; [apply sort_by_sorted_fixed; assumption|].
    intros inv. rewrite matchesSearch_empty. reflexivity.
  - unfold filteredInvoices. fold f.
    assert (Hperm : Permutation (sort_by compare_ids (filter f invoices))
                                (filter f invoices)) by apply sort_by_perm.
    rewrite (filter_keep f (sort_by compare_ids (filter f invoices))).
    + apply sort_by_sorted_fixed.
      * apply (Permutation_Forall (Permutation_sym Hperm)). exact Hnf.
      * apply sort_by_sorted. exact Hnf.
    + apply Forall_forall. intros inv Hin.
      apply (Permutation_in _ Hperm) in Hin. apply filter_In in Hin. tauto.
Qed.

Lemma filteredInvoices_stable_witness :
  Forall numeric_id Sample.history
  /\ filteredInvoices Sample.IST Sample.number_digits Sample.parse_iso
       (filteredInvoices Sample.IST Sample.number_digits Sample.parse_iso
          Sample.history "a" "2024-03-05" "")
       "a" "2024-03-05" ""
     = filteredInvoices Sample.IST Sample.number_digits Sample.parse_iso
         Sample.history "a" "2024-03-05" "".
Proof.
  assert (H : Forall numeric_id Sample.history)
    by (repeat constructor; discriminate).
  split; [exact H|].
  exact (proj2 (proj2
           (filteredInvoices_stable Sample.IST Sample.number_digits Sample.parse_iso
              Sample.history "a" "2024-03-05" "" H))).
Defined.

(* ------------------------------------------------------------------ *)
(** ** History: the exported text reads back *)

Lemma append_nil_r (s : string) : (s ++ "")%string = s.
Proof. induction s as [|c r IH]; cbn; [reflexivity|]. rewrite IH. reflexivity. Qed.

Lemma csv_plain_cons (c : ascii) (r : string) :
  csv_plain (String c r) = true ->
  Ascii.eqb c dquote = false /\ Ascii.eqb c ","%char = false
  /\ Ascii.eqb c "010"%char = false /\ csv_plain r = true.
Proof.
  unfold csv_plain. cbn [has_char].
  destruct (Ascii.eqb c dquote), (Ascii.eqb c ","%char), (Ascii.eqb c "010"%char);
    cbn; intros H; try discriminate H; auto.
  all: rewrite ?andb_false_r in H; discriminate H.
Qed.

Lemma csv_pushes_cons (c : ascii) (p : string) (t : CsvText) :
  csv_push c (csv_pushes p t) = csv_pushes (String c p) t.
Proof. destruct t as [[f fs] rs]. reflexivity. Qed.

Lemma csv_pushes_nil (t : CsvText) : csv_pushes "" t = t.
Proof. destruct t as [[f fs] rs]. reflexivity. Qed.

Lemma csv_read_plain (p tail : string) :
  csv_plain p = true ->
  csv_read false (p ++ tail) = csv_pushes p (csv_read false tail).
Proof.
  induction p as [|c r IH]; intros Hp.
  - cbn [append]. rewrite csv_pushes_nil. reflexivity.
  - destruct (csv_plain_cons c r Hp) as (Hq & Hc & Hl & Hr).
    cbn [append csv_read]. rewrite Hq, Hc, Hl, (IH Hr).
    apply csv_pushes_cons.
Qed.

Lemma csv_read_quoted (s tail : string) :
  starts_without (fun c => Ascii.eqb c dquote) tail ->
  csv_read true (double_quotes s ++ String dquote tail)
  = csv_pushes s (csv_read false tail).
Proof.
  intros Ht. induction s as [|c r IH].
  - cbn [double_quotes append csv_read]. rewrite Ascii.eqb_refl.
    rewrite csv_pushes_nil.
    destruct tail as [|c' r']; [reflexivity|].
    cbn [starts_without] in Ht. rewrite Ht. reflexivity.
  - cbn [double_quotes]. destruct (Ascii.eqb c dquote) eqn:E.
    + cbn [append csv_read]. rewrite E. rewrite IH.
      apply Ascii.eqb_eq in E. subst c. apply csv_pushes_cons.
    + cbn [append csv_read]. rewrite E, IH. apply csv_pushes_cons.
Qed.

Lemma csv_read_field (raw enc tail : string) :
  csv_field_ok raw enc ->
  starts_without (fun c => Ascii.eqb c dquote) tail ->
  csv_read false (enc ++ tail) = csv_pushes raw (csv_read false tail).
Proof.
  intros [[-> Hp] | ->] Ht.
  - apply csv_read_plain, Hp.
  - unfold quoted. cbn [append csv_read]. rewrite Ascii.eqb_refl.
    rewrite append_assoc. cbn [append]. apply csv_read_quoted, Ht.
Qed.

Lemma csv_rest_starts (rest : string) :
  csv_rest_ok rest -> starts_without (fun c => Ascii.eqb c dquote) rest.
Proof. intros [-> | [more ->]]; reflexivity. Qed.

Lemma csv_read_rest (rest : string) :
  csv_rest_ok rest -> csv_read false rest = (EmptyString, [], csv_following rest).
Proof.
  intros [-> | [more ->]]; [reflexivity|].
  cbn [csv_read csv_following]. unfold csv_records.
  change (Ascii.eqb "010"%char dquote) with false.
  change (Ascii.eqb "010"%char ","%char) with false.
  change (Ascii.eqb "010"%char "010"%char) with true. cbv iota.
  destruct (csv_read false more) as [[f fs] rs]. reflexivity.
Qed.

(** A record written as fields joined by commas reads back as its fields. *)
Lemma csv_read_fields (raws : list string) :
  forall (encs : list string) (rest : string),
    Forall2 csv_field_ok raws encs -> raws <> [] -> csv_rest_ok rest ->
    csv_read false (join "," encs ++ rest)
    = (hd EmptyString raws, tl raws, csv_following rest).
Proof.
  induction raws as [|x raws' IH]; intros encs rest Hall Hne Hrest; [contradiction|].
  inversion Hall as [|? e ? encs' Hxe Hall']; subst.
  destruct raws' as [|y raws''].
  - inversion Hall'; subst. cbn [join hd tl].
    rewrite (csv_read_field x e rest Hxe (csv_rest_starts rest Hrest)).
    rewrite (csv_read_rest rest Hrest). cbn [csv_pushes].
    rewrite append_nil_r. reflexivity.
  - inversion Hall' as [|? e2 ? encs'' Hye Hall'']; subst.
    change (join "," (e :: e2 :: encs''))
      with (e ++ String ","%char (join "," (e2 :: encs'')))%string.
    rewrite append_assoc. cbn [append].
    rewrite (csv_read_field x e _ Hxe) by reflexivity.
    cbn [csv_read].
    change (Ascii.eqb ","%char dquote) with false.
    change (Ascii.eqb ","%char ","%char) with true. cbv iota.
    rewrite (IH (e2 :: encs'') rest Hall' ltac:(discriminate) Hrest).
    cbn [csv_new_field csv_pushes hd tl]. rewrite append_nil_r. reflexivity.
Qed.

(** Records joined by line feeds read back as the records. *)
Lemma csv_records_rows (rows : list (list string * list string)) :
  Forall (fun r => Forall2 csv_field_ok (fst r) (snd r) /\ fst r <> []) rows ->
  rows <> [] ->
  csv_records (join newline (map (fun r => join "," (snd r)) rows)) = map fst rows.
Proof.
  intros Hall Hne. induction Hall as [|r rows' [Hr Hrne] Hrows IH]; [contradiction|].
  assert (Hcons : forall l : list string, l <> [] -> hd EmptyString l :: tl l = l)
    by (intros [|a l] H; [contradiction | reflexivity]).
  destruct rows' as [|r2 rows''].
  - cbn [map join]. unfold csv_records.
    replace (join "," (snd r)) with (join "," (snd r) ++ "")%string
      by apply append_nil_r.
    rewrite (csv_read_fields (fst r) (snd r) "" Hr Hrne (or_introl eq_refl)).
    cbn [csv_following]. rewrite (Hcons _ Hrne). reflexivity.
  - change (join newline (map (fun r => join "," (snd r)) (r :: r2 :: rows'')))
      with (join "," (snd r)
            ++ String "010"%char
                 (join newline (map (fun r => join "," (snd r)) (r2 :: rows''))))%string.
    unfold csv_records at 1.
    rewrite (csv_read_fields (fst r) (snd r) _ Hr Hrne
               (or_intror (ex_intro _ _ eq_refl))).
    cbn [csv_following]. rewrite (IH ltac:(discriminate)), (Hcons _ Hrne).
    reflexivity.
Qed.

Lemma all_digits_plain (s : string) : all_digits s = true -> csv_plain s = true.
Proof.
  induction s as [|c r IH]; [reflexivity|].
  cbn [all_digits]. intros H. apply andb_true_iff in H. destruct H as [Hc Hr].
  specialize (IH Hr). unfold csv_plain in *. cbn [has_char].
  destruct (digit_cases c Hc) as [E|[E|[E|[E|[E|[E|[E|[E|[E|E]]]]]]]]];
    subst c; exact IH.
Qed.

Lemma row_fields_ok (fraction_toString : Q -> string) (inv : Invoice) :
  csv_plain (inv_id inv) = true ->
  csv_plain (inv_date inv) = true ->
  csv_plain (Number_toString_Q fraction_toString (inv_total inv)) = true ->
  Forall2 csv_field_ok (row_fields fraction_toString inv)
    [inv_id inv; inv_date inv; quoted (inv_customerName inv);
     quoted (inv_customerCity inv); quoted (itemsString fraction_toString inv);
     Number_toString_Q fraction_toString (inv_total inv)].
Proof.
  intros Hid Hdate Htotal. unfold row_fields.
  apply Forall2_cons; [left; split; [reflexivity | exact Hid]|].
  apply Forall2_cons; [left; split; [reflexivity | exact Hdate]|].
  apply Forall2_cons; [right; reflexivity|].
  apply Forall2_cons; [right; reflexivity|].
  apply Forall2_cons; [right; reflexivity|].
  apply Forall2_cons; [left; split; [reflexivity | exact Htotal]|].
  apply Forall2_nil.
Qed.

(** X10.  The exported text reads back.  For a non-empty list of invoices
    whose id, date and printed total hold no comma, quote or line feed (the
    three fields the export writes without quotes), a reader of
    comma-separated text recovers from the exported file exactly the header
    record and, per invoice and in order, the six fields id, date, customer
    name, city, item text and total; commas, quotes and line feeds inside
    the name, the city and the item text come back unchanged.  A whole
    total of magnitude below 10^21 is always printed as such a plain
    field. *)
Theorem handleExportCSV_reads_back
    (fraction_toString : Q -> string) (invoices : list Invoice) :
  invoices <> [] ->
  Forall (fun inv =>
            csv_plain (inv_id inv) = true
            /\ csv_plain (inv_date inv) = true
            /\ csv_plain (Number_toString_Q fraction_toString (inv_total inv))
               = true)
         invoices ->
  (exists text : string,
      handleExportCSV fraction_toString invoices = Some text
      /\ csv_records text
         = headers :: map (row_fields fraction_toString) invoices)
  /\ (forall z : Z,
         (- 10 ^ 21 < z < 10 ^ 21)%Z ->
         csv_plain (Number_toString_Q fraction_toString (inject_Z z)) = true).
Proof.
  intros Hne Hall. split.
  - exists (join newline (join "," headers
                          :: map (csv_row fraction_toString) invoices)).
    split.
    { unfold handleExportCSV. destruct invoices; [contradiction | reflexivity]. }
    set (enc := fun inv : Invoice =>
                  (row_fields fraction_toString inv,
                   [inv_id inv; inv_date inv; quoted (inv_customerName inv);
                    quoted (inv_customerCity inv);
                    quoted (itemsString fraction_toString inv);
                    Number_toString_Q fraction_toString (inv_total inv)])).
    pose proof (csv_records_rows ((headers, headers) :: map enc invoices)) as H.
    cbn [map fst snd] in H. rewrite !map_map in H.
    cbn [fst snd] in H.
    rewrite (map_ext (fun x => fst (enc x)) (row_fields fraction_toString)) in H
      by reflexivity.
    rewrite (map_ext (fun x => join "," (snd (enc x))) (csv_row fraction_toString))
      in H by reflexivity.
    apply H; [|discriminate].
    constructor.
    + split; [|discriminate].
      unfold headers.
      repeat (apply Forall2_cons; [left; split; reflexivity|]).
      apply Forall2_nil.
    + apply Forall_forall. intros r Hr. apply in_map_iff in Hr.
      destruct Hr as [inv [<- Hin]].
      rewrite Forall_forall in Hall. destruct (Hall inv Hin) as (Hid & Hd & Ht).
      split; [apply row_fields_ok; assumption | discriminate].
  - intros z Hz. rewrite Number_toString_Q_integer. unfold Number_toString.
    destruct (z <? 0)%Z eqn:E.
    + apply Z.ltb_lt in E.
      replace (- z <? 10 ^ 21)%Z with true by (symmetry; apply Z.ltb_lt; lia).
      assert (Hpos : (0 <= - z)%Z) by lia.
      pose proof (all_digits_plain _ (proj2 (decimal_spec (- z) Hpos))) as Hp.
      unfold csv_plain in *. cbn [append has_char]. exact Hp.
    + apply Z.ltb_ge in E.
      replace (z <? 10 ^ 21)%Z with true by (symmetry; apply Z.ltb_lt; lia).
      apply all_digits_plain, (decimal_spec z E).
Qed.

Lemma handleExportCSV_reads_back_witness :
  (Sample.history <> []
   /\ Forall (fun inv =>
                csv_plain (inv_id inv) = true
                /\ csv_plain (inv_date inv) = true
                /\ csv_plain (Number_toString_Q Sample.no_fraction (inv_total inv))
                   = true)
             Sample.history)
  /\ exists text : string,
       handleExportCSV Sample.no_fraction Sample.history = Some text
       /\ csv_records text
          = headers :: map (row_fields Sample.no_fraction) Sample.history.
Proof.
  assert (H1 : Sample.history <> []) by discriminate.
  assert (H2 : Forall (fun inv =>
                csv_plain (inv_id inv) = true
                /\ csv_plain (inv_date inv) = true
                /\ csv_plain (Number_toString_Q Sample.no_fraction (inv_total inv))
                   = true)
             Sample.history)
    by (repeat constructor; vm_compute; reflexivity).
  split; [split; [exact H1 | exact H2]|].
  exact (proj1 (handleExportCSV_reads_back Sample.no_fraction Sample.history H1 H2)).
Defined.

(** X11.  The date is written to the export without quotes, and the bill
    form takes it as free text: when the date of an invoice holds a comma,
    its row reads back as seven fields under the six headers, the date
    split in two and every later column moved one place to the right. *)
Theorem handleExportCSV_unquoted_date
    (fraction_toString : Q -> string) (inv : Invoice) (d1 d2 : string) :
  inv_date inv = (d1 ++ "," ++ d2)%string ->
  csv_plain d1 = true ->
  csv_plain d2 = true ->
  csv_plain (inv_id inv) = true ->
  csv_plain (Number_toString_Q fraction_toString (inv_total inv)) = true ->
  exists text : string,
    handleExportCSV fraction_toString [inv] = Some text
    /\ csv_records text
       = [headers;
          [inv_id inv; d1; d2; inv_customerName inv; inv_customerCity inv;
           itemsString fraction_toString inv;
           Number_toString_Q fraction_toString (inv_total inv)]].
Proof.
  intros Hdate H1 H2 Hid Htotal.
  exists (join newline [join "," headers; csv_row fraction_toString inv]).
  split; [reflexivity|].
  set (raws := [inv_id inv; d1; d2; inv_customerName inv; inv_customerCity inv;
                itemsString fraction_toString inv;
                Number_toString_Q fraction_toString (inv_total inv)]).
  set (encs := [inv_id inv; d1; d2; quoted (inv_customerName inv);
                quoted (inv_customerCity inv);
                quoted (itemsString fraction_toString inv);
                Number_toString_Q fraction_toString (inv_total inv)]).
  assert (Hrow : csv_row fraction_toString inv = join "," encs).
  { rewrite csv_row_fields, Hdate. subst encs. cbn [join].
    rewrite !append_assoc. reflexivity. }
  rewrite Hrow.
  apply (csv_records_rows [(headers, headers); (raws, encs)]); [|discriminate].
  constructor; [|constructor; [|constructor]].
  - split; [|discriminate]. unfold headers.
    repeat (apply Forall2_cons; [left; split; reflexivity|]).
    apply Forall2_nil.
  - split; [|discriminate]. cbn [fst snd]. subst raws encs.
    apply Forall2_cons; [left; split; [reflexivity | exact Hid]|].
    apply Forall2_cons; [left; split; [reflexivity | exact H1]|].
    apply Forall2_cons; [left; split; [reflexivity | exact H2]|].
    apply Forall2_cons; [right; reflexivity|].
    apply Forall2_cons; [right; reflexivity|].
    apply Forall2_cons; [right; reflexivity|].
    apply Forall2_cons; [left; split; [reflexivity | exact Htotal]|].
    apply Forall2_nil.
Qed.

Lemma handleExportCSV_unquoted_date_witness :
  exists text : string,
    handleExportCSV Sample.no_fraction
      [mkInvoice "13" "5 Mar, 2024" "Asha" "Pune" [] 40 None None None None None]
    = Some text
    /\ csv_records text
       = [headers; ["13"; "5 Mar"; " 2024"; "Asha"; "Pune"; ""; "40"]]%string.
Proof.
  exact (handleExportCSV_unquoted_date Sample.no_fraction
           (mkInvoice "13" "5 Mar, 2024" "Asha" "Pune" [] 40
                      None None None None None)
           "5 Mar" " 2024" eq_refl eq_refl eq_refl eq_refl eq_refl).
Defined.

(* ------------------------------------------------------------------ *)
(** ** File names *)

Import Files.

Lemma all_chars_app (p : ascii -> bool) (s t : string) :
  all_chars p (s ++ t) = all_chars p s && all_chars p t.
Proof.
  induction s as [|c r IH]; cbn [append all_chars]; [reflexivity|].
  rewrite IH, andb_assoc. reflexivity.
Qed.

Lemma all_chars_weaken (p q : ascii -> bool) (s : string) :
  (forall c, p c = true -> q c = true) ->
  all_chars p s = true -> all_chars q s = true.
Proof.
  intros Hpq. induction s as [|c r IH]; cbn [all_chars]; [reflexivity|].
  intros H. apply andb_true_iff in H. destruct H as [Hc Hr].
  rewrite (Hpq c Hc), (IH Hr). reflexivity.
Qed.

Lemma all_digits_all_chars (s : string) : all_digits s = all_chars is_digit s.
Proof. induction s as [|c r IH]; cbn; [reflexivity|]. rewrite IH. reflexivity. Qed.

Lemma replaced_char_safe (c : ascii) :
  (is_alnum (if is_alnum c then c else "_"%char)
   || Ascii.eqb (if is_alnum c then c else "_"%char) "_"%char) = true.
Proof.
  destruct (is_alnum c) eqn:E; [rewrite E; reflexivity | reflexivity].
Qed.

Lemma replace_non_alnum_safe (s : string) :
  all_chars (fun c => is_alnum c || Ascii.eqb c "_"%char) (replace_non_alnum s)
  = true.
Proof.
  induction s as [|c r IH]; [reflexivity|].
  cbn [replace_non_alnum all_chars]. rewrite replaced_char_safe, IH. reflexivity.
Qed.

(** X12.  The customer's name enters the name of the PDF and the print title
    with every character other than an ASCII letter or digit replaced by an
    underscore: the replaced name has the length of the name, holds only
    letters, digits and underscores, keeps each letter and digit in its
    place, and is left alone by a second replacement; a name of letters and
    digits only is unchanged.  With a bill number of decimal digits the
    whole file name ([Invoice_] number [_] name [.pdf]) and the print title
    hold only letters, digits, underscores and the point: no separator, no
    space, no quote. *)
Theorem fileName_safe (customerName : string) :
  String.length (replace_non_alnum customerName) = String.length customerName
  /\ all_chars (fun c => is_alnum c || Ascii.eqb c "_"%char)
       (replace_non_alnum customerName) = true
  /\ (forall i : nat,
         String.get i (replace_non_alnum customerName)
         = option_map (fun c => if is_alnum c then c else "_"%char)
             (String.get i customerName))
  /\ replace_non_alnum (replace_non_alnum customerName)
     = replace_non_alnum customerName
  /\ (all_chars is_alnum customerName = true ->
      replace_non_alnum customerName = customerName)
  /\ (forall billNo : string,
         all_digits billNo = true ->
         all_chars name_char (fileName billNo customerName) = true)
  /\ (forall inv : Invoice,
         inv_customerName inv = customerName ->
         all_digits (inv_id inv) = true ->
         all_chars name_char (print_title inv) = true).
Proof.
  assert (Hsafe : all_chars name_char (replace_non_alnum customerName) = true).
  { apply (all_chars_weaken (fun c => is_alnum c || Ascii.eqb c "_"%char)).
    - intros c Hc. unfold name_char. rewrite Hc. reflexivity.
    - apply replace_non_alnum_safe. }
  assert (Hdig : forall b : string,
             all_digits b = true -> all_chars name_char b = true).
  { intros b Hb. rewrite all_digits_all_chars in Hb.
    apply (all_chars_weaken is_digit); [|exact Hb].
    intros c Hc. unfold name_char, is_alnum. rewrite Hc. reflexivity. }
  split; [|split; [|split; [|split; [|split; [|split]]]]].
  - induction customerName as [|c r IH]; [reflexivity|].
    cbn [replace_non_alnum String.length]. rewrite IH; [reflexivity|].
    cbn [replace_non_alnum all_chars] in Hsafe.
    apply andb_true_iff in Hsafe. apply Hsafe.
  - apply replace_non_alnum_safe.
  - clear Hsafe. induction customerName as [|c r IH]; intros i; [reflexivity|].
    cbn [replace_non_alnum]. destruct i as [|i]; [reflexivity|].
    cbn [String.get]. apply IH.
  - clear Hsafe. induction customerName as [|c r IH]; [reflexivity|].
    cbn [replace_non_alnum]. rewrite IH.
    destruct (is_alnum c) eqn:E; [rewrite E; reflexivity | reflexivity].
  - clear Hsafe. induction customerName as [|c r IH]; [reflexivity|].
    cbn [all_chars replace_non_alnum]. intros H.
    apply andb_true_iff in H. destruct H as [Hc Hr].
    rewrite Hc, (IH Hr). reflexivity.
  - intros billNo Hb. unfold fileName.
    rewrite !all_chars_app, (Hdig billNo Hb), Hsafe. reflexivity.
  - intros inv Hname Hid. unfold print_title.
    rewrite !all_chars_app, (Hdig _ Hid), Hname, Hsafe. reflexivity.
Qed.

Lemma fileName_safe_witness :
  all_chars name_char (fileName "7" "Asha & Sons") = true.
Proof.
  exact (proj1 (proj2 (proj2 (proj2 (proj2 (proj2 (fileName_safe "Asha & Sons"))))))
           "7"%string eq_refl).
Defined.

(* ------------------------------------------------------------------ *)
(** ** Theme colour *)

Import Theme.

Lemma hex_value_range (c : ascii) :
  is_hex_digit c = true -> (0 <= hex_value c <= 15)%Z.
Proof.
  destruct c as [[] [] [] [] [] [] [] []]; intros H;
    try discriminate H; vm_compute; split; discriminate.
Qed.

Lemma parseInt_hex_pair (c1 c2 : ascii) :
  is_hex_digit c1 = true -> is_hex_digit c2 = true ->
  parseInt ("0x" ++ String c1 EmptyString ++ String c2 EmptyString)
  = Some (16 * hex_value c1 + hex_value c2)%Z.
Proof.
  intros H1 H2. cbn [append]. unfold parseInt.
  change (trimStart (String "0" (String "x" (String c1 (String c2 EmptyString)))))
    with (String "0" (String "x" (String c1 (String c2 EmptyString)))).
  cbv beta iota zeta. cbn [radix_prefix]. rewrite H1, H2.
  apply f_equal. lia.
Qed.

(** X13.  [hexToRgba] on a colour of seven characters reads characters 2
    to 7 in pairs as hexadecimal numbers, each channel between 0 and 255,
    and prints them in decimal; the first character is not looked at.  A
    colour of four characters gives what the seven-character colour with
    each digit doubled gives.  A colour of any other length gives black,
    [rgba(0,0,0,alpha)].  The default theme colour gives
    [rgba(220,38,38,alpha)]. *)
Theorem hexToRgba_spec (alpha : string) :
  (forall c0 c1 c2 c3 c4 c5 c6 : ascii,
      is_hex_digit c1 = true -> is_hex_digit c2 = true ->
      is_hex_digit c3 = true -> is_hex_digit c4 = true ->
      is_hex_digit c5 = true -> is_hex_digit c6 = true ->
      let hex :=
        String c0 (String c1 (String c2 (String c3 (String c4
          (String c5 (String c6 EmptyString)))))) in
      let r := (16 * hex_value c1 + hex_value c2)%Z in
      let g := (16 * hex_value c3 + hex_value c4)%Z in
      let b := (16 * hex_value c5 + hex_value c6)%Z in
      hexToRgba_channels hex = (Some r, Some g, Some b)
      /\ (0 <= r <= 255 /\ 0 <= g <= 255 /\ 0 <= b <= 255)%Z
      /\ hexToRgba hex alpha
         = ("rgba(" ++ decimal r ++ "," ++ decimal g ++ "," ++ decimal b
            ++ "," ++ alpha ++ ")")%string)
  /\ (forall c0 c1 c2 c3 : ascii,
         hexToRgba (String c0 (String c1 (String c2 (String c3 EmptyString)))) alpha
         = hexToRgba
             (String c0 (String c1 (String c1 (String c2 (String c2
                (String c3 (String c3 EmptyString))))))) alpha)
  /\ (forall hex : string,
         String.length hex <> 4%nat -> String.length hex <> 7%nat ->
         hexToRgba hex alpha = ("rgba(0,0,0," ++ alpha ++ ")")%string)
  /\ hexToRgba "#dc2626" alpha = ("rgba(220,38,38," ++ alpha ++ ")")%string.
Proof.
  split; [|split; [|split]].
  - intros c0 c1 c2 c3 c4 c5 c6 H1 H2 H3 H4 H5 H6 hex r g b.
    pose proof (hex_value_range c1 H1). pose proof (hex_value_range c2 H2).
    pose proof (hex_value_range c3 H3). pose proof (hex_value_range c4 H4).
    pose proof (hex_value_range c5 H5). pose proof (hex_value_range c6 H6).
    assert (Hch : hexToRgba_channels hex = (Some r, Some g, Some b)).
    { subst hex r g b. unfold hexToRgba_channels.
      cbn [String.length Nat.eqb char_at String.get].
      rewrite (parseInt_hex_pair c1 c2 H1 H2), (parseInt_hex_pair c3 c4 H3 H4),
        (parseInt_hex_pair c5 c6 H5 H6). reflexivity. }
    split; [exact Hch|]. split; [subst r g b; lia|].
    unfold hexToRgba. rewrite Hch. cbn [show_number].
    rewrite !Number_toString_decimal by (subst r g b; lia). reflexivity.
  - intros c0 c1 c2 c3. reflexivity.
  - intros hex H4 H7. unfold hexToRgba, hexToRgba_channels.
    apply Nat.eqb_neq in H4, H7. rewrite H4, H7. reflexivity.
  - reflexivity.
Qed.

Lemma hexToRgba_spec_witness :
  hexToRgba "#1E90ff" "0.3" = "rgba(30,144,255,0.3)"%string.
Proof.
  exact (proj2 (proj2 (proj1 (hexToRgba_spec "0.3")
           "#"%char "1"%char "E"%char "9"%char "0"%char "f"%char "f"%char
           eq_refl eq_refl eq_refl eq_refl eq_refl eq_refl))).
Defined.

(* ------------------------------------------------------------------ *)
(** ** Weight summary: the edges *)

Import Summary.













(* ------------------------------------------------------------------ *)
(** ** Preview scale *)

Import Scale.



(* ------------------------------------------------------------------ *)
(** ** Amount in words: the groups are those of the number *)

Lemma digit_of_range (c : ascii) : is_digit c = true -> (0 <= digit_of c <= 9)%Z.
Proof.
  intros H.
  destruct (digit_cases c H) as [E|[E|[E|[E|[E|[E|[E|[E|[E|E]]]]]]]]];
    subst c; vm_compute; split; discriminate.
Qed.

Lemma group_words_two (c1 c2 : ascii) :
  is_digit c1 = true -> is_digit c2 = true ->
  group_words (String c1 (String c2 EmptyString))
  = words_below_100 (10 * digit_of c1 + digit_of c2).
Proof.
  intros H1 H2.
  destruct (digit_cases c1 H1) as [E|[E|[E|[E|[E|[E|[E|[E|[E|E]]]]]]]]]; subst c1;
    destruct (digit_cases c2 H2) as [E|[E|[E|[E|[E|[E|[E|[E|[E|E]]]]]]]]]; subst c2;
    reflexivity.
Qed.

Lemma group_words_one (c : ascii) :
  is_digit c = true -> digit_of c <> 0%Z ->
  group_words (String c EmptyString) = words_below_100 (digit_of c).
Proof.
  intros H Hnz.
  destruct (digit_cases c H) as [E|[E|[E|[E|[E|[E|[E|[E|[E|E]]]]]]]]]; subst c;
    try reflexivity.
  exfalso. apply Hnz. reflexivity.
Qed.

Lemma drop_app_le (k : nat) (z d : string) :
  (k <= String.length z)%nat -> drop k (z ++ d) = (drop k z ++ d)%string.
Proof.
  revert z. induction k as [|k IH]; intros z Hk; [reflexivity|].
  destruct z as [|c r]; cbn [String.length] in Hk; [lia|].
  cbn [append drop]. apply IH. lia.
Qed.

(** The nine characters the pattern is matched against are the digits of
    the number, zeros in front. *)
Lemma padded_digits (n : Z) :
  (0 <= n < 10 ^ 9)%Z ->
  exists c1 c2 c3 c4 c5 c6 c7 c8 c9 : ascii,
    slice_last 9 ("000000000" ++ Number_toString n)
    = String c1 (String c2 (String c3 (String c4 (String c5 (String c6
        (String c7 (String c8 (String c9 EmptyString))))))))
    /\ (is_digit c1 = true /\ is_digit c2 = true /\ is_digit c3 = true
        /\ is_digit c4 = true /\ is_digit c5 = true /\ is_digit c6 = true
        /\ is_digit c7 = true /\ is_digit c8 = true /\ is_digit c9 = true)
    /\ n = (digit_of c1 * 100000000 + digit_of c2 * 10000000
            + digit_of c3 * 1000000 + digit_of c4 * 100000
            + digit_of c5 * 10000 + digit_of c6 * 1000
            + digit_of c7 * 100 + digit_of c8 * 10 + digit_of c9)%Z.
Proof.
  intros Hn. rewrite Number_toString_decimal by lia.
  pose proof (decimal_short 9 n ltac:(lia) Hn) as Hlen.
  destruct (decimal_spec n (proj1 Hn)) as [Hval Hdig].
  set (d := decimal n) in *.
  assert (Hs : slice_last 9 ("000000000" ++ d)
               = (drop (String.length d) "000000000" ++ d)%string).
  { unfold slice_last. rewrite length_app_string. cbn [String.length].
    replace (9 + String.length d - 9)%nat with (String.length d) by lia.
    apply drop_app_le. cbn [String.length]. exact Hlen. }
  assert (Hz : all_digits (drop (String.length d) "000000000") = true
               /\ digits_value (drop (String.length d) "000000000") = 0%Z).
  { generalize (String.length d). intros k.
    do 10 (destruct k as [|k]; [split; reflexivity|]). split; reflexivity. }
  assert (Hl9 : String.length (slice_last 9 ("000000000" ++ d)) = 9%nat).
  { unfold slice_last. rewrite length_drop, length_app_string.
    cbn [String.length]. lia. }
  assert (Hd9 : all_digits (slice_last 9 ("000000000" ++ d)) = true).
  { rewrite Hs, all_digits_app, (proj1 Hz), Hdig. reflexivity. }
  assert (Hv9 : digits_value (slice_last 9 ("000000000" ++ d)) = n).
  { rewrite Hs. unfold digits_value in *.
    rewrite digits_value_acc_app, (proj2 Hz). exact Hval. }
  destruct (slice_last 9 ("000000000" ++ d))
    as [|c1 [|c2 [|c3 [|c4 [|c5 [|c6 [|c7 [|c8 [|c9 [|c10 r]]]]]]]]]];
    try discriminate Hl9.
  exists c1, c2, c3, c4, c5, c6, c7, c8, c9.
  split; [reflexivity|].
  cbn [all_digits] in Hd9.
  repeat (apply andb_true_iff in Hd9;
          let H := fresh "D" in destruct Hd9 as [H Hd9]).
  split; [repeat split; assumption|].
  unfold digits_value in Hv9. cbn [digits_value_acc] in Hv9.
  unfold digit_of. lia.
Qed.

Lemma group_part_two (c1 c2 : ascii) (name : string) :
  is_digit c1 = true -> is_digit c2 = true ->
  (if negb (digits_value (String c1 (String c2 EmptyString)) =? 0)%Z
   then group_words (String c1 (String c2 EmptyString)) ++ name else "")%string
  = group_text (10 * digit_of c1 + digit_of c2) name.
Proof.
  intros H1 H2. unfold group_text.
  replace (digits_value (String c1 (String c2 EmptyString)))
    with (10 * digit_of c1 + digit_of c2)%Z
    by (unfold digits_value, digit_of; cbn [digits_value_acc]; lia).
  rewrite (group_words_two c1 c2 H1 H2).
  destruct (10 * digit_of c1 + digit_of c2 =? 0)%Z; reflexivity.
Qed.

Lemma group_part_one (c : ascii) (name : string) :
  is_digit c = true ->
  (if negb (digits_value (String c EmptyString) =? 0)%Z
   then group_words (String c EmptyString) ++ name else "")%string
  = group_text (digit_of c) name.
Proof.
  intros H. unfold group_text.
  replace (digits_value (String c EmptyString)) with (digit_of c)
    by (unfold digits_value, digit_of; cbn [digits_value_acc]; lia).
  destruct (digit_of c =? 0)%Z eqn:E; cbn [negb]; [reflexivity|].
  apply Z.eqb_neq in E. rewrite (group_words_one c H E). reflexivity.
Qed.

Lemma inWords_indian (n : Z) :
  (0 <= n < 10 ^ 9)%Z -> inWords n = indian_words n.
Proof.
  intros Hn.
  destruct (inWords_in_range n Hn) as [Hlen _].
  destruct (padded_digits n Hn)
    as (c1 & c2 & c3 & c4 & c5 & c6 & c7 & c8 & c9 & Hs & Hd & Hval).
  destruct Hd as (D1 & D2 & D3 & D4 & D5 & D6 & D7 & D8 & D9).
  pose proof (digit_of_range c1 D1). pose proof (digit_of_range c2 D2).
  pose proof (digit_of_range c3 D3). pose proof (digit_of_range c4 D4).
  pose proof (digit_of_range c5 D5). pose proof (digit_of_range c6 D6).
  pose proof (digit_of_range c7 D7). pose proof (digit_of_range c8 D8).
  pose proof (digit_of_range c9 D9).
  unfold inWords.
  replace (9 <? String.length (Number_toString n))%nat with false
    by (symmetry; apply Nat.ltb_ge; exact Hlen).
  rewrite Hs. unfold match_groups.
  cbn [String.length Nat.eqb all_digits].
  rewrite D1, D2, D3, D4, D5, D6, D7, D8, D9.
  cbn [andb substring]. cbn [append].
  rewrite (group_part_two c1 c2 "Crore " D1 D2),
    (group_part_two c3 c4 "Lakh " D3 D4),
    (group_part_two c5 c6 "Thousand " D5 D6),
    (group_part_one c7 "Hundred " D7).
  replace (digits_value (String c8 (String c9 EmptyString)))
    with (10 * digit_of c8 + digit_of c9)%Z
    by (unfold digits_value, digit_of; cbn [digits_value_acc]; lia).
  rewrite (group_words_two c8 c9 D8 D9).
  unfold indian_words.
  replace (n / 10000000)%Z with (10 * digit_of c1 + digit_of c2)%Z
    by (apply Z.div_unique with (r := (n - (10 * digit_of c1 + digit_of c2) * 10000000)%Z); lia).
  replace (n / 100000 mod 100)%Z with (10 * digit_of c3 + digit_of c4)%Z.
  2:{ replace (n / 100000)%Z
        with (1000 * digit_of c1 + 100 * digit_of c2 + 10 * digit_of c3 + digit_of c4)%Z
        by (apply Z.div_unique
              with (r := (digit_of c5 * 10000 + digit_of c6 * 1000
                          + digit_of c7 * 100 + digit_of c8 * 10 + digit_of c9)%Z);
            lia).
      apply Z.mod_unique with (q := (10 * digit_of c1 + digit_of c2)%Z); lia. }
  replace (n / 1000 mod 100)%Z with (10 * digit_of c5 + digit_of c6)%Z.
  2:{ replace (n / 1000)%Z
        with (100000 * digit_of c1 + 10000 * digit_of c2 + 1000 * digit_of c3
              + 100 * digit_of c4 + 10 * digit_of c5 + digit_of c6)%Z
        by (apply Z.div_unique
              with (r := (digit_of c7 * 100 + digit_of c8 * 10 + digit_of c9)%Z);
            lia).
      apply Z.mod_unique
        with (q := (1000 * digit_of c1 + 100 * digit_of c2 + 10 * digit_of c3
                    + digit_of c4)%Z); lia. }
  replace (n / 100 mod 10)%Z with (digit_of c7).
  2:{ replace (n / 100)%Z
        with (1000000 * digit_of c1 + 100000 * digit_of c2 + 10000 * digit_of c3
              + 1000 * digit_of c4 + 100 * digit_of c5 + 10 * digit_of c6
              + digit_of c7)%Z
        by (apply Z.div_unique with (r := (digit_of c8 * 10 + digit_of c9)%Z); lia).
      apply Z.mod_unique
        with (q := (100000 * digit_of c1 + 10000 * digit_of c2 + 1000 * digit_of c3
                    + 100 * digit_of c4 + 10 * digit_of c5 + digit_of c6)%Z); lia. }
  replace (n mod 100)%Z with (10 * digit_of c8 + digit_of c9)%Z
    by (apply Z.mod_unique
          with (q := (1000000 * digit_of c1 + 100000 * digit_of c2
                      + 10000 * digit_of c3 + 1000 * digit_of c4
                      + 100 * digit_of c5 + 10 * digit_of c6 + digit_of c7)%Z); lia).
  cbv zeta.
  destruct (10 * digit_of c8 + digit_of c9 =? 0)%Z; cbn [negb]; [reflexivity|].
  destruct (String.eqb _ ""); reflexivity.
Qed.

Lemma inWords_negative (n : Z) :
  (- 10 ^ 8 < n < 0)%Z -> inWords n = ""%string.
Proof.
  intros Hn. unfold inWords, Number_toString.
  replace (n <? 0)%Z with true by (symmetry; apply Z.ltb_lt; lia).
  replace (- n <? 10 ^ 21)%Z with true by (symmetry; apply Z.ltb_lt; lia).
  pose proof (decimal_short 8 (- n) ltac:(lia) ltac:(lia)) as Hlen.
  set (d := decimal (- n)) in *.
  change ("-" ++ d)%string with (String "-" d).
  replace (9 <? String.length (String "-" d))%nat with false
    by (symmetry; apply Nat.ltb_ge; cbn [String.length]; lia).
  assert (Hs : slice_last 9 ("000000000" ++ String "-" d)
               = (drop (String.length (String "-" d)) "000000000"
                  ++ String "-" d)%string).
  { unfold slice_last. rewrite length_app_string.
    replace (String.length "000000000" + String.length (String "-" d) - 9)%nat
      with (String.length (String "-" d)) by (cbn [String.length]; lia).
    apply drop_app_le. cbn [String.length]. lia. }
  unfold match_groups. rewrite Hs, all_digits_app.
  cbn [all_digits]. change (is_digit "-"%char) with false.
  cbn [andb]. rewrite !andb_false_r. reflexivity.
Qed.

Lemma inWords_negative_overflow (n : Z) :
  (- 10 ^ 21 < n <= - 10 ^ 8)%Z -> inWords n = "overflow"%string.
Proof.
  intros Hn. unfold inWords, Number_toString.
  replace (n <? 0)%Z with true by (symmetry; apply Z.ltb_lt; lia).
  replace (- n <? 10 ^ 21)%Z with true by (symmetry; apply Z.ltb_lt; lia).
  pose proof (decimal_long 8 (- n) ltac:(lia)) as Hlen.
  change ("-" ++ decimal (- n))%string with (String "-" (decimal (- n))).
  replace (9 <? String.length (String "-" (decimal (- n))))%nat with true
    by (symmetry; apply Nat.ltb_lt; cbn [String.length]; lia).
  reflexivity.
Qed.

(** X16.  The words of an amount are those of the Indian numbering system.
    For a number from 1 to 999,999,999 the result is, in this order, the
    words of its crores (the number divided by 10^7), of its lakhs, of its
    thousands and of its hundreds, each followed by the name of the group
    and left out when zero, then the words of its last two digits, after
    [and] when a higher group was printed, and [Only] at the end; a number
    below 100 is worded by the table of the first twenty numbers or by its
    tens and its units.  A negative number of at most eight digits gets the
    bare [Only], without any words; from nine digits on it gets the overflow
    marker. *)
Theorem numberToWords_indian :
  (forall n : Z,
      (0 < n < 10 ^ 9)%Z -> numberToWords n = (indian_words n ++ "Only")%string)
  /\ (forall n : Z, (0 <= n < 10 ^ 9)%Z -> inWords n = indian_words n)
  /\ (forall n : Z, (- 10 ^ 8 < n < 0)%Z -> numberToWords n = "Only"%string)
  /\ (forall n : Z,
         (- 10 ^ 21 < n <= - 10 ^ 8)%Z -> numberToWords n = "overflowOnly"%string).
Proof.
  split; [|split; [|split]].
  - intros n Hn. unfold numberToWords.
    replace (n =? 0)%Z with false by (symmetry; apply Z.eqb_neq; lia).
    rewrite inWords_indian by lia. reflexivity.
  - exact inWords_indian.
  - intros n Hn. unfold numberToWords.
    replace (n =? 0)%Z with false by (symmetry; apply Z.eqb_neq; lia).
    rewrite (inWords_negative n Hn). reflexivity.
  - intros n Hn. unfold numberToWords.
    replace (n =? 0)%Z with false by (symmetry; apply Z.eqb_neq; lia).
    rewrite (inWords_negative_overflow n Hn). reflexivity.
Qed.

Lemma numberToWords_indian_witness :
  numberToWords 12345678
  = ("One Crore Twenty Three Lakh Forty Five Thousand Six Hundred "
     ++ "and Seventy Eight Only")%string.
Proof.
  assert (H : (0 < 12345678 < 10 ^ 9)%Z) by (split; reflexivity).
  exact (proj1 numberToWords_indian 12345678%Z H).
Defined.

(* ------------------------------------------------------------------ *)
(** ** Leaving the bill form *)

Import Navigation.

Lemma hasChanges_iff (s : State) :
  hasChanges s = true
  <-> isSaved s = false
      /\ (items s <> [] \/ trim (customerName s) <> ""%string
          \/ trim (customerCity s) <> ""%string).
Proof.
  unfold hasChanges.
  rewrite andb_true_iff, !orb_true_iff, !negb_true_iff, !String.eqb_neq.
  assert (Hlen : (List.length (items s) =? 0)%nat = false <-> items s <> []).
  { destruct (items s); cbn; split; intros H; congruence. }
  rewrite Hlen. tauto.
Qed.

Lemma addItem_nonempty (products : list Product) (now : Z) (s : State) (p : Product) :
  selectedProductID s <> ""%string ->
  find (fun p => String.eqb (product_id p) (selectedProductID s)) products = Some p ->
  items (addItem products now s) <> [].
Proof.
  intros Hsel Hfind.
  destruct (findIndex_cases
              (fun item => String.eqb (item_productId item) (product_id p))
              (items s)) as [Hnone | (pre & x & post & Hl & Hpre & Hx)].
  - assert (Hno : Forall (fun i => item_productId i <> product_id p) (items s)).
    { eapply Forall_impl; [|exact Hnone]. intros i Hi. apply String.eqb_neq, Hi. }
    rewrite (addItem_append products now s p Hsel Hfind Hno).
    intros H. apply app_eq_nil in H. destruct H as [_ H]. discriminate H.
  - assert (Hno : Forall (fun i => item_productId i <> product_id p) pre).
    { eapply Forall_impl; [|exact Hpre]. intros i Hi. apply String.eqb_neq, Hi. }
    apply String.eqb_eq in Hx.
    rewrite (addItem_merge products now s p pre x post Hsel Hfind Hl Hno Hx).
    intros H. apply app_eq_nil in H. destruct H as [_ H]. discriminate H.
Qed.

(** X17.  The navigation guard, with the flag the bill form reports.  On
    the bill tab, choosing another tab asks for confirmation exactly when
    the bill is not saved and has a line, or a customer name or city that
    is not blank; when the user declines, nothing changes; in every other
    case the chosen tab becomes active, and after a confirmed leave the flag
    is cleared.  So a locked (saved) bill and an untouched form are left
    without a question: right after Save is pressed (even while the save is
    pending) and right after New Bill there is nothing to confirm, while
    after adding a product to an unsaved bill there is. *)
Theorem navigation_guard (w : World) (tab : AppTab) (confirmed : bool) :
  (snd (handleTabChange tab confirmed
          (onUnsavedChanges (hasChanges (st w)) (mkNav CREATE_BILL false)))
   = true
   <-> tab <> CREATE_BILL
       /\ isSaved (st w) = false
       /\ (items (st w) <> [] \/ trim (customerName (st w)) <> ""%string
           \/ trim (customerCity (st w)) <> ""%string))
  /\ (forall nav : Nav,
         snd (handleTabChange tab confirmed nav) = true -> confirmed = false ->
         fst (handleTabChange tab confirmed nav) = nav)
  /\ (forall nav : Nav,
         snd (handleTabChange tab confirmed nav) = false \/ confirmed = true ->
         activeTab (fst (handleTabChange tab confirmed nav)) = tab)
  /\ (forall nav : Nav,
         snd (handleTabChange tab confirmed nav) = true -> confirmed = true ->
         hasUnsavedChanges (fst (handleTabChange tab confirmed nav)) = false)
  /\ (forall (from : AppTab) (flag : bool),
         from <> CREATE_BILL ->
         handleTabChange tab confirmed (mkNav from flag) = (mkNav tab flag, false))
  /\ (save_disabled (st w) = false ->
      hasChanges (st (dispatch w ClickSave)) = false)
  /\ (forall today : string,
         isSaved (st w) = true ->
         hasChanges (st (dispatch w (ClickNewBill today))) = false)
  /\ (forall (now : Z) (p : Product),
         isSaved (st w) = false ->
         selectedProductID (st w) <> ""%string ->
         find (fun p => String.eqb (product_id p) (selectedProductID (st w)))
              (products w) = Some p ->
         hasChanges (st (dispatch w (ClickAddItem now))) = true).
Proof.
  split; [|split; [|split; [|split; [|split; [|split; [|split]]]]]].
  - unfold handleTabChange, onUnsavedChanges.
    cbn [activeTab hasUnsavedChanges AppTab_eqb andb].
    rewrite <- hasChanges_iff.
    destruct (hasChanges (st w)), tab, confirmed; cbn;
      split; intros H; try discriminate H; try reflexivity;
      try (split; [discriminate | reflexivity]);
      destruct H as [H1 H2]; try discriminate H2; try (exfalso; apply H1; reflexivity).
  - intros nav H Hc. subst confirmed. unfold handleTabChange in *.
    destruct (AppTab_eqb (activeTab nav) CREATE_BILL && hasUnsavedChanges nav
              && negb (AppTab_eqb tab CREATE_BILL)); [reflexivity | discriminate H].
  - intros nav H. unfold handleTabChange in *.
    destruct (AppTab_eqb (activeTab nav) CREATE_BILL && hasUnsavedChanges nav
              && negb (AppTab_eqb tab CREATE_BILL)); [|reflexivity].
    destruct confirmed; [reflexivity|].
    destruct H as [H | H]; discriminate H.
  - intros nav H Hc. subst confirmed. unfold handleTabChange in *.
    destruct (AppTab_eqb (activeTab nav) CREATE_BILL && hasUnsavedChanges nav
              && negb (AppTab_eqb tab CREATE_BILL)); [reflexivity | discriminate H].
  - intros from flag Hfrom. unfold handleTabChange. cbn [activeTab].
    destruct from; try reflexivity. exfalso. apply Hfrom. reflexivity.
  - intros Hen. rewrite (dispatch_ClickSave w Hen). unfold hasChanges.
    cbn [st isSaved setIsSaved negb]. apply andb_false_r.
  - intros today Hlock. rewrite (dispatch_ClickNewBill w today Hlock).
    reflexivity.
  - intros now p Hun Hsel Hfind.
    rewrite (dispatch_ClickAddItem w now Hun). cbn [st with_st].
    apply hasChanges_iff.
    split; [apply addItem_isSaved; exact Hun|].
    left. exact (addItem_nonempty (products w) now (st w) p Hsel Hfind).
Qed.

Lemma navigation_guard_witness :
  snd (handleTabChange INVOICE_HISTORY false
         (onUnsavedChanges (hasChanges (st Sample.ready)) (mkNav CREATE_BILL false)))
  = true
  /\ hasChanges (st (dispatch Sample.ready ClickSave)) = false.
Proof.
  split.
  - apply (proj1 (navigation_guard Sample.ready INVOICE_HISTORY false)).
    split; [discriminate|]. split; [reflexivity|]. left. discriminate.
  - apply (proj1 (proj2 (proj2 (proj2 (proj2 (proj2
             (navigation_guard Sample.ready INVOICE_HISTORY false))))))).
    reflexivity.
Defined.

(* ------------------------------------------------------------------ *)
(** ** Line ids *)

Lemma Number_toString_injective (a b : Z) :
  (0 <= a < 10 ^ 21)%Z -> (0 <= b < 10 ^ 21)%Z ->
  Number_toString a = Number_toString b -> a = b.
Proof.
  intros Ha Hb H. rewrite !Number_toString_decimal in H by assumption.
  pose proof (proj1 (decimal_spec a (proj1 Ha))) as Va.
  pose proof (proj1 (decimal_spec b (proj1 Hb))) as Vb.
  rewrite H in Va. lia.
Qed.

Lemma map_set_nth_same {A B : Type} (f : A -> B) (pre : list A) (x y : A)
      (post : list A) :
  f y = f x -> map f (pre ++ y :: post) = map f (pre ++ x :: post).
Proof. intros H. rewrite !map_app. cbn [map]. rewrite H. reflexivity. Qed.

(** What [addItem] does to the ids of the lines: nothing, or one new id, the
    text of the time of the click, at the end. *)
Lemma addItem_ids (products : list Product) (now : Z) (s : State) :
  map item_id (items (addItem products now s)) = map item_id (items s)
  \/ map item_id (items (addItem products now s))
     = map item_id (items s) ++ [Number_toString now].
Proof.
  destruct (String.eqb (selectedProductID s) "") eqn:Hsel;
    [left; unfold addItem; rewrite Hsel; reflexivity|].
  destruct (find (fun p => String.eqb (product_id p) (selectedProductID s)) products)
    as [p|] eqn:Hfind.
  2:{ left. unfold addItem. rewrite Hsel, Hfind. reflexivity. }
  apply String.eqb_neq in Hsel.
  destruct (findIndex_cases
              (fun item => String.eqb (item_productId item) (product_id p))
              (items s)) as [Hnone | (pre & x & post & Hl & Hpre & Hx)].
  - right.
    assert (Hno : Forall (fun i => item_productId i <> product_id p) (items s)).
    { eapply Forall_impl; [|exact Hnone]. intros i Hi. apply String.eqb_neq, Hi. }
    rewrite (addItem_append products now s p Hsel Hfind Hno).
    rewrite map_app. reflexivity.
  - left.
    assert (Hno : Forall (fun i => item_productId i <> product_id p) pre).
    { eapply Forall_impl; [|exact Hpre]. intros i Hi. apply String.eqb_neq, Hi. }
    apply String.eqb_eq in Hx.
    rewrite (addItem_merge products now s p pre x post Hsel Hfind Hl Hno Hx), Hl.
    apply map_set_nth_same. reflexivity.
Qed.

Lemma NoDup_filter_ids (id : string) (l : list InvoiceItem) :
  NoDup (map item_id l) ->
  NoDup (map item_id (filter (fun i => negb (String.eqb (item_id i) id)) l)).
Proof.
  intros Hnd. induction l as [|x r IH]; cbn [map filter] in *; [exact Hnd|].
  apply NoDup_cons_iff in Hnd. destruct Hnd as [Hnin Hr].
  destruct (negb (String.eqb (item_id x) id)); cbn [map]; [|exact (IH Hr)].
  apply NoDup_cons_iff. split; [|exact (IH Hr)].
  intros Hin. apply Hnin.
  apply in_map_iff in Hin. destruct Hin as [z [Hz Hin]].
  apply filter_In in Hin. apply in_map_iff. exists z. tauto.
Qed.

(** An event either keeps the ids within those present, without making
    duplicates, or is an add that appends the text of its time. *)
Lemma dispatch_ids (w : World) (e : Event) :
  (incl (map item_id (items (st (dispatch w e)))) (map item_id (items (st w)))
   /\ (NoDup (map item_id (items (st w))) ->
       NoDup (map item_id (items (st (dispatch w e))))))
  \/ exists now : Z,
       e = ClickAddItem now
       /\ map item_id (items (st (dispatch w e)))
          = map item_id (items (st w)) ++ [Number_toString now].
Proof.
  rewrite dispatch_items.
  assert (Hsame : forall l : list InvoiceItem,
             l = items (st w) ->
             incl (map item_id l) (map item_id (items (st w)))
             /\ (NoDup (map item_id (items (st w))) -> NoDup (map item_id l))).
  { intros l ->. split; [apply incl_refl | auto]. }
  assert (Hnil : incl (map item_id (@nil InvoiceItem)) (map item_id (items (st w)))
                 /\ (NoDup (map item_id (items (st w)))
                     -> NoDup (map item_id (@nil InvoiceItem)))).
  { split; [intros x Hx; destruct Hx | intros _; constructor]. }
  destruct e; cbn [handle].
  - destruct (isSaved (st w)); [left; apply Hsame; reflexivity|].
    cbn [st with_st].
    destruct (addItem_ids (products w) now (st w)) as [H | H].
    + left. rewrite H. split; [apply incl_refl | auto].
    + right. exists now. split; [reflexivity | exact H].
  - left. destruct (isSaved (st w)); [apply Hsame; reflexivity|].
    cbn [st with_st]. rewrite updateItemQty_items, map_map.
    rewrite (map_ext _ item_id).
    + split; [apply incl_refl | auto].
    + intros i. destruct (String.eqb (item_id i) id); reflexivity.
  - left. destruct (isSaved (st w)); [apply Hsame; reflexivity|].
    cbn [st with_st]. unfold removeItem. cbn [items setItems setIsSaved]. split.
    + intros x Hx. apply in_map_iff in Hx. destruct Hx as [i [Hi Hin]].
      apply filter_In in Hin. apply in_map_iff. exists i. tauto.
    + apply NoDup_filter_ids.
  - left. destruct (isSaved (st w)); apply Hsame; reflexivity.
  - left. destruct (isSaved (st w)); apply Hsame; [reflexivity|].
    unfold handleCustomerSelect. cbn [st with_st]. break_match; reflexivity.
  - left. destruct (isSaved (st w)); apply Hsame; reflexivity.
  - left. destruct (isSaved (st w)); apply Hsame; reflexivity.
  - left. destruct (isSaved (st w)); apply Hsame; reflexivity.
  - left. destruct (isSaved (st w)); apply Hsame; reflexivity.
  - left. destruct (0 <? List.length (items (st w)))%nat;
      [destruct confirmed|]; (apply Hsame; reflexivity) || exact Hnil.
  - left. destruct (isSaved (st w)); [exact Hnil | apply Hsame; reflexivity].
  - left. apply Hsame. destruct (save_disabled (st w)); [reflexivity|].
    unfold handleSave_begin, run_cmds.
    destruct (List.length (items (st w)) =? 0)%nat; reflexivity.
  - left. apply Hsame. destruct (inflight w); [|reflexivity].
    destruct doc_ok; reflexivity.
  - left. apply Hsame. reflexivity.
Qed.

Lemma add_times_app (es1 es2 : list Event) :
  add_times (es1 ++ es2) = add_times es1 ++ add_times es2.
Proof. unfold add_times. apply flat_map_app. Qed.

Lemma dispatch_all_app (w : World) (es1 es2 : list Event) :
  dispatch_all w (es1 ++ es2) = dispatch_all (dispatch_all w es1) es2.
Proof. unfold dispatch_all. apply fold_left_app. Qed.

Lemma item_ids_from_clicks (w0 : World) (es : list Event) :
  items (st w0) = [] ->
  NoDup (add_times es) ->
  Forall (fun t => (0 <= t < 10 ^ 21)%Z) (add_times es) ->
  NoDup (map item_id (items (st (dispatch_all w0 es))))
  /\ incl (map item_id (items (st (dispatch_all w0 es))))
          (map Number_toString (add_times es)).
Proof.
  intros H0. induction es as [|e es IH] using rev_ind; intros Hnd Hrange.
  - cbn [dispatch_all fold_left]. rewrite H0. split; [constructor|].
    intros x Hx. destruct Hx.
  - rewrite add_times_app in Hnd, Hrange.
    apply Forall_app in Hrange. destruct Hrange as [Hr1 Hr2].
    pose proof (NoDup_app_remove_r _ _ Hnd) as Hnd1.
    destruct (IH Hnd1 Hr1) as [IHn IHi].
    rewrite dispatch_all_app. cbn [dispatch_all fold_left].
    fold (dispatch_all w0 es). rewrite add_times_app, map_app.
    destruct (dispatch_ids (dispatch_all w0 es) e)
      as [[Hincl Hkeep] | [now [He Hids]]].
    + split; [exact (Hkeep IHn)|].
      intros x Hx. apply in_or_app. left. apply IHi, Hincl, Hx.
    + subst e. cbn [add_times flat_map app] in *. rewrite Hids.
      split.
      * apply NoDup_app_remove_r with (l' := []). rewrite app_nil_r.
        apply (Permutation_NoDup (Permutation_cons_append _ _)).
        constructor; [|exact IHn].
        intros Hin. apply IHi in Hin. apply in_map_iff in Hin.
        destruct Hin as [t [Ht Hin]].
        inversion Hr2 as [|? ? Hnow _]; subst.
        rewrite Forall_forall in Hr1.
        apply Number_toString_injective in Ht; [|exact (Hr1 t Hin) | exact Hnow].
        subst t.
        apply (NoDup_remove_2 (add_times es) [] now) in Hnd.
        apply Hnd. rewrite app_nil_r. exact Hin.
      * intros x Hx. apply in_app_or in Hx. destruct Hx as [Hx | Hx].
        -- apply in_or_app. left. apply IHi, Hx.
        -- apply in_or_app. right. exact Hx.
Qed.

(** X18.  The lines of a bill have distinct ids as long as the clock gives
    a different time (a whole number of milliseconds from 0 up, below 10^21)
    to every press of Add since the form was opened: every id is the text
    of the time of one of those presses, and no two lines share one.  Then
    a quantity button changes, and a remove button removes, one line only. *)
Theorem item_ids_distinct
    (settings : BusinessSettings) (products : list Product)
    (customers : list Customer) (today : string) (es : list Event) :
  NoDup (add_times es) ->
  Forall (fun t => (0 <= t < 10 ^ 21)%Z) (add_times es) ->
  NoDup (map item_id
           (items (st (dispatch_all (mount settings products customers today) es))))
  /\ incl (map item_id
             (items (st (dispatch_all (mount settings products customers today) es))))
          (map Number_toString (add_times es))
  /\ (forall (pre : list InvoiceItem) (x : InvoiceItem) (post : list InvoiceItem),
         items (st (dispatch_all (mount settings products customers today) es))
         = pre ++ x :: post ->
         items (removeItem (item_id x)
                  (st (dispatch_all (mount settings products customers today) es)))
         = pre ++ post).
Proof.
  intros Hnd Hrange.
  destruct (item_ids_from_clicks (mount settings products customers today) es
              eq_refl Hnd Hrange) as [Hn Hi].
  split; [exact Hn|]. split; [exact Hi|].
  intros pre x post Hl.
  unfold removeItem. cbn [items setItems setIsSaved].
  rewrite Hl in Hn |- *. rewrite map_app in Hn. cbn [map] in Hn.
  pose proof (NoDup_remove_2 _ _ _ Hn) as Hnot.
  assert (Hrest : forall l : list InvoiceItem,
             (forall i, In i l -> In (item_id i) (map item_id pre ++ map item_id post)) ->
             filter (fun item => negb (String.eqb (item_id item) (item_id x))) l = l).
  { intros l Hl'. apply filter_keep. apply Forall_forall. intros i Hin.
    apply negb_true_iff, String.eqb_neq. intros E.
    apply Hnot. rewrite <- E. apply Hl', Hin. }
  rewrite filter_app. cbn [filter]. rewrite String.eqb_refl. cbn [negb].
  rewrite (Hrest pre), (Hrest post); [reflexivity | |].
  - intros i Hin. apply in_or_app. right. apply in_map, Hin.
  - intros i Hin. apply in_or_app. left. apply in_map, Hin.
Qed.

Lemma item_ids_distinct_witness :
  (NoDup (add_times Sample.composing)
   /\ Forall (fun t => (0 <= t < 10 ^ 21)%Z) (add_times Sample.composing))
  /\ NoDup (map item_id (items (st Sample.ready))).
Proof.
  assert (H1 : NoDup (add_times Sample.composing)).
  { cbn. repeat constructor; cbn; intuition discriminate. }
  assert (H2 : Forall (fun t => (0 <= t < 10 ^ 21)%Z) (add_times Sample.composing)).
  { cbn. repeat constructor; discriminate. }
  split; [split; [exact H1 | exact H2]|].
  exact (proj1 (item_ids_distinct Sample.shop Sample.catalog [] "03/11/2026"
                  Sample.composing H1 H2)).
Defined.

(* ------------------------------------------------------------------ *)
(** ** Analytics: sales per product *)

Import Analytics.











Lemma sum_values_perm (l l' : list (string * Q)) :
  Permutation l l' -> sum_values l == sum_values l'.
Proof.
  induction 1 as [| x l l' _ IH | x y l | l l' l'' _ IH1 _ IH2];
    cbn [sum_values].
  - reflexivity.
  - rewrite IH. reflexivity.
  - ring.
  - rewrite IH1. exact IH2.
Qed.














(* ------------------------------------------------------------------ *)
(** ** Analytics: the two charts *)





Lemma fold_Qmax (l : list Q) :
  forall acc : Q,
    acc <= fold_left Qmax l acc
    /\ (forall x, In x l -> x <= fold_left Qmax l acc)
    /\ (fold_left Qmax l acc == acc \/ exists x, In x l /\ fold_left Qmax l acc == x).
Proof.
  induction l as [|y r IH]; intros acc; cbn [fold_left].
  - split; [apply Qle_refl|]. split; [intros x []|]. left. reflexivity.
  - destruct (IH (Qmax acc y)) as (H1 & H2 & H3).
    pose proof (Q.le_max_l acc y) as La. pose proof (Q.le_max_r acc y) as Ly.
    split; [lra|]. split.
    + intros x [<- | Hx]; [lra | exact (H2 x Hx)].
    + destruct H3 as [H3 | [x [Hx H3]]].
      * destruct (Q.max_spec acc y) as [[_ E] | [_ E]].
        -- right. exists y. split; [left; reflexivity|]. rewrite H3. exact E.
        -- left. rewrite H3. exact E.
      * right. exists x. split; [right; exact Hx | exact H3].
Qed.

(** X21.  The revenue bars.  For a chart that is not empty the reference
    value is the greatest revenue shown, and some bar has it.  No bar is
    higher than 100 per cent; when the greatest revenue is positive, a bar
    of that revenue is exactly 100 per cent high and a bar of a revenue that
    is not negative has a height that is not negative; when the greatest
    revenue is zero or negative every bar has height 0. *)
Theorem bar_heights (data : list (string * Q)) (m : Q) :
  maxVal data = Some m ->
  (forall d, In d data -> snd d <= m)
  /\ (exists d, In d data /\ snd d == m)
  /\ (forall d, In d data -> heightPercent m (snd d) <= 100)
  /\ (0 < m -> forall d, In d data -> snd d == m -> heightPercent m (snd d) == 100)
  /\ (0 < m -> forall d, In d data -> 0 <= snd d -> 0 <= heightPercent m (snd d))
  /\ (m <= 0 -> forall d, In d data -> heightPercent m (snd d) = 0).
Proof.
  intros Hm. destruct data as [|d0 r]; [discriminate Hm|].
  cbn [maxVal] in Hm. injection Hm as Hm.
  destruct (fold_Qmax (map snd r) (snd d0)) as (H1 & H2 & H3).
  rewrite Hm in H1, H2, H3.
  assert (Hle : forall d, In d (d0 :: r) -> snd d <= m).
  { intros d [<- | Hd]; [exact H1|]. apply H2, in_map, Hd. }
  assert (Hpos : forall v : Q, 0 < m -> heightPercent m v == v / m * 100).
  { intros v H. unfold heightPercent.
    destruct (Qle_bool m 0) eqn:E; [|reflexivity].
    apply Qle_bool_iff in E. lra. }
  split; [exact Hle|]. split; [|split; [|split; [|split]]].
  - destruct H3 as [H3 | [x [Hx H3]]].
    + exists d0. split; [left; reflexivity | symmetry; exact H3].
    + apply in_map_iff in Hx. destruct Hx as [d [<- Hd]].
      exists d. split; [right; exact Hd | symmetry; exact H3].
  - intros d Hd. unfold heightPercent.
    destruct (Qle_bool m 0) eqn:E; [discriminate|].
    assert (Hmpos : 0 < m).
    { destruct (Qlt_le_dec 0 m) as [H | H]; [exact H|].
      apply Qle_bool_iff in H. rewrite H in E. discriminate E. }
    assert (Hdiv : snd d / m <= 1).
    { apply Qle_shift_div_r; [exact Hmpos|]. specialize (Hle d Hd). lra. }
    set (t := snd d / m) in *. lra.
  - intros Hmpos d Hd Heq. rewrite (Hpos _ Hmpos), Heq. field. lra.
  - intros Hmpos d Hd Hnn. rewrite (Hpos _ Hmpos).
    assert (Hdiv : 0 <= snd d / m).
    { apply Qle_shift_div_l; [exact Hmpos|]. lra. }
    set (t := snd d / m) in *. lra.
  - intros Hneg d Hd. unfold heightPercent.
    replace (Qle_bool m 0) with true; [reflexivity|].
    symmetry. apply Qle_bool_iff. exact Hneg.
Qed.

Lemma bar_heights_witness :
  maxVal [("05/03/2024"%string, 100); ("16/03/2024"%string, 120)] = Some (Qmax 100 120)
  /\ heightPercent (Qmax 100 120) 100 <= 100.
Proof.
  assert (H : maxVal [("05/03/2024"%string, 100); ("16/03/2024"%string, 120)]
              = Some (Qmax 100 120)) by reflexivity.
  split; [exact H|].
  exact (proj1 (proj2 (proj2 (bar_heights _ _ H)))
           ("05/03/2024"%string, 100) (or_introl eq_refl)).
Defined.
